(** * Duke Energy data collector: the reconcile / export / orchestration core

    A shallow embedding of [collector/src/duke.ts] (class [Duke]) and of the
    entry point that drives it, with the properties of the written
    specification stated and settled against the embedded code.

    Conventions of the embedding
    - a JS number is a binary64 float ([PrimFloat.float]); integer-valued
      counters that only ever grow by one are kept in [Z];
    - a JS string is a [string], one cell per UTF-16 code unit, so the
      strings of the model are those whose code units are below 256;
      [undefined]/[null] fields are [option]s;
    - [new Date(s)] is a parameter [Date_parse : string -> option Z]
      (milliseconds since the epoch, [None] for an Invalid Date whose time
      value is NaN), because parsing of non-ISO date strings is left to the
      engine by ECMA-262;
    - the history file is [option (list record)]: [None] is a file that cannot
      be read or whose content is not JSON, [Some l] the parsed array;
    - the clock readings of one call are a [Clock]. *)

From Stdlib Require Import ZArith List String Ascii Bool Lia Floats Uint63.
From Stdlib Require Import Sorted Permutation DecimalString.
Import ListNotations.

Set Warnings "-inexact-float".

Local Open Scope string_scope.
Local Open Scope Z_scope.
Local Open Scope list_scope.

(* ================================================================== *)
(** ** JavaScript runtime pieces used by the collector *)
(* ================================================================== *)

Module JS.

(** [a || b] on strings: the empty string and [undefined] are falsy. *)
Definition truthy_str (a : option string) : bool :=
  match a with
  | Some s => negb (String.eqb s EmptyString)
  | None => false
  end.

Definition or_str (a : option string) (b : string) : string :=
  match a with
  | Some s => if String.eqb s EmptyString then b else s
  | None => b
  end.

(** [a || b] on numbers: [0], [-0], [NaN] and [undefined] are falsy. *)
Definition truthy_num (a : option float) : bool :=
  match a with
  | Some x => negb (PrimFloat.is_zero x || PrimFloat.is_nan x)
  | None => false
  end.

Definition or_num (a : option float) (b : float) : float :=
  match a with
  | Some x => if truthy_num a then x else b
  | None => b
  end.

(** Exact conversion of an integer below 2^53 to a number. *)
Definition of_Z (n : Z) : float := PrimFloat.of_uint63 (Uint63.of_Z n).

(** [Number.prototype.toFixed(d)] picks the integer [n] for which
    [n / 10^d - x] is closest to zero, the larger [n] on a tie, on the exact
    value of [|x|]. *)
Definition toFixed_digits (d : Z) (m : positive) (e : Z) : Z :=
  let scaled := Z.pos m * 10 ^ d in
  if 0 <=? e then scaled * 2 ^ e
  else (2 * scaled + 2 ^ (- e)) / 2 ^ (- e + 1).

(** [parseFloat(x.toFixed(d))].  NaN and the infinities print as words that
    parse back to themselves; [-0] prints as [0.000]; when the digit string
    has more than 53 bits the decimal lies within half a unit in the last
    place of [x] (for [d <= 3]) and parses back to [x]. *)
Definition toFixed_parse (d : Z) (x : float) : float :=
  match Prim2SF x with
  | S754_zero _ => 0%float
  | S754_infinity _ => x
  | S754_nan => x
  | S754_finite s m e =>
      let n := toFixed_digits d m e in
      if n <? 2 ^ 53 then
        let q := (of_Z n / of_Z (10 ^ d))%float in
        if s then (- q)%float else q
      else x
  end.

(** [Array.prototype.findIndex]: index of the first element satisfying [p]
    ([None] stands for -1). *)
Fixpoint findIndex {A : Type} (p : A -> bool) (l : list A) : option nat :=
  match l with
  | [] => None
  | x :: t => if p x then Some O
              else match findIndex p t with
                   | Some i => Some (S i)
                   | None => None
                   end
  end.

(** [a[i] = v] for an index inside the array. *)
Fixpoint set_index {A : Type} (i : nat) (v : A) (l : list A) : list A :=
  match l, i with
  | [], _ => []
  | _ :: t, O => v :: t
  | x :: t, S j => x :: set_index j v t
  end.

(** [str.split("/")] on the characters of a string. *)
Fixpoint split_slash (cur : list ascii) (l : list ascii) : list (list ascii) :=
  match l with
  | [] => [rev cur]
  | c :: t => if Ascii.eqb c "/"%char then rev cur :: split_slash [] t
              else split_slash (c :: cur) t
  end.

Definition split (str : string) : list string :=
  map string_of_list_ascii (split_slash [] (list_ascii_of_string str)).

(** [str.trim()] is the empty string: only white space.  [trim] strips
    WhiteSpace and LineTerminator code points; those below 256 are TAB, LF,
    VT, FF, CR (9 to 13), SPACE (32) and NO-BREAK SPACE (160). *)
Definition is_space (c : ascii) : bool :=
  let n := nat_of_ascii c in
  (Nat.leb 9 n && Nat.leb n 13) || Nat.eqb n 32 || Nat.eqb n 160.

Definition blank (str : string) : bool :=
  forallb is_space (list_ascii_of_string str).

Section Sort.
Context {A : Type}.
(** [lt y x]: the comparator called as [cmp(y, x)] returned a negative
    number.  A NaN result is read as +0 (SortCompare), so it is not
    negative. *)
Variable lt : A -> A -> bool.

(** [Array.prototype.sort] is stable.  For a consistent comparator (here:
    every date of the array parses) every conforming engine returns the one
    stable sorted arrangement, and the stable insertion sort below computes
    it.  When the comparator is not consistent (it returns NaN next to an
    Invalid Date) ECMA-262 leaves the order to the engine: the result is
    still a permutation of the array, and the insertion sort is only one of
    the permitted outcomes.  Statements about the order of a sorted array
    therefore either assume that the dates parse, or speak of membership,
    or evaluate an array that the engines leave as the insertion sort
    does. *)
Fixpoint insert (x : A) (l : list A) : list A :=
  match l with
  | [] => [x]
  | y :: t => if lt y x then y :: insert x t else x :: y :: t
  end.

Fixpoint sort (l : list A) : list A :=
  match l with
  | [] => []
  | x :: t => insert x (sort t)
  end.
End Sort.

End JS.

(* ================================================================== *)
(** ** Data model *)
(* ================================================================== *)

Inductive serviceType := GAS | ELECTRIC.

(** One element of the batch returned by [processGasData]. *)
Record GasReading := mkGasReading {
  gr_date : string;                (* the M/D tick label *)
  gr_full_date : string;           (* MM/DD/YYYY *)
  gr_usage_ccf : float;
  gr_average_ccf : option float;   (* null when Series2 has no entry *)
  gr_unit : string;
  gr_timestamp : string
}.

(** One element of the gas history file. *)
Record GasRecord := mkGasRecord {
  g_date : string;
  g_date_label : string;
  g_usage_ccf : float;
  g_usage_therms : float;
  g_average_ccf : option float;
  g_unit : string;
  g_timestamp : string;
  g_created_at : string
}.

(** One element of an electric batch ([processElectricJsonData] or
    [groupElectricReadingsByDay]); fields that the producers leave out are
    optional. *)
Record ElectricReading := mkElectricReading {
  er_date : string;
  er_full_date : option string;
  er_date_label : option string;
  er_energy : option float;
  er_usage_kwh : float;
  er_startTime : option string;
  er_endTime : option string;
  er_timestamp : option string
}.

Record ElectricRecord := mkElectricRecord {
  e_date : string;
  e_date_label : string;
  e_usage_kwh : float;
  e_start_time : option string;
  e_end_time : option string;
  e_unit : string;
  e_timestamp : string;
  e_created_at : string
}.

Definition reading (s : serviceType) : Type :=
  match s with GAS => GasReading | ELECTRIC => ElectricReading end.

Definition record (s : serviceType) : Type :=
  match s with GAS => GasRecord | ELECTRIC => ElectricRecord end.

(** The clock as one call of [storeUsageData] reads it: the ISO rendering of
    [new Date()] and the instant [two_years_ago] obtained from it by
    [setFullYear(getFullYear() - 2)]. *)
Record Clock := mkClock {
  now_iso : string;
  two_years_ago : Z
}.

(** Lines 99-123: the record built for one reading. *)
Definition new_record (s : serviceType) (now : string) : reading s -> record s :=
  match s with
  | GAS => fun r =>
      let usage_therms := (gr_usage_ccf r * 1.037)%float in
      {| g_date := gr_full_date r;
         g_date_label := gr_date r;
         g_usage_ccf := gr_usage_ccf r;
         g_usage_therms := JS.toFixed_parse 3 usage_therms;
         g_average_ccf := gr_average_ccf r;
         g_unit := gr_unit r;
         g_timestamp := gr_timestamp r;
         g_created_at := now |}
  | ELECTRIC => fun r =>
      {| e_date := JS.or_str (er_full_date r) (er_date r);
         e_date_label := JS.or_str (er_date_label r) (er_date r);
         e_usage_kwh := JS.or_num (er_energy r) (er_usage_kwh r);
         e_start_time := er_startTime r;
         e_end_time := er_endTime r;
         e_unit := "kWh";
         e_timestamp := JS.or_str (er_timestamp r) now;
         e_created_at := now |}
  end.

(** Line 126. *)
Definition dateKey (s : serviceType) : reading s -> string :=
  match s with
  | GAS => fun r => gr_full_date r
  | ELECTRIC => fun r => JS.or_str (er_full_date r) (er_date r)
  end.

(** [record.date]. *)
Definition rec_date (s : serviceType) : record s -> string :=
  match s with
  | GAS => fun x => g_date x
  | ELECTRIC => fun x => e_date x
  end.

(* ================================================================== *)
(** ** HistoryReconciler: [loadHistoricalData] and [storeUsageData] *)
(* ================================================================== *)

Section Reconcile.
Variable Date_parse : string -> option Z.
Variable s : serviceType.

(** [new Date(record.date).getTime()], [None] for NaN. *)
Definition time_of (x : record s) : option Z := Date_parse (rec_date s x).

(** Line 139: the comparator [(a, b) => time a - time b] is negative. *)
Definition date_lt (a b : record s) : bool :=
  match time_of a, time_of b with
  | Some ta, Some tb => ta <? tb
  | _, _ => false
  end.

(** Line 144: [new Date(record.date) >= two_years_ago]; a comparison with
    NaN is false. *)
Definition within_retention (cutoff : Z) (x : record s) : bool :=
  match time_of x with
  | Some t => cutoff <=? t
  | None => false
  end.

(** Lines 77-86: a read or parse failure is caught and gives []. *)
Definition loadHistoricalData (file : option (list (record s))) : list (record s) :=
  match file with
  | Some data => data
  | None => []
  end.

(** Lines 97-135: the body of the loop over the batch. *)
Definition upsert (now : string) (historical_data : list (record s))
           (r : reading s) : list (record s) :=
  let new := new_record s now r in
  let k := dateKey s r in
  match JS.findIndex (fun x => String.eqb (rec_date s x) k) historical_data with
  | Some existing_index => JS.set_index existing_index new historical_data
  | None => historical_data ++ [new]
  end.

(** Lines 89-149.  The result is the content of the history file after the
    call; an empty batch returns before the file is touched. *)
Definition storeUsageData (clk : Clock) (usage_data : list (reading s))
           (file : option (list (record s))) : option (list (record s)) :=
  match usage_data with
  | [] => file
  | _ :: _ =>
      let historical_data := loadHistoricalData file in
      let merged := fold_left (upsert (now_iso clk)) usage_data historical_data in
      let sorted := JS.sort date_lt merged in
      Some (filter (within_retention (two_years_ago clk)) sorted)
  end.
End Reconcile.

(* ================================================================== *)
(** ** A concrete [Date] for running the code on examples

    The legacy (non-ISO) date format [MM/DD/YYYY] that the decoders build,
    read as midnight local time, with the local zone taken to be UTC.
    Anything else is an Invalid Date. *)
(* ================================================================== *)

Module ExampleDate.

Definition digit_of (c : ascii) : option Z :=
  let n := Z.of_nat (nat_of_ascii c) in
  if (48 <=? n) && (n <=? 57) then Some (n - 48) else None.

Fixpoint digits_from (acc : Z) (l : list ascii) : option Z :=
  match l with
  | [] => Some acc
  | c :: t => match digit_of c with
              | Some d => digits_from (10 * acc + d) t
              | None => None
              end
  end.

Definition number_of (l : list ascii) : option Z :=
  match l with
  | [] => None
  | _ :: _ => digits_from 0 l
  end.

(** Days since 1970-01-01 of a proleptic Gregorian date. *)
Definition days_from_civil (y m d : Z) : Z :=
  let y' := if m <=? 2 then y - 1 else y in
  let era := y' / 400 in
  let yoe := y' - era * 400 in
  let mp := if 2 <? m then m - 3 else m + 9 in
  let doy := (153 * mp + 2) / 5 + d - 1 in
  let doe := yoe * 365 + yoe / 4 - yoe / 100 + doy in
  era * 146097 + doe - 719468.

(** The inverse: (year, month 1..12, day). *)
Definition civil_from_days (z0 : Z) : Z * Z * Z :=
  let z := z0 + 719468 in
  let era := z / 146097 in
  let doe := z - era * 146097 in
  let yoe := (doe - doe / 1460 + doe / 36524 - doe / 146096) / 365 in
  let y := yoe + era * 400 in
  let doy := doe - (365 * yoe + yoe / 4 - yoe / 100) in
  let mp := (5 * doy + 2) / 153 in
  let d := doy - (153 * mp + 2) / 5 + 1 in
  let m := if mp <? 10 then mp + 3 else mp - 9 in
  ((if m <=? 2 then y + 1 else y), m, d).

Definition ms_per_day : Z := 86400000.

Definition Date_parse (str : string) : option Z :=
  match map number_of (JS.split_slash [] (list_ascii_of_string str)) with
  | [Some m; Some d; Some y] =>
      if (1 <=? m) && (m <=? 12) && (1 <=? d) && (d <=? 31)
      then Some (days_from_civil y m d * ms_per_day)
      else None
  | _ => None
  end.

Definition getFullYear (t : Z) : Z :=
  let '(y, _, _) := civil_from_days (t / ms_per_day) in y.

(** Zero-based, as in JS. *)
Definition getMonth (t : Z) : Z :=
  let '(_, m, _) := civil_from_days (t / ms_per_day) in m - 1.

End ExampleDate.

(* ================================================================== *)
(** ** Views of the reconciler used to state and prove its properties *)
(* ================================================================== *)

Section ReconcileViews.
Variable s : serviceType.

(** The record a date key designates: the one [findIndex] finds. *)
Definition lookup (k : string) (h : list (record s)) : option (record s) :=
  find (fun x => String.eqb (rec_date s x) k) h.

(** The last reading of a batch with a given date key. *)
Definition latest (k : string) (batch : list (reading s)) : option (reading s) :=
  find (fun r => String.eqb (dateKey s r) k) (rev batch).

(** The loop body as a recursion over the array: overwrite the first
    record dated [k], or push. *)
Fixpoint upd (k : string) (v : record s) (h : list (record s)) : list (record s) :=
  match h with
  | [] => [v]
  | x :: t => if String.eqb (rec_date s x) k then v :: t else x :: upd k v t
  end.

(** Overwrite only. *)
Fixpoint over (k : string) (v : record s) (h : list (record s)) : list (record s) :=
  match h with
  | [] => []
  | x :: t => if String.eqb (rec_date s x) k then v :: t else x :: over k v t
  end.

Definition over_reading (now : string) (h : list (record s)) (r : reading s) :=
  over (dateKey s r) (new_record s now r) h.
End ReconcileViews.

(** Everything of a record but its bookkeeping timestamps ([timestamp],
    [created_at]). *)
Definition same_observable (s : serviceType) : record s -> record s -> Prop :=
  match s with
  | GAS => fun a b =>
      g_date a = g_date b /\ g_date_label a = g_date_label b /\
      g_usage_ccf a = g_usage_ccf b /\ g_usage_therms a = g_usage_therms b /\
      g_average_ccf a = g_average_ccf b /\ g_unit a = g_unit b
  | ELECTRIC => fun a b =>
      e_date a = e_date b /\ e_date_label a = e_date_label b /\
      e_usage_kwh a = e_usage_kwh b /\ e_start_time a = e_start_time b /\
      e_end_time a = e_end_time b /\ e_unit a = e_unit b
  end.

(** Two history files hold the same observable series. *)
Definition same_series (s : serviceType) (a b : option (list (record s))) : Prop :=
  match a, b with
  | Some x, Some y => Forall2 (same_observable s) x y
  | None, None => True
  | _, _ => False
  end.

Section DateOrder.
Variable Date_parse : string -> option Z.
Variable s : serviceType.

(** [a] is dated no later than [b]; both dates are valid. *)
Definition date_le (a b : record s) : Prop :=
  match time_of Date_parse s a, time_of Date_parse s b with
  | Some ta, Some tb => ta <= tb
  | _, _ => False
  end.

(** Every date string of the stored file and of the batch is a valid date. *)
Definition dates_valid (batch : list (reading s))
           (file : option (list (record s))) : Prop :=
  Forall (fun r => Date_parse (dateKey s r) <> None) batch /\
  Forall (fun x => Date_parse (rec_date s x) <> None)
         (loadHistoricalData s file).

(** Line 144 on the date string alone. *)
Definition date_within (cutoff : Z) (k : string) : bool :=
match Date_parse k with
| Some t => cutoff <=? t
| None => false
end.

(** The time value with NaN read as 0, for lists of valid dates. *)
Definition time_or_0 (x : record s) : Z :=
  match time_of Date_parse s x with Some t => t | None => 0 end.
End DateOrder.

(* ================================================================== *)
(** ** Rounding to a number of decimals, as the specification words it *)
(* ================================================================== *)

(** [n] is the integer nearest to the exact product [m * 2^e * 10^d], the
    larger one when two integers are equally near: the distance
    [n - m * 2^e * 10^d] lies in (-1/2, 1/2]. *)
Definition nearest_scaled (d : Z) (m : positive) (e n : Z) : Prop :=
  if 0 <=? e then n = Z.pos m * 2 ^ e * 10 ^ d
  else - 2 ^ (- e) < 2 * (n * 2 ^ (- e) - Z.pos m * 10 ^ d) <= 2 ^ (- e).

(** [t = round(x, d)]: for a finite [x] of magnitude [m * 2^e], [t] is the
    number nearest to [n / 10^d] with the sign of [x], where [n] is the
    integer nearest to [|x| * 10^d] (halves away from zero).  While [n] is
    below 2^53 that number is the quotient of the two integers; from there
    on the numbers are more than [10^-d] apart (for [d <= 3]) and [x]
    rounds to itself.  A zero rounds to 0, NaN and the infinities to
    themselves. *)
Definition rounded (d : Z) (x t : float) : Prop :=
  match Prim2SF x with
  | S754_finite negative m e =>
      exists n, nearest_scaled d m e n /\
        t = if n <? 2 ^ 53
            then if negative then (- (JS.of_Z n / JS.of_Z (10 ^ d)))%float
                 else (JS.of_Z n / JS.of_Z (10 ^ d))%float
            else x
  | S754_zero _ => t = 0%float
  | S754_infinity _ => t = x
  | S754_nan => t = x
  end.

(* ================================================================== *)
(** ** Example data *)
(* ================================================================== *)

Module Examples.

(** A run on 2024-06-01: [two_years_ago] is 2022-06-01. *)
Definition clk : Clock :=
  {| now_iso := "2024-06-01T12:00:00.000Z";
     two_years_ago := ExampleDate.days_from_civil 2022 6 1 * ExampleDate.ms_per_day |}.

(** A later run the same day. *)
Definition clk' : Clock :=
  {| now_iso := "2024-06-01T18:30:00.000Z";
     two_years_ago := two_years_ago clk |}.

Definition gas (label full_date : string) (ccf : float) (avg : option float) : GasReading :=
  {| gr_date := label; gr_full_date := full_date; gr_usage_ccf := ccf;
     gr_average_ccf := avg; gr_unit := "CCF";
     gr_timestamp := "2024-06-01T12:00:00.000Z" |}.

(** A record written by an earlier run. *)
Definition old (label full_date : string) (ccf : float) (avg : option float) : GasRecord :=
  new_record GAS "2024-05-31T12:00:00.000Z" (gas label full_date ccf avg).

Definition new (r : GasReading) : GasRecord := new_record GAS (now_iso clk) r.

Definition history : list GasRecord :=
  [old "5/1" "05/01/2024" 1 (Some 2%float); old "5/3" "05/03/2024" 3 None].

Definition batch_good : list GasReading :=
  [gas "5/2" "05/02/2024" 2 None; gas "5/3" "05/03/2024" 4 (Some 5%float)].

(** A batch whose middle tick label is no M/D date, here one in day/month
    order ([processGasData] only asks for a slash with something on both
    sides): month 13 makes its full date an Invalid Date.  The two dated
    readings around it arrive newest first. *)
Definition batch_invalid_between : list GasReading :=
  [gas "5/2" "05/02/2024" 2 None; gas "13/5" "13/05/2024" 9 None;
   gas "5/1" "05/01/2024" 1 None].

(** A stored record dated 2022-06-03, two days inside the retention window
    of [clk]. *)
Definition aged_history : list GasRecord :=
  [old "6/3" "06/03/2022" 7 None].

(** The run of four days later: [two_years_ago] is 2022-06-05. *)
Definition clk_later : Clock :=
  {| now_iso := "2024-06-05T12:00:00.000Z";
     two_years_ago := ExampleDate.days_from_civil 2022 6 5 * ExampleDate.ms_per_day |}.

(** A batch whose usages need rounding to three decimals in therms. *)
Definition batch_fractions : list GasReading :=
  [gas "5/2" "05/02/2024" 0.1 None; gas "5/3" "05/03/2024" 3 (Some 2.5%float)].

(** A stored electric record and a reading of the JSON decoder for the same
    day. *)
Definition electric_old : ElectricRecord :=
  {| e_date := "05/03/2024"; e_date_label := "5/3"; e_usage_kwh := 30;
     e_start_time := Some "00:00"; e_end_time := Some "23:59"; e_unit := "kWh";
     e_timestamp := "2024-05-31T12:00:00.000Z";
     e_created_at := "2024-05-31T12:00:00.000Z" |}.

Definition electric_reading : ElectricReading :=
  {| er_date := "5/3"; er_full_date := Some "05/03/2024"; er_date_label := None;
     er_energy := None; er_usage_kwh := 31.5;
     er_startTime := None; er_endTime := None; er_timestamp := None |}.

End Examples.

(* ================================================================== *)
(** ** ViewExporter: [createMonthlySummary] *)
(* ================================================================== *)

(** One monthly aggregate of the gas series. *)
Record GasMonth := mkGasMonth {
  gm_month : string;
  gm_total_ccf : float;
  gm_total_therms : float;
  gm_days : Z;
  gm_average_daily_ccf : float;
  gm_average_daily_therms : float
}.

(** One monthly aggregate of the electric series. *)
Record ElectricMonth := mkElectricMonth {
  em_month : string;
  em_total_kwh : float;
  em_days : Z;
  em_average_daily_kwh : float
}.

Definition month_entry (s : serviceType) : Type :=
  match s with GAS => GasMonth | ELECTRIC => ElectricMonth end.

Definition entry_month (s : serviceType) : month_entry s -> string :=
  match s with
  | GAS => fun e => gm_month e
  | ELECTRIC => fun e => em_month e
  end.

(** An integer-valued number rendered by a template literal or
    [toString()]. *)
Definition string_of_integer (n : Z) : string :=
  NilZero.string_of_int (Z.to_int n).

(** [str.padStart(2, '0')]. *)
Definition padStart2 (str : string) : string :=
  match String.length str with
  | O => "00"
  | S O => String "0"%char str
  | _ => str
  end.

(** Lines 212-228: the aggregate a month starts from. *)
Definition empty_month (s : serviceType) (month_key : string) : month_entry s :=
  match s with
  | GAS => {| gm_month := month_key; gm_total_ccf := 0; gm_total_therms := 0;
              gm_days := 0; gm_average_daily_ccf := 0;
              gm_average_daily_therms := 0 |}
  | ELECTRIC => {| em_month := month_key; em_total_kwh := 0; em_days := 0;
                   em_average_daily_kwh := 0 |}
  end.

(** Lines 231-237: one record added to its month. *)
Definition add_usage (s : serviceType) : month_entry s -> record s -> month_entry s :=
  match s with
  | GAS => fun e x =>
      {| gm_month := gm_month e;
         gm_total_ccf := gm_total_ccf e + g_usage_ccf x;
         gm_total_therms := gm_total_therms e + g_usage_therms x;
         gm_days := gm_days e + 1;
         gm_average_daily_ccf := gm_average_daily_ccf e;
         gm_average_daily_therms := gm_average_daily_therms e |}
  | ELECTRIC => fun e x =>
      {| em_month := em_month e;
         em_total_kwh := em_total_kwh e + e_usage_kwh x;
         em_days := em_days e + 1;
         em_average_daily_kwh := em_average_daily_kwh e |}
  end.

(** Lines 241-252: the averages, from the totals before they are rounded,
    and the rounding. *)
Definition finish_month (s : serviceType) : month_entry s -> month_entry s :=
  match s with
  | GAS => fun m =>
      {| gm_month := gm_month m;
         gm_total_ccf := JS.toFixed_parse 3 (gm_total_ccf m);
         gm_total_therms := JS.toFixed_parse 3 (gm_total_therms m);
         gm_days := gm_days m;
         gm_average_daily_ccf :=
           JS.toFixed_parse 3 (gm_total_ccf m / JS.of_Z (gm_days m));
         gm_average_daily_therms :=
           JS.toFixed_parse 3 (gm_total_therms m / JS.of_Z (gm_days m)) |}
  | ELECTRIC => fun m =>
      {| em_month := em_month m;
         em_total_kwh := JS.toFixed_parse 3 (em_total_kwh m);
         em_days := em_days m;
         em_average_daily_kwh :=
           JS.toFixed_parse 3 (em_total_kwh m / JS.of_Z (em_days m)) |}
  end.

(** [a.month.localeCompare(b.month) < 0]: on month keys (digits, a hyphen,
    or NaN-NaN) the collation order is the order of the code units. *)
Definition month_lt (s : serviceType) (a b : month_entry s) : bool :=
  String.ltb (entry_month s a) (entry_month s b).

Section Monthly.
Variable Date_parse : string -> option Z.
(** The calendar fields of a time value in the local time zone. *)
Variable getFullYear : Z -> Z.
Variable getMonth : Z -> Z.
Variable s : serviceType.

(** Lines 208-209.  The fields of an Invalid Date are NaN. *)
Definition month_key (date : string) : string :=
  match Date_parse date with
  | Some t => string_of_integer (getFullYear t) ++ "-"
              ++ padStart2 (string_of_integer (getMonth t + 1))
  | None => "NaN-NaN"
  end%string.

(** The object [monthly_data], its properties in insertion order: the
    entry under [k] gets the record, a new entry is created first when
    there is none. *)
Fixpoint accumulate (k : string) (x : record s)
         (monthly_data : list (string * month_entry s))
  : list (string * month_entry s) :=
  match monthly_data with
  | [] => [(k, add_usage s (empty_month s k) x)]
  | (k', e) :: rest =>
      if String.eqb k' k then (k', add_usage s e x) :: rest
      else (k', e) :: accumulate k x rest
  end.

(** Lines 204-255. *)
Definition createMonthlySummary (historical_data : list (record s))
  : list (month_entry s) :=
  let monthly_data :=
    fold_left (fun md x => accumulate (month_key (rec_date s x)) x md)
              historical_data [] in
  JS.sort (month_lt s) (map (fun kv => finish_month s (snd kv)) monthly_data).
End Monthly.

(** The records of one month, in the order of the series. *)
Definition month_group Date_parse getFullYear getMonth (s : serviceType)
           (k : string) (h : list (record s)) : list (record s) :=
  filter (fun x => String.eqb (month_key Date_parse getFullYear getMonth (rec_date s x)) k) h.

(** A running total as the loop forms it, left to right from 0. *)
Definition running_total {A : Type} (f : A -> float) (l : list A) : float :=
  fold_left (fun acc x => acc + f x)%float l 0%float.

Module MonthlyExample.


Definition summary (h : list GasRecord) : list GasMonth :=
  createMonthlySummary ExampleDate.Date_parse ExampleDate.getFullYear
                       ExampleDate.getMonth GAS h.

End MonthlyExample.

(* ================================================================== *)
(** ** ResponseDecoder: [processGasData], [processElectricJsonData] *)
(* ================================================================== *)

(** The parsed JSON object of a response, as the decoders read it.  A
    missing or falsy property is [None]; the entries of [Series1] are given
    as [parseFloat] reads them, an entry of [Series2] is [None] when it is
    missing or falsy. *)
Record Payload := mkPayload {
  Series1 : option (list float);
  Series2 : option (list (option float));
  TickSeries : option (list string);
  UnitOfMeasure : option string
}.

(** The clock of one run: the readings [storeUsageData] takes, the instant
    [thirty_days_ago] of the exporter and the current calendar year. *)
Record RunClock := mkRunClock {
  clock : Clock;
  thirty_days_ago : Z;
  current_year : Z
}.

(** Lines 636-650: an M/D label made into MM/DD/YYYY; [None] when the
    record is skipped. *)
Definition full_date_of_label (year : Z) (date_label : string) : option string :=
  match JS.split date_label with
  | month :: day :: _ =>
      if JS.truthy_str (Some month) && JS.truthy_str (Some day)
      then Some (padStart2 month ++ "/" ++ padStart2 day ++ "/"
                 ++ string_of_integer year)%string
      else None
  | _ => None
  end.

Section Decoder.
Variable Date_parse : string -> option Z.
Variable rc : RunClock.

(** The comparator of lines 568, 612 and 663 is negative. *)
Definition full_date_lt (a b : string) : bool :=
  match Date_parse a, Date_parse b with
  | Some ta, Some tb => ta <? tb
  | _, _ => false
  end.

(** Lines 629-660, from index [i] on. *)
Fixpoint gas_rows (i : nat) (usage_values : list float)
         (average_values : option (list (option float)))
         (date_labels : list string) (unit : string) : list GasReading :=
  match usage_values with
  | [] => []
  | usage :: rest =>
      let average :=
        match average_values with
        | Some av => match nth_error av i with
                     | Some (Some a) => Some a
                     | _ => None
                     end
        | None => None
        end in
      let later := gas_rows (S i) rest average_values date_labels unit in
      match nth_error date_labels i with
      | Some date_label =>
          match full_date_of_label (current_year rc) date_label with
          | Some full_date =>
              {| gr_date := date_label; gr_full_date := full_date;
                 gr_usage_ccf := usage; gr_average_ccf := average;
                 gr_unit := unit; gr_timestamp := now_iso (clock rc) |} :: later
          | None => later
          end
      | None => later
      end
  end.

(** Lines 615-678. *)
Definition processGasData (raw_data : Payload) : list GasReading :=
  match Series1 raw_data, TickSeries raw_data with
  | Some usage_values, Some date_labels =>
      JS.sort (fun a b => full_date_lt (gr_full_date a) (gr_full_date b))
              (gas_rows 0 usage_values (Series2 raw_data) date_labels
                        (JS.or_str (UnitOfMeasure raw_data) "CCF"))
  | _, _ => []
  end.

(** Lines 536-565, from index [i] on. *)
Fixpoint electric_rows (i : nat) (usage_values : list float)
         (date_labels : list string) : list ElectricReading :=
  match usage_values with
  | [] => []
  | usage :: rest =>
      let later := electric_rows (S i) rest date_labels in
      match nth_error date_labels i with
      | Some date_label =>
          match full_date_of_label (current_year rc) date_label with
          | Some full_date =>
              {| er_date := date_label; er_full_date := Some full_date;
                 er_date_label := None; er_energy := None;
                 er_usage_kwh := usage; er_startTime := None;
                 er_endTime := None;
                 er_timestamp := Some (now_iso (clock rc)) |} :: later
          | None => later
          end
      | None => later
      end
  end.

(** Lines 523-583. *)
Definition processElectricJsonData (raw_data : Payload) : list ElectricReading :=
  match Series1 raw_data, TickSeries raw_data with
  | Some usage_values, Some date_labels =>
      JS.sort (fun a b => full_date_lt (dateKey ELECTRIC a) (dateKey ELECTRIC b))
              (electric_rows 0 usage_values date_labels)
  | _, _ => []
  end.
End Decoder.

(* ================================================================== *)
(** ** Files and derived views *)
(* ================================================================== *)

(** A history file on disk. *)
Inductive HistoryFile (s : serviceType) :=
| Missing
| Unparseable
| Parsed (data : list (record s)).
Arguments Missing {s}.
Arguments Unparseable {s}.
Arguments Parsed {s} data.

(** What [readFileSync] followed by [JSON.parse] gives, [None] when either
    throws. *)
Definition readable {s : serviceType} (f : HistoryFile s) : option (list (record s)) :=
  match f with
  | Parsed data => Some data
  | Missing | Unparseable => None
  end.

(** A number that [JSON.stringify] writes and [JSON.parse] reads back as
    itself: finite and not [-0].  NaN and the infinities are written as
    [null], which reads back as [null] and counts as 0 in arithmetic, and
    [-0] is written as [0]. *)
Definition json_number (x : float) : bool :=
  match Prim2SF x with
  | S754_finite _ _ _ => true
  | S754_zero negative => negb negative
  | S754_infinity _ => false
  | S754_nan => false
  end.

(** A record that the history file gives back as it was written. *)
Definition json_exact (s : serviceType) : record s -> bool :=
  match s with
  | GAS => fun x =>
      json_number (g_usage_ccf x) && json_number (g_usage_therms x) &&
      match g_average_ccf x with
      | Some a => json_number a
      | None => true
      end
  | ELECTRIC => fun x => json_number (e_usage_kwh x)
  end.

Record GasStat := mkGasStat {
  gs_date : string; gs_ccf : float; gs_therms : float; gs_cost_estimate : float
}.

Record ElectricStat := mkElectricStat {
  es_date : string; es_kwh : float; es_cost_estimate : float
}.

Definition stat (s : serviceType) : Type :=
  match s with GAS => GasStat | ELECTRIC => ElectricStat end.

(** Lines 176-191. *)
Definition energy_stat (s : serviceType) : record s -> stat s :=
  match s with
  | GAS => fun x =>
      {| gs_date := g_date x; gs_ccf := g_usage_ccf x;
         gs_therms := g_usage_therms x;
         gs_cost_estimate := JS.toFixed_parse 2 (g_usage_ccf x * 0.5685) |}
  | ELECTRIC => fun x =>
      {| es_date := e_date x; es_kwh := e_usage_kwh x;
         es_cost_estimate := JS.toFixed_parse 2 (e_usage_kwh x * 0.0929) |}
  end.

(** The four documents written for one utility. *)
Record Views (s : serviceType) := mkViews {
  v_latest : record s;
  v_recent : list (record s);
  v_monthly : list (month_entry s);
  v_energy_stats : list (stat s)
}.
Arguments mkViews {s}.

(** The store, the documents, the browser handle and the log of what the
    process did to the outside. *)
Inductive Event :=
| BrowserLaunched
| LoginCompleted
| LoginFailed
| PipelineStarted (s : serviceType)
| Summary (s : serviceType) (success : bool) (data_points : nat)
| BrowserClosed
| ProcessExit (code : Z).

Record World := mkWorld {
  gas_history_file : HistoryFile GAS;
  electric_history_file : HistoryFile ELECTRIC;
  gas_views : option (Views GAS);
  electric_views : option (Views ELECTRIC);
  browser : bool;                  (* [this.browser] is set *)
  trace : list Event
}.

Definition history_file (s : serviceType) : World -> HistoryFile s :=
  match s with
  | GAS => gas_history_file
  | ELECTRIC => electric_history_file
  end.

Definition views (s : serviceType) : World -> option (Views s) :=
  match s with
  | GAS => gas_views
  | ELECTRIC => electric_views
  end.

Definition set_history_file (s : serviceType) : HistoryFile s -> World -> World :=
  match s with
  | GAS => fun f w =>
      mkWorld f (electric_history_file w) (gas_views w) (electric_views w)
              (browser w) (trace w)
  | ELECTRIC => fun f w =>
      mkWorld (gas_history_file w) f (gas_views w) (electric_views w)
              (browser w) (trace w)
  end.

Definition set_views (s : serviceType) : option (Views s) -> World -> World :=
  match s with
  | GAS => fun v w =>
      mkWorld (gas_history_file w) (electric_history_file w) v (electric_views w)
              (browser w) (trace w)
  | ELECTRIC => fun v w =>
      mkWorld (gas_history_file w) (electric_history_file w) (gas_views w) v
              (browser w) (trace w)
  end.

Definition set_browser (b : bool) (w : World) : World :=
  mkWorld (gas_history_file w) (electric_history_file w) (gas_views w)
          (electric_views w) b (trace w).

Definition log (e : Event) (w : World) : World :=
  mkWorld (gas_history_file w) (electric_history_file w) (gas_views w)
          (electric_views w) (browser w) (trace w ++ [e]).

(* ================================================================== *)
(** ** The process: exceptions and [process.exit] *)
(* ================================================================== *)

Inductive Error :=
| LaunchError | LoginError | FetchError | NoJsonError | JsonParseError | XmlError.

(** How a piece of code ends: it returns, it throws, or it has ended the
    process.  [process.exit] does not return: no [catch] and no [finally]
    block runs after it. *)
Inductive Outcome (A : Type) :=
| Return (a : A)
| Throw (e : Error)
| Exited (code : Z).
Arguments Return {A} a.
Arguments Throw {A} e.
Arguments Exited {A} code.

Definition Proc (A : Type) : Type := World -> World * Outcome A.

Definition ret {A : Type} (a : A) : Proc A := fun w => (w, Return a).

Definition throw {A : Type} (e : Error) : Proc A := fun w => (w, Throw e).

Definition bind {A B : Type} (p : Proc A) (k : A -> Proc B) : Proc B :=
  fun w =>
    match p w with
    | (w', Return a) => k a w'
    | (w', Throw e) => (w', Throw e)
    | (w', Exited c) => (w', Exited c)
    end.

Notation "x <- p ;; k" := (bind p (fun x => k))
  (at level 61, p at next level, right associativity).
Notation "p ;; k" := (bind p (fun _ => k))
  (at level 61, right associativity).

(** [try { p } catch (e) { h e }]. *)
Definition try_catch {A : Type} (p : Proc A) (h : Error -> Proc A) : Proc A :=
  fun w =>
    match p w with
    | (w', Throw e) => h e w'
    | r => r
    end.

(** [try { p } finally { f }]: [f] runs when [p] returns or throws, and what
    [f] does last (a throw, an exit) replaces the outcome of [p]. *)
Definition try_finally {A : Type} (p : Proc A) (f : Proc unit) : Proc A :=
  fun w =>
    match p w with
    | (w', Exited c) => (w', Exited c)
    | (w', r) =>
        match f w' with
        | (w'', Return _) => (w'', r)
        | (w'', Throw e) => (w'', Throw e)
        | (w'', Exited c) => (w'', Exited c)
        end
    end.

Definition emit (e : Event) : Proc unit := fun w => (log e w, Return tt).

Definition modify (f : World -> World) : Proc unit := fun w => (f w, Return tt).

Definition get_world : Proc World := fun w => (w, Return w).

Definition process_exit {A : Type} (code : Z) : Proc A :=
  fun w => (log (ProcessExit code) w, Exited code).

(* ================================================================== *)
(** ** Configuration and the portal *)
(* ================================================================== *)

(** [process.env]. *)
Record Env := mkEnv {
  EMAIL : option string;
  PASSWORD : option string;
  ACCOUNTNUM : option string;
  GAS_METERNUM : option string;
  ELECTRIC_METERNUM : option string
}.

(** What the body of the usage response is to the decoders. *)
Inductive Body :=
| NetworkError                 (* [newPage], [goto] or [content] threw *)
| NoJson                       (* no [{...}] in the body *)
| BadJson                      (* [JSON.parse] threw *)
| Json (raw_data : Payload).

(** The behaviour of the browser and of the portal during one run.  Closing
    the browser and writing files are taken to succeed. *)
Record Portal := mkPortal {
  launch_ok : bool;
  login_ok : bool;
  gas_body : Body;
  electric_body : Body;
  (** the daily totals of the XML fallback, [None] when it throws *)
  electric_xml : option (list ElectricReading)
}.

(** Lines 27-53. *)
Definition valid_config (env : Env) : bool :=
  let hasRequired :=
    forallb JS.truthy_str [EMAIL env; PASSWORD env; ACCOUNTNUM env] in
  if negb hasRequired then false
  else
    let trimmed_truthy v :=
      match v with
      | Some str => JS.truthy_str v && negb (JS.blank str)
      | None => false
      end in
    let hasGas := trimmed_truthy (GAS_METERNUM env) in
    let hasElectric := trimmed_truthy (ELECTRIC_METERNUM env) in
    if negb hasGas && negb hasElectric then false else true.

(** [process.env.GAS_METERNUM] as a condition (lines 57, 66, 696, 712). *)
Definition meter_set (env : Env) (s : serviceType) : bool :=
  match s with
  | GAS => JS.truthy_str (GAS_METERNUM env)
  | ELECTRIC => JS.truthy_str (ELECTRIC_METERNUM env)
  end.

Section Orchestrator.
Variable Date_parse : string -> option Z.
Variable getFullYear : Z -> Z.
Variable getMonth : Z -> Z.
Variable env : Env.
Variable portal : Portal.
Variable rc : RunClock.

(** Lines 56-74. *)
Definition initHistoryFile (s : serviceType) : Proc unit :=
  if meter_set env s then
    modify (fun w => match history_file s w with
                     | Missing => set_history_file s (Parsed []) w
                     | _ => w
                     end)
  else ret tt.

Definition initHistoryFiles : Proc unit :=
  initHistoryFile GAS ;; initHistoryFile ELECTRIC.

(** Lines 19-25. *)
Definition constructor : Proc unit :=
  if negb (valid_config env) then ret tt else initHistoryFiles.

(** [storeUsageData] on the file of the utility.  The file is kept as the
    array that was written; a later read finds the same records as long as
    their numbers are [json_exact], and statements that read record values
    back from a written file say so. *)
Definition store (s : serviceType) (usage_data : list (reading s)) : Proc unit :=
  modify (fun w =>
    match usage_data with
    | [] => w
    | _ :: _ =>
        match storeUsageData Date_parse s (clock rc) usage_data
                             (readable (history_file s w)) with
        | Some data => set_history_file s (Parsed data) w
        | None => w
        end
    end).

(** Lines 152-201: nothing is written when the series is empty.  The
    series is the one re-read from the history file. *)
Definition exportForHomeAssistant (s : serviceType) : Proc unit :=
  modify (fun w =>
    let historical_data := loadHistoricalData s (readable (history_file s w)) in
    match rev historical_data with
    | [] => w
    | latest :: _ =>
        set_views s
          (Some {| v_latest := latest;
                   v_recent := filter (within_retention Date_parse s (thirty_days_ago rc))
                                      historical_data;
                   v_monthly := createMonthlySummary Date_parse getFullYear getMonth s
                                                     historical_data;
                   v_energy_stats := map (energy_stat s) historical_data |}) w
    end).

(** Lines 303-392, from the response on.  The snapshot of the raw response
    is written and never read back; it is left out. *)
Definition read_gas_api : Proc (list GasReading) :=
  emit (PipelineStarted GAS) ;;
  match gas_body portal with
  | NetworkError => throw FetchError
  | NoJson => throw NoJsonError
  | BadJson => throw JsonParseError
  | Json gas_data =>
      let processed_data := processGasData Date_parse rc gas_data in
      store GAS processed_data ;;
      exportForHomeAssistant GAS ;;
      ret processed_data
  end.

(** Lines 394-520, from the response on. *)
Definition read_electric_api : Proc (list ElectricReading) :=
  emit (PipelineStarted ELECTRIC) ;;
  match electric_body portal with
  | NetworkError => throw FetchError
  | Json electric_data =>
      let processed_data := processElectricJsonData Date_parse rc electric_data in
      store ELECTRIC processed_data ;;
      exportForHomeAssistant ELECTRIC ;;
      ret processed_data
  | NoJson | BadJson =>
      match electric_xml portal with
      | None => throw XmlError
      | Some dailyData =>
          store ELECTRIC dailyData ;;
          exportForHomeAssistant ELECTRIC ;;
          ret dailyData
      end
  end.

(** Lines 257-265. *)
Definition init : Proc unit :=
  if launch_ok portal
  then modify (set_browser true) ;; emit BrowserLaunched
  else throw LaunchError.

(** Lines 267-301. *)
Definition login : Proc unit :=
  if login_ok portal then emit LoginCompleted
  else emit LoginFailed ;; throw LoginError.

(** One entry of [results]. *)
Record UtilityResult := mkResult {
  success : bool;
  error : option Error;
  data_points : nat
}.

(** Lines 696-725 for one utility. *)
Definition collect (s : serviceType) (api : Proc (list (reading s)))
  : Proc UtilityResult :=
  if meter_set env s then
    try_catch (data <- api ;; ret (mkResult true None (List.length data)))
              (fun e => ret (mkResult false (Some e) O))
  else ret (mkResult false None O).

(** Lines 729-743. *)
Definition summarize (s : serviceType) (r : UtilityResult) : Proc unit :=
  if meter_set env s then emit (Summary s (success r) (data_points r))
  else ret tt.

(** Lines 680-767. *)
Definition fetch_once : Proc unit :=
  try_finally
    (try_catch
       (init ;;
        login ;;
        gas <- collect GAS read_gas_api ;;
        electric <- collect ELECTRIC read_electric_api ;;
        summarize GAS gas ;;
        summarize ELECTRIC electric ;;
        let anySuccess := success gas || success electric in
        if negb anySuccess then process_exit 1 else ret tt)
       (fun _ => process_exit 1))
    (w <- get_world ;;
     (if browser w then emit BrowserClosed else ret tt) ;;
     process_exit 0).

(** A utility's pipeline completes: its meter variable is set and its
    response decodes. *)
Definition completes (s : serviceType) : bool :=
  meter_set env s &&
  match s with
  | GAS => match gas_body portal with Json _ => true | _ => false end
  | ELECTRIC =>
      match electric_body portal with
      | Json _ => true
      | NetworkError => false
      | NoJson | BadJson =>
          match electric_xml portal with Some _ => true | None => false end
      end
  end.
(** The log of the two pipelines and of the summary. *)
Definition collection_log (gas_points electric_points : nat) : list Event :=
  (if meter_set env GAS then [PipelineStarted GAS] else []) ++
  (if meter_set env ELECTRIC then [PipelineStarted ELECTRIC] else []) ++
  (if meter_set env GAS
   then [Summary GAS (completes GAS) gas_points] else []) ++
  (if meter_set env ELECTRIC
   then [Summary ELECTRIC (completes ELECTRIC) electric_points] else []).

(** The usage query of a utility. *)
Definition read_api (s : serviceType) : Proc (list (reading s)) :=
  match s with
  | GAS => read_gas_api
  | ELECTRIC => read_electric_api
  end.

(** The entry point: build the collector, run it once; a rejection of
    [main] exits with 1. *)
Definition main : Proc unit :=
  try_catch (constructor ;; fetch_once) (fun _ => process_exit 1).
End Orchestrator.

(** The exit code a run ended the process with. *)
Definition exit_code {A : Type} (r : World * Outcome A) : option Z :=
  match snd r with
  | Exited c => Some c
  | _ => None
  end.

(** A fresh machine: no files, no browser, nothing done yet. *)
Definition fresh : World :=
  {| gas_history_file := Missing; electric_history_file := Missing;
     gas_views := None; electric_views := None; browser := false; trace := [] |}.

Module RunExamples.

Definition rc : RunClock :=
  {| clock := Examples.clk;
     thirty_days_ago := ExampleDate.days_from_civil 2024 5 2 * ExampleDate.ms_per_day;
     current_year := 2024 |}.

(** Credentials and account set, no meter. *)
Definition env_no_meter : Env :=
  {| EMAIL := Some "me@example.org"; PASSWORD := Some "secret";
     ACCOUNTNUM := Some "1234567890";
     GAS_METERNUM := None; ELECTRIC_METERNUM := None |}.

(** The account number is missing, the gas meter is set. *)
Definition env_no_account : Env :=
  {| EMAIL := Some "me@example.org"; PASSWORD := Some "secret";
     ACCOUNTNUM := None;
     GAS_METERNUM := Some "G-1"; ELECTRIC_METERNUM := None |}.

(** A complete configuration for gas. *)
Definition env_gas : Env :=
  {| EMAIL := Some "me@example.org"; PASSWORD := Some "secret";
     ACCOUNTNUM := Some "1234567890";
     GAS_METERNUM := Some "G-1"; ELECTRIC_METERNUM := None |}.

(** As [env_gas], the gas meter holding a space, a tab and a no-break
    space (code unit 160). *)
Definition env_blank_meter : Env :=
  {| EMAIL := Some "me@example.org"; PASSWORD := Some "secret";
     ACCOUNTNUM := Some "1234567890";
     GAS_METERNUM :=
       Some (String " " (String (ascii_of_nat 9)
               (String (ascii_of_nat 160) EmptyString)));
     ELECTRIC_METERNUM := None |}.

(** A JSON object without the series, such as an error report. *)
Definition no_series : Payload :=
  {| Series1 := None; Series2 := None; TickSeries := None; UnitOfMeasure := None |}.

(** The portal answers every query with [no_series]. *)
Definition portal_no_series : Portal :=
  {| launch_ok := true; login_ok := true; gas_body := Json no_series;
     electric_body := Json no_series; electric_xml := None |}.

(** The login never completes. *)
Definition portal_login_fails : Portal :=
  {| launch_ok := true; login_ok := false; gas_body := NetworkError;
     electric_body := NetworkError; electric_xml := None |}.

Definition run (env : Env) (portal : Portal) (w : World) : World * Outcome unit :=
  main ExampleDate.Date_parse ExampleDate.getFullYear ExampleDate.getMonth
       env portal rc w.

Definition with_gas_history (h : list GasRecord) : World :=
  set_history_file GAS (@Parsed GAS h) fresh.

End RunExamples.

(* ================================================================== *)
(** ** Views of the decoders used to state their properties *)
(* ================================================================== *)

(** Line 631: the average read at index [i], [None] for [null]. *)
Definition average_at (average_values : option (list (option float))) (i : nat)
  : option float :=
  match average_values with
  | Some av => match nth_error av i with
               | Some (Some a) => Some a
               | _ => None
               end
  | None => None
  end.

(** The first date string is a valid date no later than the second. *)
Definition full_date_le (Date_parse : string -> option Z) (a b : string) : Prop :=
  match Date_parse a, Date_parse b with
  | Some ta, Some tb => ta <= tb
  | _, _ => False
  end.

(** The characters of a string hold no ["/"]. *)
Definition slash_free (str : string) : Prop :=
  forall c, In c (list_ascii_of_string str) -> c <> "/"%char.

(** The electric reading and the gas reading decoded from one row. *)
Definition same_row (e : ElectricReading) (g : GasReading) : Prop :=
  er_date e = gr_date g /\ er_full_date e = Some (gr_full_date g) /\
  er_usage_kwh e = gr_usage_ccf g /\ dateKey ELECTRIC e = gr_full_date g /\
  er_energy e = None /\ er_date_label e = None /\
  er_timestamp e = Some (gr_timestamp g).

(** The day count of a monthly aggregate. *)
Definition entry_days (s : serviceType) : month_entry s -> Z :=
  match s with
  | GAS => fun e => gm_days e
  | ELECTRIC => fun e => em_days e
  end.

Definition sum_days (s : serviceType) (l : list (month_entry s)) : Z :=
  fold_right (fun e acc => entry_days s e + acc) 0 l.

Module DecoderExample.

Definition payload : Payload :=
  {| Series1 := Some [2; 4; 6]%float;
     Series2 := Some [Some 1%float; None];
     TickSeries := Some ["5/2"; "115"; "5/1"]%string;
     UnitOfMeasure := None |}.

Definition decoded : list GasReading :=
  processGasData ExampleDate.Date_parse RunExamples.rc payload.

End DecoderExample.

Module ElectricExample.

Definition reading (full_date : string) (kwh : float) : ElectricReading :=
  {| er_date := full_date; er_full_date := Some full_date;
     er_date_label := None; er_energy := None; er_usage_kwh := kwh;
     er_startTime := None; er_endTime := None;
     er_timestamp := Some "2024-06-01T12:00:00.000Z" |}.

Definition stored (full_date : string) (kwh : float) : ElectricRecord :=
  new_record ELECTRIC "2024-05-31T12:00:00.000Z" (reading full_date kwh).

(** 10.5 kWh on 2024-05-30, 20.25 kWh on 2024-05-31, 5 kWh on 2024-06-01. *)
Definition series : list ElectricRecord :=
  [stored "05/30/2024" 10.5; stored "05/31/2024" 20.25; stored "06/01/2024" 5].

Definition summary (h : list ElectricRecord) : list ElectricMonth :=
  createMonthlySummary ExampleDate.Date_parse ExampleDate.getFullYear
                       ExampleDate.getMonth ELECTRIC h.

End ElectricExample.

(** The meter variable of a utility. *)
Definition meter_value (env : Env) (s : serviceType) : option string :=
  match s with
  | GAS => GAS_METERNUM env
  | ELECTRIC => ELECTRIC_METERNUM env
  end.

(* ================================================================== *)
(** ** The interval-XML fallback: [groupElectricReadingsByDay] *)
(* ================================================================== *)

(** One [espi:intervalreading] of the parsed XML: its quality flag, its
    start in epoch seconds and its value as [parseFloat] reads it. *)
Record IntervalReading := mkIntervalReading {
  ir_quality : string;
  ir_start : Z;
  ir_value : float
}.

(** One reading handed to [groupElectricReadingsByDay]. *)
Record Interval := mkInterval {
  iv_time : Z;
  iv_value : float
}.

(** Lines 491-499: readings that are not of ACTUAL quality become
    [undefined] and are filtered out. *)
Definition actual_reading (reading : IntervalReading) : option Interval :=
  if negb (String.eqb (ir_quality reading) "ACTUAL") then None
  else Some {| iv_time := ir_start reading; iv_value := ir_value reading |}.

Definition actual_readings (l : list IntervalReading) : list Interval :=
  flat_map (fun x => match x with Some r => [r] | None => [] end)
           (map actual_reading l).

(** Line 491 on [data["espi:intervalreading"]] as the XML parser leaves it,
    [l] being the [espi:intervalreading] elements of the block in document
    order.  The parser builds an array only for a tag that occurs at least
    twice; a single element is parsed to an object and a block without one
    leaves [undefined], neither of which has [map]: the call throws
    ([None]) and nothing is stored.  The elements above the readings
    ([ns3:content], [espi:intervalblock], [espi:interval]) are taken to be
    there; without them lines 488-490 throw as well. *)
Definition xml_readings (l : list IntervalReading) : option (list Interval) :=
  match l with
  | _ :: _ :: _ => Some (actual_readings l)
  | _ => None
  end.

Section GroupByDay.
Variable Date_parse : string -> option Z.
(** [new Date(ms).toLocaleDateString('en-US', {month: '2-digit', day:
    '2-digit', year: 'numeric'})]: the local calendar day as MM/DD/YYYY. *)
Variable toLocaleDateString : Z -> string.
Variable now : string.

(** Line 590-591. *)
Definition day_of (reading : Interval) : string :=
  toLocaleDateString (iv_time reading * 1000).

(** Lines 593-599 on the object [dailyTotals], its keys in insertion
    order. *)
Fixpoint add_to_day (dateKey : string) (kwh : float)
         (dailyTotals : list (string * float)) : list (string * float) :=
  match dailyTotals with
  | [] => [(dateKey, 0 + kwh)%float]
  | (k, total) :: rest =>
      if String.eqb k dateKey then (k, total + kwh)%float :: rest
      else (k, total) :: add_to_day dateKey kwh rest
  end.

(** Lines 603-611: one row of the result. *)
Definition day_row (kv : string * float) : ElectricReading :=
  {| er_date := fst kv; er_full_date := Some (fst kv);
     er_date_label := None; er_energy := None;
     er_usage_kwh := JS.toFixed_parse 3 (snd kv);
     er_startTime := None; er_endTime := None;
     er_timestamp := Some now |}.

(** Lines 586-613. *)
Definition groupElectricReadingsByDay (readings : list Interval)
  : list ElectricReading :=
  let dailyTotals :=
    fold_left (fun acc reading =>
                 add_to_day (day_of reading) (iv_value reading / 1000)%float acc)
              readings [] in
  JS.sort (fun a b => full_date_lt Date_parse (dateKey ELECTRIC a) (dateKey ELECTRIC b))
          (map day_row dailyTotals).

(** The readings of one day, in the order of the response. *)
Definition day_group (k : string) (readings : list Interval) : list Interval :=
  filter (fun r => String.eqb (day_of r) k) readings.

(** The kWh of a list of readings added up as the loop does. *)
Definition kwh_total (readings : list Interval) : float :=
  fold_left (fun acc r => acc + iv_value r / 1000)%float readings 0%float.
End GroupByDay.

Module XmlExample.

(** Days since the epoch rendered as MM/DD/YYYY, the local zone being UTC. *)
Definition two (n : Z) : string := padStart2 (string_of_integer n).

Definition toLocaleDateString (ms : Z) : string :=
  let '(y, m, d) := ExampleDate.civil_from_days (ms / ExampleDate.ms_per_day) in
  (two m ++ "/" ++ two d ++ "/" ++ string_of_integer y)%string.

(** 2024-05-30 00:00, 2024-05-30 12:00 (estimated), 2024-05-30 18:00 and
    2024-05-31 00:00 UTC. *)
Definition response : list IntervalReading :=
  [ {| ir_quality := "ACTUAL"; ir_start := 1717027200; ir_value := 1500 |};
    {| ir_quality := "ESTIMATED"; ir_start := 1717070400; ir_value := 9000 |};
    {| ir_quality := "ACTUAL"; ir_start := 1717092000; ir_value := 250 |};
    {| ir_quality := "ACTUAL"; ir_start := 1717113600; ir_value := 4000 |} ].

Definition daily : list ElectricReading :=
  groupElectricReadingsByDay ExampleDate.Date_parse toLocaleDateString
                             "2024-06-01T12:00:00.000Z" (actual_readings response).

(** The same instants with values whose daily sums have more than three
    decimals in kWh: 1500.4 Wh and 250.3 Wh of ACTUAL quality on 2024-05-30,
    4000.06 Wh on 2024-05-31. *)
Definition metered : list IntervalReading :=
  [ {| ir_quality := "ACTUAL"; ir_start := 1717027200; ir_value := 1500.4 |};
    {| ir_quality := "ESTIMATED"; ir_start := 1717070400; ir_value := 9000 |};
    {| ir_quality := "ACTUAL"; ir_start := 1717092000; ir_value := 250.3 |};
    {| ir_quality := "ACTUAL"; ir_start := 1717113600; ir_value := 4000.06 |} ].

(** What the decoder hands to [storeUsageData], [None] when line 491
    throws. *)
Definition decode (l : list IntervalReading) : option (list (string * float)) :=
  option_map
    (fun readings =>
       map (fun e => (er_date e, er_usage_kwh e))
           (groupElectricReadingsByDay ExampleDate.Date_parse toLocaleDateString
                                       "2024-06-01T12:00:00.000Z" readings))
    (xml_readings l).

End XmlExample.

(* ================================================================== *)
(** ** The file server ([server/src/server.ts]) *)
(* ================================================================== *)

Module Server.

Section Serving.
(** A parsed JSON document. *)
Variable Doc : Type.

(** A file of the data directory: what [JSON.parse] makes of its content
    ([None] when reading or parsing throws) and its modification time as
    [toUTCString] renders it. *)
Record DataFile := mkDataFile {
  parsed : option Doc;
  mtime : string
}.

(** The data directory, by file name relative to it. *)
Definition Disk : Type := string -> option DataFile.

Inductive Body :=
| Document (data : Doc)
| NotFound (error : string) (available_files : list string)
| ReadFailure (error : string)
| BadRequest (error : string) (valid : list string).

Record Response := mkResponse {
  status : Z;
  headers : list (string * string);
  body : Body
}.

(** Lines 26-32: the headers of every reply. *)
Definition cors : list (string * string) :=
  [("Access-Control-Allow-Origin", "*");
   ("Access-Control-Allow-Methods", "GET, OPTIONS");
   ("Access-Control-Allow-Headers", "Content-Type")].

(** Lines 187-193. *)
Definition fileExists (disk : Disk) (filename : string) : bool :=
  match disk filename with Some _ => true | None => false end.

(** Lines 242-256. *)
Definition possibleFiles : list string :=
  ["gas/duke-gas-latest.json"; "gas/duke-gas-history.json";
   "gas/duke-gas-recent.json"; "gas/duke-gas-monthly.json";
   "gas/duke-gas-raw.json";
   "electric/duke-electric-latest.json"; "electric/duke-electric-history.json";
   "electric/duke-electric-recent.json"; "electric/duke-electric-monthly.json";
   "electric/duke-electric-raw.json"].

Definition listAvailableFiles (disk : Disk) : list string :=
  filter (fileExists disk) possibleFiles.

(** Lines 213-240.  The [details] of a failure and the resolved directory
    are left out of the bodies. *)
Definition serveJsonFile (disk : Disk) (filename : string) : Response :=
  match disk filename with
  | None =>
      {| status := 404; headers := cors;
         body := NotFound ("File " ++ filename ++ " not found")
                          (listAvailableFiles disk) |}
  | Some file =>
      match parsed file with
      | Some data =>
          {| status := 200;
             headers := cors ++ [("Last-Modified", mtime file);
                                 ("Content-Type", "application/json");
                                 ("Cache-Control", "public, max-age=900")];
             body := Document data |}
      | None =>
          {| status := 500; headers := cors;
             body := ReadFailure ("Failed to read " ++ filename) |}
      end
  end%string.

(** Lines 100-140: the routes that serve one file each. *)
Definition file_routes : list (string * string) :=
  [("/gas-latest", "gas/duke-gas-latest.json");
   ("/gas-history", "gas/duke-gas-history.json");
   ("/gas-recent", "gas/duke-gas-recent.json");
   ("/gas-monthly", "gas/duke-gas-monthly.json");
   ("/gas-raw", "gas/duke-gas-raw.json");
   ("/electric-latest", "electric/duke-electric-latest.json");
   ("/electric-history", "electric/duke-electric-history.json");
   ("/electric-recent", "electric/duke-electric-recent.json");
   ("/electric-monthly", "electric/duke-electric-monthly.json");
   ("/electric-raw", "electric/duke-electric-raw.json")].

(** The handler of a file route, [None] when the path is none of them. *)
Definition file_route (disk : Disk) (path : string) : option Response :=
  match find (fun r => String.eqb (fst r) path) file_routes with
  | Some (_, filename) => Some (serveJsonFile disk filename)
  | None => None
  end.

Definition validTypes : list string := ["gas"; "electric"].
Definition validFormats : list string :=
  ["latest"; "history"; "recent"; "monthly"; "raw"].

(** [array.includes(x)] on strings. *)
Definition includes (l : list string) (x : string) : bool :=
  existsb (String.eqb x) l.

(** Lines 143-165: the handler of [/data/:type/:format?].  The quotation
    marks inside the first message are left out. *)
Definition data_route (disk : Disk) (type : string) (format : option string)
  : Response :=
  if negb (includes validTypes type) then
    {| status := 400; headers := cors;
       body := BadRequest "Invalid type. Must be gas or electric" validTypes |}
  else
    let fileFormat := JS.or_str format "latest" in
    if negb (includes validFormats fileFormat) then
      {| status := 400; headers := cors;
         body := BadRequest "Invalid format" validFormats |}
    else
      serveJsonFile disk (type ++ "/duke-" ++ type ++ "-" ++ fileFormat ++ ".json")%string.
End Serving.

(** A data directory in which only the gas history exists, and a broken
    electric history. *)
Definition example_disk : Disk nat :=
  fun filename =>
    if String.eqb filename "gas/duke-gas-history.json"
    then Some {| parsed := Some 7%nat; mtime := "Sat, 01 Jun 2024 12:00:00 GMT" |}
    else if String.eqb filename "electric/duke-electric-history.json"
    then Some {| parsed := None; mtime := "Sat, 01 Jun 2024 12:00:00 GMT" |}
    else None.

End Server.

Module PartialFailure.

(** Gas and electric meters set. *)
Definition env_both : Env :=
  {| EMAIL := Some "me@example.org"; PASSWORD := Some "secret";
     ACCOUNTNUM := Some "1234567890";
     GAS_METERNUM := Some "G-1"; ELECTRIC_METERNUM := Some "E-1" |}.

(** The gas query fails on the network; the electric response is XML with
    one day of readings. *)
Definition portal_gas_down : Portal :=
  {| launch_ok := true; login_ok := true; gas_body := NetworkError;
     electric_body := NoJson; electric_xml := Some XmlExample.daily |}.

End PartialFailure.

(* ================================================================== *)
(** * Properties *)
(* ================================================================== *)

(** ** Rounding: [toFixed] against the specification's [round] *)

Lemma toFixed_digits_nearest d m e :
  nearest_scaled d m e (JS.toFixed_digits d m e).
Proof.
  unfold nearest_scaled, JS.toFixed_digits. cbv zeta.
  destruct (0 <=? e) eqn:He; [ring|].
  apply Z.leb_gt in He.
  replace (- e + 1) with (Z.succ (- e)) by lia.
  rewrite Z.pow_succ_r by lia.
  assert (HP : 0 < 2 ^ (- e)) by (apply Z.pow_pos_nonneg; lia).
  generalize dependent (2 ^ (- e)). intros P HP.
  generalize (Z.pos m * 10 ^ d). intros M.
  pose proof (Z.div_mod (2 * M + P) (2 * P) ltac:(lia)) as Hdm.
  pose proof (Z.mod_pos_bound (2 * M + P) (2 * P) ltac:(lia)) as Hr.
  nia.
Qed.

Lemma nearest_scaled_unique d m e n :
  nearest_scaled d m e n -> n = JS.toFixed_digits d m e.
Proof.
  unfold nearest_scaled, JS.toFixed_digits. cbv zeta.
  destruct (0 <=? e) eqn:He; [intros ->; ring|].
  apply Z.leb_gt in He.
  replace (- e + 1) with (Z.succ (- e)) by lia.
  rewrite Z.pow_succ_r by lia.
  assert (HP : 0 < 2 ^ (- e)) by (apply Z.pow_pos_nonneg; lia).
  generalize dependent (2 ^ (- e)). intros P HP.
  generalize (Z.pos m * 10 ^ d). intros M H.
  apply (Z.div_unique_pos _ _ _ (2 * M + P - 2 * P * n)); lia.
Qed.

(** What the code computes is the rounding the specification names. *)
Lemma toFixed_parse_rounded d x : rounded d x (JS.toFixed_parse d x).
Proof.
  unfold rounded, JS.toFixed_parse.
  destruct (Prim2SF x) as [sg|sg| |sg m e]; try reflexivity.
  exists (JS.toFixed_digits d m e). split; [apply toFixed_digits_nearest|].
  cbv zeta. destruct (JS.toFixed_digits d m e <? 2 ^ 53); reflexivity.
Qed.

(** The value a rounding has, computed from the digits. *)
Lemma rounded_value d x t sg m e :
  rounded d x t -> Prim2SF x = S754_finite sg m e ->
  JS.toFixed_digits d m e < 2 ^ 53 ->
  t = if sg then (- (JS.of_Z (JS.toFixed_digits d m e) / JS.of_Z (10 ^ d)))%float
      else (JS.of_Z (JS.toFixed_digits d m e) / JS.of_Z (10 ^ d))%float.
Proof.
  unfold rounded. intros H E Hn. rewrite E in H.
  destruct H as (n & Hnear & Ht).
  apply nearest_scaled_unique in Hnear. subst n.
  apply Z.ltb_lt in Hn. now rewrite Hn in Ht.
Qed.


(** ** The stable sort *)

Section SortFacts.
Context {A : Type}.

Lemma insert_perm (lt : A -> A -> bool) x l :
  Permutation (JS.insert lt x l) (x :: l).
Proof.
  induction l as [|y t IH]; simpl; [reflexivity|].
  destruct (lt y x); [|reflexivity].
  rewrite IH. apply perm_swap.
Qed.

Lemma sort_perm (lt : A -> A -> bool) l : Permutation (JS.sort lt l) l.
Proof.
  induction l as [|x t IH]; simpl; [reflexivity|].
  rewrite insert_perm. now constructor.
Qed.

Lemma sort_In (lt : A -> A -> bool) l x : In x (JS.sort lt l) <-> In x l.
Proof.
  split; apply Permutation_in; [|symmetry]; apply sort_perm.
Qed.

(** Two comparators that agree on the elements of a list sort it alike. *)
Lemma insert_ext (lt lt' : A -> A -> bool) x l :
  (forall y, In y l -> lt y x = lt' y x) ->
  JS.insert lt x l = JS.insert lt' x l.
Proof.
  induction l as [|y t IH]; simpl; intros H; [reflexivity|].
  rewrite <- (H y) by auto. destruct (lt y x); [|reflexivity].
  f_equal. apply IH. auto.
Qed.

Lemma sort_ext (lt lt' : A -> A -> bool) l :
  (forall x y, In x l -> In y l -> lt x y = lt' x y) ->
  JS.sort lt l = JS.sort lt' l.
Proof.
  induction l as [|x t IH]; simpl; intros H; [reflexivity|].
  rewrite IH by auto.
  apply insert_ext. intros y Hy. apply H; [right|left; reflexivity].
  now apply (sort_In lt').
Qed.

(** A sort by an integer key. *)
Variable key : A -> Z.
Let ltk (a b : A) : bool := key a <? key b.
Let lek (a b : A) : Prop := key a <= key b.

Lemma insert_sorted x l :
  StronglySorted lek l -> StronglySorted lek (JS.insert ltk x l).
Proof.
  induction 1 as [|y t Ht IH Hy]; simpl.
  - repeat constructor.
  - unfold ltk at 1. destruct (Z.ltb_spec (key y) (key x)) as [Hlt|Hge].
    + constructor; [exact IH|].
      rewrite Forall_forall in *. intros z Hz.
      apply (Permutation_in _ (insert_perm ltk x t)) in Hz.
      destruct Hz as [<-|Hz]; [unfold lek; lia|auto].
    + constructor; [now constructor|].
      constructor; [exact Hge|].
      rewrite Forall_forall in *. intros z Hz.
      specialize (Hy z Hz). unfold lek in *. lia.
Qed.

Lemma sort_sorted l : StronglySorted lek (JS.sort ltk l).
Proof.
  induction l; simpl; [constructor|now apply insert_sorted].
Qed.

Lemma insert_fixed x l :
  Forall (lek x) l -> JS.insert ltk x l = x :: l.
Proof.
  destruct l as [|y t]; simpl; [reflexivity|].
  intros H. inversion H; subst. unfold ltk, lek in *.
  destruct (Z.ltb_spec (key y) (key x)); [lia|reflexivity].
Qed.

Lemma sort_fixed l : StronglySorted lek l -> JS.sort ltk l = l.
Proof.
  induction 1 as [|x t Ht IH Hx]; simpl; [reflexivity|].
  rewrite IH. now apply insert_fixed.
Qed.

Lemma filter_insert (p : A -> bool) x l :
  StronglySorted lek l ->
  filter p (JS.insert ltk x l) =
  if p x then JS.insert ltk x (filter p l) else filter p l.
Proof.
  induction 1 as [|y t Ht IH Hy]; simpl.
  - destruct (p x); reflexivity.
  - unfold ltk at 1. destruct (Z.ltb_spec (key y) (key x)) as [Hlt|Hge].
    + simpl. rewrite IH. destruct (p y), (p x); simpl; try reflexivity.
      unfold ltk at 2. destruct (Z.ltb_spec (key y) (key x)); [reflexivity|lia].
    + assert (Hall : Forall (lek x) (filter p (y :: t))).
      { rewrite Forall_forall in *. intros z Hz.
        apply filter_In in Hz. destruct Hz as [[<-|Hz] _]; [exact Hge|].
        specialize (Hy z Hz). unfold lek in *. lia. }
      change (filter p (x :: y :: t)) with
        (if p x then x :: filter p (y :: t) else filter p (y :: t)).
      destruct (p x); [|reflexivity].
      symmetry. now apply insert_fixed.
Qed.

Lemma filter_sort (p : A -> bool) l :
  filter p (JS.sort ltk l) = JS.sort ltk (filter p l).
Proof.
  induction l as [|x t IH]; simpl; [reflexivity|].
  rewrite filter_insert by apply sort_sorted.
  rewrite IH. destruct (p x); reflexivity.
Qed.

Lemma filter_sorted (p : A -> bool) l :
  StronglySorted lek l -> StronglySorted lek (filter p l).
Proof.
  induction 1 as [|x t Ht IH Hx]; simpl; [constructor|].
  destruct (p x); [|exact IH].
  constructor; [exact IH|].
  rewrite Forall_forall in *. intros z Hz.
  apply filter_In in Hz. now apply Hx.
Qed.
End SortFacts.

(** ** The reconciler *)

Section ReconcileFacts.
Variable Date_parse : string -> option Z.
Variable s : serviceType.


Lemma new_record_date now r :
  rec_date s (new_record s now r) = dateKey s r.
Proof. destruct s; reflexivity. Qed.

(** *** The loop body *)

Lemma upsert_upd now h r :
  upsert s now h r = upd s (dateKey s r) (new_record s now r) h.
Proof.
  unfold upsert.
  induction h as [|x t IH]; simpl; [reflexivity|].
  destruct (String.eqb (rec_date s x) (dateKey s r)); [reflexivity|].
  destruct (JS.findIndex _ t); simpl in *; rewrite <- IH; reflexivity.
Qed.

Lemma fold_upsert_upd now batch h :
  fold_left (upsert s now) batch h =
  fold_left (fun h r => upd s (dateKey s r) (new_record s now r) h) batch h.
Proof.
  revert h. induction batch as [|r t IH]; intros h; simpl; [reflexivity|].
  rewrite upsert_upd. apply IH.
Qed.

Lemma lookup_upd k k' v h :
  rec_date s v = k' ->
  lookup s k (upd s k' v h) = if String.eqb k' k then Some v else lookup s k h.
Proof.
  intros Hv. unfold lookup.
  induction h as [|x t IH]; simpl.
  - rewrite Hv. destruct (String.eqb k' k); reflexivity.
  - destruct (String.eqb (rec_date s x) k') eqn:Hx; simpl.
    + apply String.eqb_eq in Hx. rewrite Hv, Hx.
      destruct (String.eqb k' k); reflexivity.
    + destruct (String.eqb (rec_date s x) k) eqn:Hxk.
      * apply String.eqb_eq in Hxk. subst k.
        rewrite String.eqb_sym, Hx. reflexivity.
      * exact IH.
Qed.

Lemma latest_cons k r batch :
  latest s k (r :: batch) =
  match latest s k batch with
  | Some r' => Some r'
  | None => if String.eqb (dateKey s r) k then Some r else None
  end.
Proof.
  unfold latest. simpl. generalize (rev batch) as l.
  induction l as [|y t IH]; simpl; [reflexivity|].
  destruct (String.eqb (dateKey s y) k); [reflexivity|exact IH].
Qed.

Lemma latest_Some_In k batch r :
  latest s k batch = Some r -> In r batch /\ dateKey s r = k.
Proof.
  unfold latest. intros H. apply find_some in H. destruct H as [H1 H2].
  apply in_rev in H1. apply String.eqb_eq in H2. auto.
Qed.

Lemma latest_None k batch r :
  latest s k batch = None -> In r batch -> dateKey s r <> k.
Proof.
  unfold latest. intros H Hr Hk.
  apply in_rev in Hr. apply (find_none _ _ H) in Hr.
  rewrite Hk, String.eqb_refl in Hr. discriminate.
Qed.

(** The store read as a map from date keys: after the loop a key of the
    batch designates the record of the last reading with that key. *)
Lemma lookup_fold_upsert now k batch h :
  lookup s k (fold_left (upsert s now) batch h) =
  match latest s k batch with
  | Some r => Some (new_record s now r)
  | None => lookup s k h
  end.
Proof.
  revert h. induction batch as [|r t IH]; intros h; simpl; [reflexivity|].
  rewrite IH, latest_cons, upsert_upd.
  destruct (latest s k t); [reflexivity|].
  rewrite lookup_upd by apply new_record_date.
  destruct (String.eqb (dateKey s r) k); reflexivity.
Qed.

Lemma In_upd k v h x : In x (upd s k v h) -> x = v \/ In x h.
Proof.
  induction h as [|y t IH]; simpl.
  - intros [<-|[]]. auto.
  - destruct (String.eqb (rec_date s y) k); simpl.
    + intros [<-|H]; auto.
    + intros [<-|H]; auto. destruct (IH H); auto.
Qed.

Lemma In_fold_upsert now batch h x :
  In x (fold_left (upsert s now) batch h) ->
  In x h \/ exists r, In r batch /\ x = new_record s now r.
Proof.
  revert h. induction batch as [|r t IH]; intros h; simpl; [auto|].
  intros H. apply IH in H. destruct H as [H|[r' [H1 H2]]].
  - rewrite upsert_upd in H. apply In_upd in H.
    destruct H as [->|H]; [right; exists r|]; auto.
  - right. exists r'. auto.
Qed.
End ReconcileFacts.

Section OrderFacts.
Variable Date_parse : string -> option Z.
Variable s : serviceType.

Let valid (x : record s) : Prop := Date_parse (rec_date s x) <> None.
Let key := time_or_0 Date_parse s.

Lemma date_lt_key x y :
  valid x -> valid y ->
  date_lt Date_parse s x y = (key x <? key y).
Proof.
  unfold valid, key, date_lt, time_or_0, time_of. intros Hx Hy.
  destruct (Date_parse (rec_date s x)); [|contradiction].
  destruct (Date_parse (rec_date s y)); [|contradiction].
  reflexivity.
Qed.

Lemma sort_date_key l :
  Forall valid l ->
  JS.sort (date_lt Date_parse s) l = JS.sort (fun a b => key a <? key b) l.
Proof.
  intros H. apply sort_ext. intros x y Hx Hy.
  rewrite Forall_forall in H. apply date_lt_key; auto.
Qed.

Lemma sorted_key_date_le l :
  Forall valid l ->
  StronglySorted (fun a b => key a <= key b) l ->
  StronglySorted (date_le Date_parse s) l.
Proof.
  intros Hv Hs. induction Hs as [|x t Ht IH Hx]; [constructor|].
  inversion Hv as [|? ? Hvx Hvt]; subst.
  constructor; [auto|].
  rewrite Forall_forall in *. intros y Hy.
  specialize (Hx y Hy). specialize (Hvt y Hy).
  unfold valid, key, date_le, time_or_0, time_of in *.
  destruct (Date_parse (rec_date s x)); [|contradiction].
  destruct (Date_parse (rec_date s y)); [|contradiction].
  exact Hx.
Qed.

(** Records with one date string never overtake each other, whatever else
    is in the array: the sort keeps which record a date key designates. *)
Lemma date_lt_same_date x y :
  rec_date s x = rec_date s y -> date_lt Date_parse s x y = false.
Proof.
  unfold date_lt, time_of. intros ->.
  destruct (Date_parse (rec_date s y)); [apply Z.ltb_irrefl|reflexivity].
Qed.

Lemma lookup_insert k x l :
  lookup s k (JS.insert (date_lt Date_parse s) x l) =
  if String.eqb (rec_date s x) k then Some x else lookup s k l.
Proof.
  unfold lookup. induction l as [|y t IH]; simpl; [reflexivity|].
  destruct (date_lt Date_parse s y x) eqn:Hlt; simpl; [|reflexivity].
  destruct (String.eqb (rec_date s y) k) eqn:Hy; [|exact IH].
  destruct (String.eqb (rec_date s x) k) eqn:Hx; [|reflexivity].
  apply String.eqb_eq in Hx, Hy.
  rewrite date_lt_same_date in Hlt by congruence. discriminate.
Qed.

Lemma lookup_sort k l :
  lookup s k (JS.sort (date_lt Date_parse s) l) = lookup s k l.
Proof.
  induction l as [|x t IH]; simpl; [reflexivity|].
  rewrite lookup_insert, IH. reflexivity.
Qed.

Lemma within_retention_date cutoff x :
  within_retention Date_parse s cutoff x = date_within Date_parse cutoff (rec_date s x).
Proof. reflexivity. Qed.

Lemma lookup_filter cutoff k l :
  lookup s k (filter (within_retention Date_parse s cutoff) l) =
  if date_within Date_parse cutoff k then lookup s k l else None.
Proof.
  unfold lookup. induction l as [|x t IH]; simpl.
  - destruct (date_within Date_parse cutoff k); reflexivity.
  - rewrite within_retention_date.
    destruct (String.eqb (rec_date s x) k) eqn:Hx.
    + apply String.eqb_eq in Hx. rewrite Hx.
      destruct (date_within Date_parse cutoff k) eqn:Hk; simpl.
      * rewrite Hx, String.eqb_refl. reflexivity.
      * rewrite IH. reflexivity.
    + destruct (date_within Date_parse cutoff (rec_date s x)); simpl; [rewrite Hx|]; exact IH.
Qed.

Lemma lookup_In k l x : lookup s k l = Some x -> In x l /\ rec_date s x = k.
Proof.
  unfold lookup. intros H. apply find_some in H.
  destruct H as [H1 H2]. apply String.eqb_eq in H2. auto.
Qed.

Lemma lookup_None k l x : lookup s k l = None -> In x l -> rec_date s x <> k.
Proof.
  unfold lookup. intros H Hx Hk. apply (find_none _ _ H) in Hx.
  rewrite Hk, String.eqb_refl in Hx. discriminate.
Qed.

Lemma merged_valid now batch file :
  dates_valid Date_parse s batch file ->
  Forall valid (fold_left (upsert s now) batch (loadHistoricalData s file)).
Proof.
  intros [Hb Hf]. rewrite Forall_forall in *. intros x Hx.
  apply In_fold_upsert in Hx. destruct Hx as [Hx|[r [Hr ->]]].
  - now apply Hf.
  - unfold valid. rewrite new_record_date. now apply Hb.
Qed.
End OrderFacts.
(** ** Sort and retention invariant *)

(** X23: every reconciliation that writes the store leaves only records
    whose date parses and is not before [two_years_ago]; and when every
    date string of the stored file and of the batch is a valid date, the
    written series is sorted non-decreasing by date. *)
Theorem storeUsageData_sorted_retained :
  forall (Date_parse : string -> option Z) (s : serviceType) (clk : Clock)
         (batch : list (reading s)) (file : option (list (record s))),
    batch <> [] ->
    exists out,
      storeUsageData Date_parse s clk batch file = Some out /\
      (forall x, In x out ->
         exists t, Date_parse (rec_date s x) = Some t /\ two_years_ago clk <= t) /\
      (dates_valid Date_parse s batch file ->
       StronglySorted (date_le Date_parse s) out).
Proof.
  intros Date_parse s clk batch file Hne.
  destruct batch as [|r batch]; [contradiction|].
  eexists. split; [reflexivity|]. split.
  - intros x Hx. apply filter_In in Hx. destruct Hx as [_ Hx].
    unfold within_retention, time_of in Hx.
    destruct (Date_parse (rec_date s x)) as [t|]; [|discriminate].
    exists t. split; [reflexivity|]. now apply Z.leb_le.
  - intros Hv.
    pose proof (merged_valid Date_parse s (now_iso clk) _ _ Hv) as Hm.
    rewrite sort_date_key by exact Hm.
    apply sorted_key_date_le.
    + rewrite Forall_forall in *. intros x Hx.
      apply filter_In in Hx. destruct Hx as [Hx _].
      apply sort_In in Hx. now apply Hm.
    + apply filter_sorted, sort_sorted.
Qed.

Lemma storeUsageData_sorted_retained_witness :
  exists out,
    storeUsageData ExampleDate.Date_parse GAS Examples.clk
                   Examples.batch_good (Some Examples.history) = Some out /\
    (forall x, In x out ->
       exists t, ExampleDate.Date_parse (g_date x) = Some t /\
                 two_years_ago Examples.clk <= t) /\
    StronglySorted (date_le ExampleDate.Date_parse GAS) out.
Proof.
  destruct (storeUsageData_sorted_retained ExampleDate.Date_parse GAS
              Examples.clk Examples.batch_good (Some Examples.history))
    as (out & H1 & H2 & H3); [discriminate|].
  exists out. repeat split; [exact H1|exact H2|].
  apply H3. split; repeat constructor; discriminate.
Defined.

(** C2: the written series is not always sorted.  Reconciling, into an
    empty store, a batch whose readings are dated 05/02/2024, 13/05/2024
    (no date) and 05/01/2024 writes the record of 05/02/2024 before the
    record of 05/01/2024: the comparator of the sort is NaN next to the
    Invalid Date, the array is left as the loop built it, and the filter
    then drops the undated record from between the two others. *)
Theorem storeUsageData_unsorted_after_invalid_date :
  let out := [Examples.new (Examples.gas "5/2" "05/02/2024" 2 None);
              Examples.new (Examples.gas "5/1" "05/01/2024" 1 None)] in
  Examples.batch_invalid_between <> [] /\
  storeUsageData ExampleDate.Date_parse GAS Examples.clk
                 Examples.batch_invalid_between (Some []) = Some out /\
  map g_date out = ["05/02/2024"; "05/01/2024"]%string /\
  ~ Sorted (date_le ExampleDate.Date_parse GAS) out.
Proof.
  split; [discriminate|]. split; [vm_compute; reflexivity|].
  split; [vm_compute; reflexivity|].
  intros H.
  inversion H as [|? ? _ H1]; subst.
  inversion H1 as [|? ? H2]; subst.
  vm_compute in H2. apply H2. reflexivity.
Qed.

(** ** Upsert *)

Section UpsertFacts.
Variable s : serviceType.

Lemma upd_replace k v pre old post :
  rec_date s old = k ->
  (forall y, In y pre -> rec_date s y <> k) ->
  upd s k v (pre ++ old :: post) = pre ++ v :: post.
Proof.
  intros Hold. induction pre as [|y t IH]; simpl; intros Hpre.
  - rewrite Hold, String.eqb_refl. reflexivity.
  - destruct (String.eqb_spec (rec_date s y) k) as [Hy|_].
    + exfalso. apply (Hpre y); auto.
    + f_equal. apply IH. intros z Hz. apply Hpre. auto.
Qed.

Lemma upd_push k v h :
  (forall y, In y h -> rec_date s y <> k) -> upd s k v h = h ++ [v].
Proof.
  induction h as [|y t IH]; simpl; intros Hh; [reflexivity|].
  destruct (String.eqb_spec (rec_date s y) k) as [Hy|_].
  - exfalso. apply (Hh y); auto.
  - f_equal. apply IH. intros z Hz. apply Hh. auto.
Qed.

Lemma latest_of_In k batch r :
  In r batch -> dateKey s r = k -> exists r', latest s k batch = Some r'.
Proof.
  intros Hr Hk. destruct (latest s k batch) as [r'|] eqn:H; [eauto|].
  exfalso. exact (latest_None s k batch r H Hr Hk).
Qed.
End UpsertFacts.

(** ** Reconciling a batch twice *)

Section OverFacts.
Variable s : serviceType.
Variable now : string.

Lemma over_dates k v h :
  rec_date s v = k -> map (rec_date s) (over s k v h) = map (rec_date s) h.
Proof.
  intros Hv. induction h as [|x t IH]; simpl; [reflexivity|].
  destruct (String.eqb_spec (rec_date s x) k) as [Hx|_]; simpl.
  - congruence.
  - now rewrite IH.
Qed.

Lemma upd_app_in k v h a :
  In k (map (rec_date s) h) -> upd s k v (h ++ a) = over s k v h ++ a.
Proof.
  induction h as [|x t IH]; simpl; [intros []|].
  destruct (String.eqb_spec (rec_date s x) k) as [Hx|Hx]; [reflexivity|].
  intros [H|H]; [contradiction|]. now rewrite IH.
Qed.

Lemma upd_app_out k v h a :
  ~ In k (map (rec_date s) h) ->
  upd s k v (h ++ a) = h ++ upd s k v a /\ over s k v h = h.
Proof.
  induction h as [|x t IH]; simpl; [auto|].
  intros H.
  destruct (String.eqb_spec (rec_date s x) k) as [Hx|Hx]; [tauto|].
  destruct IH as [-> ->]; tauto.
Qed.

Lemma over_over k v v' h :
  rec_date s v = k -> over s k v' (over s k v h) = over s k v' h.
Proof.
  intros Hv. induction h as [|x t IH]; simpl; [reflexivity|].
  destruct (String.eqb_spec (rec_date s x) k) as [Hx|Hx]; simpl.
  - now rewrite Hv, String.eqb_refl.
  - destruct (String.eqb_spec (rec_date s x) k); [contradiction|].
    now rewrite IH.
Qed.

Lemma over_comm k k' v v' h :
  k <> k' -> rec_date s v = k -> rec_date s v' = k' ->
  over s k' v' (over s k v h) = over s k v (over s k' v' h).
Proof.
  intros Hne Hv Hv'. induction h as [|x t IH]; simpl; [reflexivity|].
  destruct (String.eqb_spec (rec_date s x) k) as [Hx|Hx];
    destruct (String.eqb_spec (rec_date s x) k') as [Hx'|Hx']; simpl.
  - congruence.
  - rewrite Hv. destruct (String.eqb_spec k k'); [contradiction|].
    destruct (String.eqb_spec (rec_date s x) k); [|contradiction].
    reflexivity.
  - rewrite Hv'. destruct (String.eqb_spec k' k); [congruence|].
    destruct (String.eqb_spec (rec_date s x) k'); [|contradiction].
    reflexivity.
  - destruct (String.eqb_spec (rec_date s x) k); [contradiction|].
    destruct (String.eqb_spec (rec_date s x) k'); [contradiction|].
    now rewrite IH.
Qed.

Lemma over_fixed k v h :
  (forall x, lookup s k h = Some x -> x = v) -> over s k v h = h.
Proof.
  unfold lookup. induction h as [|x t IH]; simpl; [reflexivity|].
  destruct (String.eqb_spec (rec_date s x) k) as [Hx|Hx]; intros H.
  - now rewrite (H x eq_refl).
  - now rewrite IH.
Qed.

Lemma fold_over_dates batch h :
  map (rec_date s) (fold_left (over_reading s now) batch h) = map (rec_date s) h.
Proof.
  revert h. induction batch as [|r t IH]; intros h; simpl; [reflexivity|].
  rewrite IH. apply over_dates, new_record_date.
Qed.

Lemma fold_over_absorb batch k v h :
  rec_date s v = k -> In k (map (dateKey s) batch) ->
  fold_left (over_reading s now) batch (over s k v h) =
  fold_left (over_reading s now) batch h.
Proof.
  intros Hv. revert h. induction batch as [|r t IH]; intros h; simpl; [intros []|].
  intros Hin. unfold over_reading at 2 4.
  destruct (String.eqb_spec (dateKey s r) k) as [Hr|Hr].
  - rewrite Hr, over_over by exact Hv. reflexivity.
  - destruct Hin as [Hin|Hin]; [contradiction|].
    rewrite over_comm by (auto using new_record_date).
    now apply IH.
Qed.

Lemma latest_not_In k batch :
  ~ In k (map (dateKey s) batch) -> latest s k batch = None.
Proof.
  intros H. destruct (latest s k batch) as [r|] eqn:Hl; [|reflexivity].
  apply latest_Some_In in Hl. destruct Hl as [Hr Hk].
  exfalso. apply H. apply in_map_iff. eauto.
Qed.

(** A store in which every key of the batch already designates the record
    of the latest reading with that key is left as it is by the overwrites. *)
Lemma fold_over_fixed batch g :
  (forall k x r, latest s k batch = Some r -> lookup s k g = Some x ->
                 x = new_record s now r) ->
  fold_left (over_reading s now) batch g = g.
Proof.
  induction batch as [|r t IH]; simpl; intros H; [reflexivity|].
  assert (Ht : forall k x r', latest s k t = Some r' -> lookup s k g = Some x ->
                              x = new_record s now r').
  { intros k x r' Hl. apply H. rewrite latest_cons, Hl. reflexivity. }
  destruct (in_dec string_dec (dateKey s r) (map (dateKey s) t)) as [Hin|Hout].
  - unfold over_reading at 2.
    rewrite fold_over_absorb by (auto using new_record_date). auto.
  - unfold over_reading at 2. rewrite over_fixed; [auto|].
    intros x Hx. apply (H (dateKey s r)); [|exact Hx].
    rewrite latest_cons, latest_not_In by exact Hout.
    now rewrite String.eqb_refl.
Qed.

(** The loop on a store followed by records under other dates: the store
    part is only overwritten, the pushes land behind it. *)
Lemma fold_upsert_prefix batch : forall h a,
  (forall x, In x a -> ~ In (rec_date s x) (map (rec_date s) h)) ->
  exists a',
    fold_left (upsert s now) batch (h ++ a) =
    fold_left (over_reading s now) batch h ++ a' /\
    (forall x, In x a' -> ~ In (rec_date s x) (map (rec_date s) h)) /\
    (forall x, In x a' -> In x a \/ exists r, In r batch /\ x = new_record s now r).
Proof.
  induction batch as [|r t IH]; intros h a Ha; simpl.
  - exists a. auto.
  - rewrite upsert_upd.
    destruct (in_dec string_dec (dateKey s r) (map (rec_date s) h)) as [Hin|Hout].
    + rewrite upd_app_in by exact Hin.
      destruct (IH (over s (dateKey s r) (new_record s now r) h) a) as (a' & H1 & H2 & H3).
      { intros x Hx. rewrite over_dates by apply new_record_date. auto. }
      exists a'. split; [exact H1|]. split.
      * intros x Hx. specialize (H2 x Hx).
        now rewrite over_dates in H2 by apply new_record_date.
      * intros x Hx. destruct (H3 x Hx) as [|[r' [? ?]]]; eauto.
    + destruct (upd_app_out (dateKey s r) (new_record s now r) h a Hout) as [-> Hfix].
      unfold over_reading at 2. rewrite Hfix.
      destruct (IH h (upd s (dateKey s r) (new_record s now r) a)) as (a' & H1 & H2 & H3).
      { intros x Hx. apply In_upd in Hx. destruct Hx as [->|Hx]; [|auto].
        now rewrite new_record_date. }
      exists a'. split; [exact H1|]. split; [exact H2|].
      intros x Hx. destruct (H3 x Hx) as [Hx'|[r' [? ?]]]; [|eauto].
      apply In_upd in Hx'. destruct Hx' as [->|Hx']; eauto.
Qed.
End OverFacts.

Section ObservableFacts.
Variable Date_parse : string -> option Z.
Variable s : serviceType.

Lemma same_observable_refl x : same_observable s x x.
Proof. destruct s; simpl; repeat split. Qed.

Lemma same_observable_sym x y : same_observable s x y -> same_observable s y x.
Proof. destruct s; simpl; intuition congruence. Qed.

Lemma same_observable_trans x y z :
  same_observable s x y -> same_observable s y z -> same_observable s x z.
Proof. destruct s; simpl; intuition congruence. Qed.

Lemma same_observable_date x y :
  same_observable s x y -> rec_date s x = rec_date s y.
Proof. destruct s; simpl; tauto. Qed.

Lemma new_record_same_observable now now' r :
  same_observable s (new_record s now r) (new_record s now' r).
Proof. destruct s; simpl; repeat split. Qed.

Lemma same_list_refl l : Forall2 (same_observable s) l l.
Proof. induction l; constructor; auto using same_observable_refl. Qed.

Lemma same_list_sym l l' :
  Forall2 (same_observable s) l l' -> Forall2 (same_observable s) l' l.
Proof. induction 1; constructor; auto using same_observable_sym. Qed.

Lemma same_list_trans l l' l'' :
  Forall2 (same_observable s) l l' -> Forall2 (same_observable s) l' l'' ->
  Forall2 (same_observable s) l l''.
Proof.
  intros H. revert l''. induction H; intros l'' H'; inversion H'; subst;
    constructor; eauto using same_observable_trans.
Qed.

Lemma same_upd k v v' h h' :
  same_observable s v v' -> Forall2 (same_observable s) h h' ->
  Forall2 (same_observable s) (upd s k v h) (upd s k v' h').
Proof.
  intros Hv. induction 1 as [|x x' t t' Hx Ht IH]; simpl.
  - repeat constructor. exact Hv.
  - rewrite <- (same_observable_date _ _ Hx).
    destruct (String.eqb (rec_date s x) k); constructor; auto.
Qed.

Lemma same_fold_upsert now now' batch : forall h h',
  Forall2 (same_observable s) h h' ->
  Forall2 (same_observable s) (fold_left (upsert s now) batch h)
          (fold_left (upsert s now') batch h').
Proof.
  induction batch as [|r t IH]; intros h h' H; simpl; [exact H|].
  apply IH. rewrite !upsert_upd.
  apply same_upd; [apply new_record_same_observable|exact H].
Qed.

Lemma date_lt_ext a a' b b' :
  rec_date s a = rec_date s a' -> rec_date s b = rec_date s b' ->
  date_lt Date_parse s a b = date_lt Date_parse s a' b'.
Proof. unfold date_lt, time_of. now intros -> ->. Qed.

Lemma same_insert x x' l l' :
  same_observable s x x' -> Forall2 (same_observable s) l l' ->
  Forall2 (same_observable s) (JS.insert (date_lt Date_parse s) x l)
          (JS.insert (date_lt Date_parse s) x' l').
Proof.
  intros Hx. induction 1 as [|y y' t t' Hy Ht IH]; simpl.
  - repeat constructor. exact Hx.
  - rewrite (date_lt_ext y y' x x') by auto using same_observable_date.
    destruct (date_lt Date_parse s y' x'); repeat constructor; auto.
Qed.

Lemma same_sort l l' :
  Forall2 (same_observable s) l l' ->
  Forall2 (same_observable s) (JS.sort (date_lt Date_parse s) l)
          (JS.sort (date_lt Date_parse s) l').
Proof. induction 1; simpl; [constructor|]. now apply same_insert. Qed.

Lemma same_filter cutoff l l' :
  Forall2 (same_observable s) l l' ->
  Forall2 (same_observable s)
          (filter (within_retention Date_parse s cutoff) l)
          (filter (within_retention Date_parse s cutoff) l').
Proof.
  induction 1 as [|x x' t t' Hx Ht IH]; simpl; [constructor|].
  rewrite !within_retention_date, (same_observable_date _ _ Hx).
  destruct (date_within Date_parse cutoff (rec_date s x')); [constructor|]; auto.
Qed.

Lemma same_retained cutoff l l' :
  Forall2 (same_observable s) l l' ->
  Forall (fun x => within_retention Date_parse s cutoff x = true) l ->
  Forall (fun x => within_retention Date_parse s cutoff x = true) l'.
Proof.
  induction 1 as [|x x' t t' Hx Ht IH]; intros H; [constructor|].
  inversion H; subst. constructor; [|auto].
  rewrite within_retention_date in *.
  now rewrite <- (same_observable_date _ _ Hx).
Qed.

Lemma filter_all (A : Type) (p : A -> bool) l :
  Forall (fun x => p x = true) l -> filter p l = l.
Proof. induction 1 as [|x t Hx Ht IH]; simpl; [|rewrite Hx, IH]; reflexivity. Qed.

Lemma filter_none (A : Type) (p : A -> bool) l :
  Forall (fun x => p x = false) l -> filter p l = [].
Proof. induction 1 as [|x t Hx Ht IH]; simpl; [|rewrite Hx, IH]; reflexivity. Qed.

Lemma date_within_mono t1 t2 k :
  t1 <= t2 -> date_within Date_parse t2 k = true ->
  date_within Date_parse t1 k = true.
Proof.
  unfold date_within. destruct (Date_parse k); [|discriminate].
  rewrite !Z.leb_le. lia.
Qed.

(** With one clock stamp: sorting and trimming the loop's result, then
    running the loop, the sort and a later trim again gives the same array. *)
Lemma reconcile_twice_exact now t1 t2 batch h0 :
  let post t l := filter (within_retention Date_parse s t)
                         (JS.sort (date_lt Date_parse s) l) in
  let g := post t1 (fold_left (upsert s now) batch h0) in
  Forall (fun r => Date_parse (dateKey s r) <> None) batch ->
  Forall (fun x => Date_parse (rec_date s x) <> None) h0 ->
  t1 <= t2 ->
  Forall (fun x => within_retention Date_parse s t2 x = true) g ->
  post t2 (fold_left (upsert s now) batch g) = g.
Proof.
  intros post g Hb Hh Ht Hg.
  set (m := fold_left (upsert s now) batch h0) in *.
  assert (Hm : Forall (fun x => Date_parse (rec_date s x) <> None) m).
  { apply (merged_valid Date_parse s now batch (Some h0)). split; assumption. }
  assert (Hlook : forall k, lookup s k g =
            if date_within Date_parse t1 k then lookup s k m else None).
  { intros k. unfold g, post. now rewrite lookup_filter, lookup_sort. }
  (* the loop only overwrites [g] with what it holds already *)
  destruct (fold_upsert_prefix s now batch g []) as (a & Ha & Hout & Hfrom);
    [intros x []|].
  rewrite app_nil_r in Ha.
  rewrite fold_over_fixed in Ha.
  2:{ intros k x r Hl Hx. rewrite Hlook in Hx.
      destruct (date_within Date_parse t1 k); [|discriminate].
      unfold m in Hx. rewrite lookup_fold_upsert, Hl in Hx. congruence. }
  (* what it pushes is trimmed again *)
  assert (Hdrop : Forall (fun x => within_retention Date_parse s t2 x = false) a).
  { apply Forall_forall. intros x Hx.
    destruct (within_retention Date_parse s t2 x) eqn:Hk; [|reflexivity].
    exfalso. apply (Hout x Hx).
    destruct (Hfrom x Hx) as [[]|[r [Hr ->]]].
    rewrite within_retention_date, new_record_date in Hk.
    apply (date_within_mono t1 t2) in Hk; [|exact Ht].
    destruct (latest_of_In s _ batch r Hr eq_refl) as [r' Hr'].
    assert (Hl : lookup s (dateKey s r) g = Some (new_record s now r')).
    { rewrite Hlook, Hk. unfold m. now rewrite lookup_fold_upsert, Hr'. }
    apply lookup_In in Hl. destruct Hl as [Hin Hd].
    rewrite new_record_date. rewrite <- Hd.
    apply in_map. exact Hin. }
  assert (Hga : Forall (fun x => Date_parse (rec_date s x) <> None) (g ++ a)).
  { apply Forall_app. split.
    - apply Forall_forall. intros x Hx. unfold g, post in Hx.
      apply filter_In in Hx. destruct Hx as [Hx _]. apply sort_In in Hx.
      rewrite Forall_forall in Hm. auto.
    - apply Forall_forall. intros x Hx.
      destruct (Hfrom x Hx) as [[]|[r [Hr ->]]].
      rewrite new_record_date. rewrite Forall_forall in Hb. auto. }
  unfold post at 1. rewrite Ha.
  rewrite (sort_date_key Date_parse s) by exact Hga.
  rewrite filter_sort, filter_app, (filter_all _ _ g Hg), (filter_none _ _ a Hdrop).
  rewrite app_nil_r.
  apply sort_fixed.
  unfold g, post. rewrite (sort_date_key Date_parse s) by exact Hm.
  apply filter_sorted, sort_sorted.
Qed.
End ObservableFacts.

(** C1 (as amended): when every date string of the stored file and of the
    batch is a valid date, and no record of the once-reconciled store has
    left the retention window by the second call, reconciling the same batch
    again leaves the same series, record for record and field for field,
    up to [timestamp] and [created_at]. *)
Theorem storeUsageData_idempotent :
  forall (Date_parse : string -> option Z) (s : serviceType)
         (clk1 clk2 : Clock) (batch : list (reading s))
         (file : option (list (record s))),
    dates_valid Date_parse s batch file ->
    two_years_ago clk1 <= two_years_ago clk2 ->
    (forall once, batch <> [] ->
        storeUsageData Date_parse s clk1 batch file = Some once ->
        Forall (fun x => within_retention Date_parse s (two_years_ago clk2) x = true)
               once) ->
    same_series s
      (storeUsageData Date_parse s clk2 batch
         (storeUsageData Date_parse s clk1 batch file))
      (storeUsageData Date_parse s clk1 batch file).
Proof.
  intros Date_parse s clk1 clk2 batch file [Hb Hf] Ht Hkeep.
  destruct batch as [|r0 batch].
  - simpl. destruct file; simpl; [apply same_list_refl|exact I].
  - set (b := r0 :: batch) in *.
    set (h0 := loadHistoricalData s file) in *.
    set (post t l := filter (within_retention Date_parse s t)
                            (JS.sort (date_lt Date_parse s) l)).
    set (once := post (two_years_ago clk1) (fold_left (upsert s (now_iso clk1)) b h0)).
    set (g := post (two_years_ago clk1) (fold_left (upsert s (now_iso clk2)) b h0)).
    change (storeUsageData Date_parse s clk1 b file) with (Some once) in *.
    change (storeUsageData Date_parse s clk2 b (Some once))
      with (Some (post (two_years_ago clk2)
                       (fold_left (upsert s (now_iso clk2)) b once))).
    unfold same_series.
    assert (Hog : Forall2 (same_observable s) once g).
    { apply same_filter, same_sort, same_fold_upsert, same_list_refl. }
    assert (Hg : Forall (fun x => within_retention Date_parse s (two_years_ago clk2) x = true) g).
    { apply (same_retained Date_parse s _ once); [exact Hog|].
      apply Hkeep; [discriminate|reflexivity]. }
    assert (Hex : post (two_years_ago clk2)
                       (fold_left (upsert s (now_iso clk2)) b g) = g).
    { exact (reconcile_twice_exact Date_parse s (now_iso clk2)
               (two_years_ago clk1) (two_years_ago clk2) b h0 Hb Hf Ht Hg). }
    apply same_list_trans
      with (l' := post (two_years_ago clk2)
                       (fold_left (upsert s (now_iso clk2)) b g)).
    + apply same_filter, same_sort, same_fold_upsert. exact Hog.
    + rewrite Hex. now apply same_list_sym.
Qed.

Lemma storeUsageData_idempotent_witness :
  same_series GAS
    (storeUsageData ExampleDate.Date_parse GAS Examples.clk' Examples.batch_good
       (storeUsageData ExampleDate.Date_parse GAS Examples.clk Examples.batch_good
          (Some Examples.history)))
    (storeUsageData ExampleDate.Date_parse GAS Examples.clk Examples.batch_good
       (Some Examples.history)).
Proof.
  apply storeUsageData_idempotent.
  - split; repeat constructor; discriminate.
  - vm_compute. discriminate.
  - intros once _ H. injection H as <-.
    repeat constructor.
Defined.

(** C1 as stated fails: the retention window is taken from the clock of
    each call.  A stored record dated 2022-06-03 is kept by the
    reconciliation of 2024-06-01 and dropped when the same batch is
    reconciled again on 2024-06-05, all dates being valid: the second
    store has one record less than the first. *)
Lemma storeUsageData_not_idempotent_counterexample :
  let once := storeUsageData ExampleDate.Date_parse GAS Examples.clk
                Examples.batch_good (Some Examples.aged_history) in
  let twice := storeUsageData ExampleDate.Date_parse GAS Examples.clk_later
                Examples.batch_good once in
  dates_valid ExampleDate.Date_parse GAS Examples.batch_good
              (Some Examples.aged_history) /\
  option_map (map g_date) once
  = Some ["06/03/2022"; "05/02/2024"; "05/03/2024"]%string /\
  option_map (map g_date) twice
  = Some ["05/02/2024"; "05/03/2024"]%string /\
  ~ same_series GAS twice once.
Proof.
  split; [split; repeat constructor; discriminate|].
  split; [vm_compute; reflexivity|]. split; [vm_compute; reflexivity|].
  intros H. vm_compute in H.
  inversion H as [|? ? ? ? [H1 _] _]; subst.
  discriminate.
Qed.

(** ** Monthly rollup *)

Section SortTotal.
Context {A : Type}.
Variable lt : A -> A -> bool.
Let le (a b : A) : Prop := lt b a = false.
Hypothesis le_trans : forall a b c, le a b -> le b c -> le a c.
Hypothesis lt_le : forall a b, lt a b = true -> le a b.

Lemma insert_sorted_total x l :
  StronglySorted le l -> StronglySorted le (JS.insert lt x l).
Proof.
  induction 1 as [|y t Ht IH Hy]; simpl.
  - repeat constructor.
  - destruct (lt y x) eqn:Hyx.
    + constructor; [exact IH|].
      rewrite Forall_forall in *. intros z Hz.
      apply (Permutation_in _ (insert_perm lt x t)) in Hz.
      destruct Hz as [<-|Hz]; [now apply lt_le|auto].
    + constructor; [now constructor|].
      constructor; [exact Hyx|].
      rewrite Forall_forall in *. intros z Hz.
      apply le_trans with (b := y); [exact Hyx|auto].
Qed.

Lemma sort_sorted_total l : StronglySorted le (JS.sort lt l).
Proof.
  induction l; simpl; [constructor|now apply insert_sorted_total].
Qed.
End SortTotal.

Lemma ascii_compare_refl a : Ascii.compare a a = Eq.
Proof. unfold Ascii.compare. apply N.compare_refl. Qed.

Lemma string_compare_trans a : forall b c,
  String.compare a b <> Gt -> String.compare b c <> Gt ->
  String.compare a c <> Gt.
Proof.
  induction a as [|x a IH]; intros [|y b] [|z c]; simpl; try congruence.
  destruct (Ascii.compare x y) eqn:Hxy; [| |congruence];
    (destruct (Ascii.compare y z) eqn:Hyz; [| |congruence]).
  - apply Ascii.compare_eq_iff in Hxy, Hyz. subst.
    rewrite ascii_compare_refl. apply IH.
  - apply Ascii.compare_eq_iff in Hxy. subst. rewrite Hyz. congruence.
  - apply Ascii.compare_eq_iff in Hyz. subst. rewrite Hxy. congruence.
  - assert (H : Ascii.compare x z = Lt)
      by exact (N.lt_trans _ _ _ Hxy Hyz).
    rewrite H. congruence.
Qed.

Lemma string_ltb_false a b : String.ltb b a = false <-> String.compare a b <> Gt.
Proof.
  unfold String.ltb. rewrite (String.compare_antisym a b).
  destruct (String.compare b a); simpl; split; congruence.
Qed.

Section MonthlyFacts.
Variable Date_parse : string -> option Z.
Variable getFullYear : Z -> Z.
Variable getMonth : Z -> Z.
Variable s : serviceType.

Let key (x : record s) : string :=
  month_key Date_parse getFullYear getMonth (rec_date s x).
Let group := month_group Date_parse getFullYear getMonth s.

(** The aggregate of a month before the averages are taken. *)
Let raw (k : string) (h : list (record s)) : month_entry s :=
  fold_left (add_usage s) (group k h) (empty_month s k).

Lemma entry_month_add e x : entry_month s (add_usage s e x) = entry_month s e.
Proof. destruct s; reflexivity. Qed.

Lemma entry_month_empty k : entry_month s (empty_month s k) = k.
Proof. destruct s; reflexivity. Qed.

Lemma entry_month_finish e : entry_month s (finish_month s e) = entry_month s e.
Proof. destruct s; reflexivity. Qed.

Lemma entry_month_fold l e :
  entry_month s (fold_left (add_usage s) l e) = entry_month s e.
Proof.
  revert e. induction l as [|x t IH]; intros e; simpl; [reflexivity|].
  now rewrite IH, entry_month_add.
Qed.

Lemma month_sorted (l : list (month_entry s)) :
  StronglySorted (fun a b => String.ltb (entry_month s b) (entry_month s a) = false)
                 (JS.sort (month_lt s) l).
Proof.
  apply (sort_sorted_total (month_lt s)); unfold month_lt.
  - intros a b c. rewrite !string_ltb_false. apply string_compare_trans.
  - intros a b H. apply string_ltb_false.
    unfold String.ltb in H.
    destruct (String.compare (entry_month s a) (entry_month s b)); congruence.
Qed.

Lemma accumulate_keys k x md :
  map fst (accumulate s k x md) =
  if in_dec string_dec k (map fst md) then map fst md else map fst md ++ [k].
Proof.
  induction md as [|[k' e] rest IH]; simpl; [reflexivity|].
  destruct (String.eqb_spec k' k) as [->|Hne]; simpl.
  - destruct (string_dec k k); [reflexivity|contradiction].
  - rewrite IH. destruct (string_dec k' k); [contradiction|].
    destruct (in_dec string_dec k (map fst rest)); reflexivity.
Qed.

Lemma accumulate_In k x md k' e' :
  NoDup (map fst md) ->
  In (k', e') (accumulate s k x md) ->
  (k' <> k /\ In (k', e') md) \/
  (k' = k /\ ((exists e, In (k, e) md /\ e' = add_usage s e x) \/
              (~ In k (map fst md) /\ e' = add_usage s (empty_month s k) x))).
Proof.
  induction md as [|[k0 e0] rest IH]; simpl; intros Hnd.
  - intros [H|[]]. injection H as <- <-. right. split; [reflexivity|].
    right. split; [tauto|reflexivity].
  - inversion Hnd as [|? ? Hk0 Hrest]; subst.
    destruct (String.eqb_spec k0 k) as [->|Hne]; simpl.
    + intros [H|H].
      * injection H as <- <-. right. split; [reflexivity|]. left. eauto.
      * left. split; [|auto]. intros ->. apply Hk0.
        apply in_map_iff. exists (k, e'). auto.
    + intros [H|H].
      * injection H as <- <-. left. auto.
      * destruct (IH Hrest H) as [[H1 H2]|[-> [[e [H1 H2]]|[H1 H2]]]].
        -- left. auto.
        -- right. split; [reflexivity|]. left. eauto.
        -- right. split; [reflexivity|]. right. split; [|exact H2].
           intros [H3|H3]; [contradiction|auto].
Qed.

Lemma group_snoc k h x :
  group k (h ++ [x]) = group k h ++ (if String.eqb (key x) k then [x] else []).
Proof. unfold group, month_group. rewrite filter_app. reflexivity. Qed.

Lemma group_nil k h :
  (forall x, In x h -> key x <> k) -> group k h = [].
Proof.
  intros H. unfold group, month_group. apply filter_none.
  apply Forall_forall. intros x Hx. apply String.eqb_neq. now apply H.
Qed.

(** The loop invariant of lines 207-238. *)
Lemma monthly_data_spec h :
  let md := fold_left (fun md x => accumulate s (key x) x md) h [] in
  NoDup (map fst md) /\
  (forall k e, In (k, e) md -> e = raw k h /\ group k h <> []) /\
  (forall x, In x h -> In (key x) (map fst md)).
Proof.
  induction h as [|x h IH] using rev_ind; simpl.
  - split; [constructor|]. split; [intros ? ? []|intros ? []].
  - rewrite fold_left_app. simpl.
    set (md := fold_left (fun md x => accumulate s (key x) x md) h []) in *.
    destruct IH as (Hnd & Hent & Hcov).
    split; [|split].
    + rewrite accumulate_keys.
      destruct (in_dec string_dec (key x) (map fst md)) as [Hin|Hout]; [exact Hnd|].
      apply NoDup_app; [exact Hnd|repeat constructor; intros []|].
      intros y Hy [<-|[]]. contradiction.
    + intros k e He. apply accumulate_In in He; [|exact Hnd].
      unfold raw. rewrite group_snoc.
      destruct He as [[Hk He]|[-> [[e0 [He0 ->]]|[Hout ->]]]].
      * destruct (String.eqb_spec (key x) k) as [Heq|_]; [congruence|].
        rewrite app_nil_r. now apply Hent.
      * rewrite String.eqb_refl, fold_left_app. simpl.
        destruct (Hent _ _ He0) as [-> _]. split; [reflexivity|].
        intros H. apply app_eq_nil in H. destruct H. discriminate.
      * rewrite String.eqb_refl, fold_left_app. simpl.
        rewrite group_nil; [split; [reflexivity|discriminate]|].
        intros y Hy Hk. apply Hout. rewrite <- Hk. now apply Hcov.
    + intros y Hy. rewrite accumulate_keys. apply in_app_or in Hy.
      destruct (in_dec string_dec (key x) (map fst md)) as [Hin|Hout].
      * destruct Hy as [Hy|[<-|[]]]; auto.
      * apply in_or_app. destruct Hy as [Hy|[<-|[]]]; [left; auto|right; left; reflexivity].
Qed.
End MonthlyFacts.




Lemma sorted_ltb_leb (A : Type) (f : A -> string) l :
  StronglySorted (fun a b => String.ltb (f b) (f a) = false) l ->
  StronglySorted (fun a b => String.leb (f a) (f b) = true) l.
Proof.
  induction 1 as [|x t Ht IH Hx]; constructor; [exact IH|].
  rewrite Forall_forall in *. intros y Hy. specialize (Hx y Hy).
  apply string_ltb_false in Hx. unfold String.leb.
  destruct (String.compare (f x) (f y)); congruence.
Qed.


(** ** The orchestrator *)

Section RunFacts.
Variable Date_parse : string -> option Z.
Variable getFullYear : Z -> Z.
Variable getMonth : Z -> Z.
Variable env : Env.
Variable portal : Portal.
Variable rc : RunClock.

(** The steps that only write files return, and leave the log and the
    browser handle alone. *)
Lemma store_returns s data w :
  exists w', store Date_parse rc s data w = (w', Return tt) /\
             trace w' = trace w /\ browser w' = browser w /\
             (data = [] -> w' = w) /\
             (forall s', s' <> s -> history_file s' w' = history_file s' w).
Proof.
  unfold store, modify. eexists. split; [reflexivity|].
  destruct data as [|r data].
  - repeat split; reflexivity.
  - destruct (storeUsageData Date_parse s (clock rc) (r :: data)
                (readable (history_file s w))) as [out|].
    + destruct s; repeat split; try discriminate;
        intros [] H; try reflexivity; contradiction.
    + repeat split; try discriminate; reflexivity.
Qed.

Lemma export_returns s w :
  exists w', exportForHomeAssistant Date_parse getFullYear getMonth rc s w
             = (w', Return tt) /\
             trace w' = trace w /\ browser w' = browser w /\
             (forall s', history_file s' w' = history_file s' w).
Proof.
  unfold exportForHomeAssistant, modify. eexists. split; [reflexivity|].
  destruct (rev (loadHistoricalData s (readable (history_file s w)))).
  - repeat split; reflexivity.
  - destruct s; repeat split; intros []; reflexivity.
Qed.


Lemma pipeline_body_returns s (data : list (reading s)) w :
  exists w',
    (store Date_parse rc s data ;;
     exportForHomeAssistant Date_parse getFullYear getMonth rc s ;;
     ret data) w = (w', Return data) /\
    trace w' = trace w /\ browser w' = browser w /\
    (forall s', s' <> s -> history_file s' w' = history_file s' w) /\
    (data = [] -> history_file s w' = history_file s w).
Proof.
  destruct (store_returns s data w) as (w1 & E1 & T1 & B1 & N1 & H1).
  destruct (export_returns s w1) as (w2 & E2 & T2 & B2 & H2).
  exists w2. unfold bind. rewrite E1, E2. split; [reflexivity|].
  repeat split.
  - congruence.
  - congruence.
  - intros s' Hs. rewrite H2. now apply H1.
  - intros Hd. rewrite H2, (N1 Hd). reflexivity.
Qed.

Lemma collect_gas_spec w :
  exists w' r,
    collect env GAS (read_gas_api Date_parse getFullYear getMonth portal rc) w
    = (w', Return r) /\
    browser w' = browser w /\
    electric_history_file w' = electric_history_file w /\
    trace w' = trace w ++ (if meter_set env GAS then [PipelineStarted GAS] else []) /\
    success r = completes env portal GAS /\
    (meter_set env GAS = false -> gas_history_file w' = gas_history_file w) /\
    (forall p, meter_set env GAS = true -> gas_body portal = Json p ->
       r = mkResult true None (List.length (processGasData Date_parse rc p)) /\
       (processGasData Date_parse rc p = [] ->
        gas_history_file w' = gas_history_file w)).
Proof.
  unfold collect, completes. destruct (meter_set env GAS).
  - unfold read_gas_api, try_catch, bind at 1 2, emit.
    destruct (gas_body portal) as [| | |p].
    1-3: (simpl; do 2 eexists; split; [reflexivity|]; repeat split; try reflexivity;
          try discriminate; intros; discriminate).
    cbv beta iota.
    destruct (pipeline_body_returns GAS (processGasData Date_parse rc p)
                (log (PipelineStarted GAS) w)) as (w' & E & T & B & H & N).
    cbv beta iota delta [reading] in E. rewrite E. do 2 eexists. split; [reflexivity|].
    split; [exact B|]. split; [exact (H ELECTRIC ltac:(discriminate))|].
    split; [exact T|]. split; [reflexivity|]. split; [discriminate|].
    intros p' _ Hp. injection Hp as <-. split; [reflexivity|].
    intros Hd. exact (N Hd).
  - do 2 eexists. split; [reflexivity|].
    rewrite app_nil_r. repeat split; try reflexivity; intros; discriminate.
Qed.

Lemma collect_electric_spec w :
  exists w' r,
    collect env ELECTRIC (read_electric_api Date_parse getFullYear getMonth portal rc) w
    = (w', Return r) /\
    browser w' = browser w /\
    gas_history_file w' = gas_history_file w /\
    trace w' = trace w ++ (if meter_set env ELECTRIC then [PipelineStarted ELECTRIC] else []) /\
    success r = completes env portal ELECTRIC.
Proof.
  unfold collect, completes. destruct (meter_set env ELECTRIC).
  - unfold read_electric_api, try_catch, bind at 1 2, emit.
    assert (Hbody : forall data : list ElectricReading,
      exists w' r,
        match
          match (store Date_parse rc ELECTRIC data ;;
                 exportForHomeAssistant Date_parse getFullYear getMonth rc ELECTRIC ;;
                 ret data) (log (PipelineStarted ELECTRIC) w) with
          | (w', Return a) => ret (mkResult true None (List.length a)) w'
          | (w', Throw e) => (w', Throw e)
          | (w', Exited c) => (w', Exited c)
          end
        with
        | (w', Throw e) => ret (mkResult false (Some e) 0%nat) w'
        | r => r
        end = (w', Return r) /\
        browser w' = browser w /\ gas_history_file w' = gas_history_file w /\
        trace w' = trace w ++ [PipelineStarted ELECTRIC] /\ success r = true).
    { intros data.
      destruct (pipeline_body_returns ELECTRIC data (log (PipelineStarted ELECTRIC) w))
        as (w' & E & T & B & H & N).
      cbv beta iota delta [reading] in E. rewrite E.
      do 2 eexists. split; [reflexivity|].
      split; [exact B|]. split; [exact (H GAS ltac:(discriminate))|].
      split; [exact T|reflexivity]. }
    simpl.
    destruct (electric_body portal) as [| | |p]; simpl.
    + do 2 eexists. repeat split; reflexivity.
    + destruct (electric_xml portal) as [d|]; [apply Hbody|].
      do 2 eexists. repeat split; reflexivity.
    + destruct (electric_xml portal) as [d|]; [apply Hbody|].
      do 2 eexists. repeat split; reflexivity.
    + apply Hbody.
  - do 2 eexists. split; [reflexivity|].
    rewrite app_nil_r. repeat split; reflexivity.
Qed.
End RunFacts.

Section FetchOnce.
Variable Date_parse : string -> option Z.
Variable getFullYear : Z -> Z.
Variable getMonth : Z -> Z.
Variable env : Env.
Variable portal : Portal.
Variable rc : RunClock.

Let run_fetch := fetch_once Date_parse getFullYear getMonth env portal rc.
Let any_success := completes env portal GAS || completes env portal ELECTRIC.

(** Lines 690-750: the part of the [try] block after the login. *)
Lemma collection_spec w :
  exists gas_points electric_points w',
    (gas <- collect env GAS (read_gas_api Date_parse getFullYear getMonth portal rc) ;;
     electric <- collect env ELECTRIC
                   (read_electric_api Date_parse getFullYear getMonth portal rc) ;;
     summarize env GAS gas ;;
     summarize env ELECTRIC electric ;;
     (if negb (success gas || success electric)
      then process_exit 1 else ret tt)) w
    = (w', if any_success then Return tt else Exited 1) /\
    browser w' = browser w /\
    trace w' = trace w ++ collection_log env portal gas_points electric_points ++
               (if any_success then [] else [ProcessExit 1]) /\
    (forall p, meter_set env GAS = true -> gas_body portal = Json p ->
       gas_points = List.length (processGasData Date_parse rc p) /\
       (processGasData Date_parse rc p = [] ->
        gas_history_file w' = gas_history_file w)).
Proof.
  destruct (collect_gas_spec Date_parse getFullYear getMonth env portal rc w)
    as (w1 & r1 & E1 & B1 & _ & T1 & S1 & _ & P1).
  destruct (collect_electric_spec Date_parse getFullYear getMonth env portal rc w1)
    as (w2 & r2 & E2 & B2 & G2 & T2 & S2).
  unfold bind at 1. rewrite E1. unfold bind at 1. rewrite E2.
  exists (data_points r1), (data_points r2).
  unfold any_success, collection_log, summarize, bind, emit, process_exit, ret.
  rewrite S1, S2.
  assert (Hp : forall p, meter_set env GAS = true -> gas_body portal = Json p ->
             data_points r1 = List.length (processGasData Date_parse rc p) /\
             (processGasData Date_parse rc p = [] ->
              gas_history_file w2 = gas_history_file w)).
  { intros p Hm Hb. destruct (P1 p Hm Hb) as [-> Hf]. split; [reflexivity|].
    intros Hd. rewrite G2. now apply Hf. }
  destruct (meter_set env GAS), (meter_set env ELECTRIC),
    (completes env portal GAS), (completes env portal ELECTRIC);
    cbn [negb orb]; eexists; (split; [reflexivity|]);
    cbn [browser trace log]; rewrite ?T2, ?T1, ?B2, ?B1, <- ?app_assoc;
    (split; [reflexivity|]); (split; [reflexivity|]); exact Hp.
Qed.

(** What a run of [fetch_once] does: its log and its exit code. *)
Lemma fetch_once_spec w :
  exists (gas_points electric_points : nat),
    trace (fst (run_fetch w)) =
      trace w ++
      (if launch_ok portal then
         BrowserLaunched ::
         (if login_ok portal then
            LoginCompleted ::
            collection_log env portal gas_points electric_points ++
            (if any_success then [BrowserClosed; ProcessExit 0] else [ProcessExit 1])
          else [LoginFailed; ProcessExit 1])
       else [ProcessExit 1]) /\
    exit_code (run_fetch w) =
      Some (if launch_ok portal && login_ok portal && any_success then 0 else 1) /\
    (forall p, launch_ok portal = true -> login_ok portal = true ->
       meter_set env GAS = true -> gas_body portal = Json p ->
       gas_points = List.length (processGasData Date_parse rc p) /\
       (processGasData Date_parse rc p = [] ->
        gas_history_file (fst (run_fetch w)) = gas_history_file w)).
Proof.
  unfold run_fetch, fetch_once, try_finally, try_catch, init, login.
  destruct (launch_ok portal);
    [|exists O, O; repeat split; try reflexivity; intros; discriminate].
  destruct (login_ok portal);
    [|exists O, O; repeat split; cbn; rewrite <- ?app_assoc; try reflexivity;
      intros; discriminate].
  cbn -[collect summarize read_gas_api read_electric_api meter_set completes].
  destruct (collection_spec (log LoginCompleted (log BrowserLaunched (set_browser true w))))
    as (ng & ne & w' & E & B & T & P).
  rewrite E. exists ng, ne.
  fold any_success.
  destruct any_success.
  - cbn [browser set_browser log] in B. cbn -[meter_set completes collection_log].
    rewrite B. cbn -[meter_set completes collection_log].
    rewrite T. cbn -[meter_set completes collection_log].
    rewrite app_nil_r, <- !app_assoc. cbn -[meter_set completes collection_log].
    split; [reflexivity|]. split; [reflexivity|].
    intros p _ _ Hm Hb. destruct (P p Hm Hb) as [Hn Hf]. split; [exact Hn|].
    intros Hd. now apply Hf.
  - cbn -[meter_set completes collection_log].
    rewrite T. cbn -[meter_set completes collection_log].
    rewrite <- !app_assoc. cbn -[meter_set completes collection_log].
    split; [reflexivity|]. split; [reflexivity|].
    intros p _ _ Hm Hb. destruct (P p Hm Hb) as [Hn Hf]. split; [exact Hn|].
    intros Hd. now apply Hf.
Qed.
End FetchOnce.

Section MainFacts.
Variable Date_parse : string -> option Z.
Variable getFullYear : Z -> Z.
Variable getMonth : Z -> Z.
Variable env : Env.
Variable portal : Portal.
Variable rc : RunClock.

Lemma constructor_returns w :
  exists w', constructor env w = (w', Return tt) /\
             trace w' = trace w /\ browser w' = browser w.
Proof.
  unfold constructor, initHistoryFiles, initHistoryFile, bind, modify, ret.
  destruct (valid_config env); cbn [negb];
    destruct (meter_set env GAS), (meter_set env ELECTRIC);
    destruct (history_file GAS w) eqn:Hg; cbn;
    destruct (electric_history_file w) eqn:He; cbn;
    rewrite ?He; eexists; repeat split; reflexivity.
Qed.

(** The exit contract that the code keeps: 0 exactly when the browser
    launched, the login completed and the pipeline of a utility whose meter
    variable is set completed; 1 otherwise.  The verdict of [valid_config]
    plays no part. *)
Lemma main_exit_code w :
  exit_code (main Date_parse getFullYear getMonth env portal rc w) =
  Some (if launch_ok portal && login_ok portal &&
           (completes env portal GAS || completes env portal ELECTRIC)
        then 0 else 1).
Proof.
  unfold main, try_catch, bind.
  destruct (constructor_returns w) as (w' & E & _ & _). rewrite E.
  destruct (fetch_once_spec Date_parse getFullYear getMonth env portal rc w')
    as (ng & ne & _ & Hx & _).
  unfold exit_code in *.
  destruct (fetch_once Date_parse getFullYear getMonth env portal rc w')
    as [w'' [a|e|c]]; simpl in *; congruence.
Qed.

(** The browser is closed on the runs that exit with 0 and on no other. *)
Lemma main_closes_browser_iff w :
  trace w = [] ->
  (In BrowserClosed (trace (fst (main Date_parse getFullYear getMonth env portal rc w)))
   <-> exit_code (main Date_parse getFullYear getMonth env portal rc w) = Some 0).
Proof.
  intros Hw. rewrite main_exit_code.
  unfold main, try_catch, bind.
  destruct (constructor_returns w) as (w' & E & T & _). rewrite E.
  destruct (fetch_once_spec Date_parse getFullYear getMonth env portal rc w')
    as (ng & ne & Ht & Hx & _).
  assert (Hfst : trace (fst (let (w'0, o) :=
              fetch_once Date_parse getFullYear getMonth env portal rc w' in
            match o with
            | Throw e => process_exit 1 w'0
            | _ => (w'0, o)
            end)) = trace (fst (fetch_once Date_parse getFullYear getMonth env portal rc w'))).
  { unfold exit_code in Hx.
    destruct (fetch_once Date_parse getFullYear getMonth env portal rc w')
      as [w'' [a|e|c]]; simpl in *; [reflexivity|discriminate|reflexivity]. }
  match goal with |- In _ (trace (fst ?t)) <-> _ =>
    replace (trace (fst t))
      with (trace (fst (fetch_once Date_parse getFullYear getMonth env portal rc w')))
  end.
  2:{ symmetry. destruct (fetch_once Date_parse getFullYear getMonth env portal rc w')
        as [w'' [a|e|c]]; simpl in *; try reflexivity.
      unfold exit_code in Hx. simpl in Hx. discriminate. }
  rewrite Ht, T, Hw. unfold collection_log.
  destruct (launch_ok portal), (login_ok portal),
    (meter_set env GAS), (meter_set env ELECTRIC),
    (completes env portal GAS), (completes env portal ELECTRIC);
    cbn; split; intros H; try discriminate; try reflexivity;
    simpl in *; intuition discriminate.
Qed.
End MainFacts.

(** ** Exit contract, configuration and teardown on the code *)

(** The run launches the browser whatever [valid_config] said. *)
Lemma main_launches Date_parse getFullYear getMonth env portal rc w :
  launch_ok portal = true ->
  In BrowserLaunched
     (trace (fst (main Date_parse getFullYear getMonth env portal rc w))).
Proof.
  intros Hl. unfold main, try_catch, bind.
  destruct (constructor_returns env w) as (w' & E & _ & _). rewrite E.
  destruct (fetch_once_spec Date_parse getFullYear getMonth env portal rc w')
    as (ng & ne & Ht & Hx & _).
  rewrite Hl in Ht. unfold exit_code in Hx.
  destruct (fetch_once Date_parse getFullYear getMonth env portal rc w')
    as [w'' [a|e|c]]; simpl in *; try discriminate;
    rewrite Ht; apply in_or_app; right; left; reflexivity.
Qed.

(** C4, on the code: with the account number missing [valid_config] rejects
    the configuration, yet the run logs in, runs the gas pipeline on a
    response without series and exits with 0. *)
Theorem exit_code_ignores_valid_config :
  valid_config RunExamples.env_no_account = false /\
  trace (fst (RunExamples.run RunExamples.env_no_account
                              RunExamples.portal_no_series fresh))
  = [BrowserLaunched; LoginCompleted; PipelineStarted GAS;
     Summary GAS true 0; BrowserClosed; ProcessExit 0] /\
  exit_code (RunExamples.run RunExamples.env_no_account
                             RunExamples.portal_no_series fresh) = Some 0.
Proof. repeat split; vm_compute; reflexivity. Qed.

(** C5, on the code: with no meter configured [valid_config] rejects the
    configuration, yet the run launches the browser and logs in before it
    exits with 1. *)
Theorem no_meter_still_opens_browser :
  valid_config RunExamples.env_no_meter = false /\
  trace (fst (RunExamples.run RunExamples.env_no_meter
                              RunExamples.portal_no_series fresh))
  = [BrowserLaunched; LoginCompleted; ProcessExit 1].
Proof. split; vm_compute; reflexivity. Qed.

(** C6, on the code: when the login fails the process exits from the
    [catch] block; the browser that was launched is never closed. *)
Theorem login_failure_skips_teardown :
  trace (fst (RunExamples.run RunExamples.env_gas
                              RunExamples.portal_login_fails fresh))
  = [BrowserLaunched; LoginFailed; ProcessExit 1] /\
  exit_code (RunExamples.run RunExamples.env_gas
                             RunExamples.portal_login_fails fresh) = Some 1.
Proof. split; vm_compute; reflexivity. Qed.

(** ** Unreadable history and responses without series *)

(** C9: a history file that cannot be read or parsed loads as the empty
    list; [storeUsageData] then reconciles a batch against the empty store
    and writes a file that holds records of the batch only. *)
Theorem unreadable_history_is_replaced :
  forall (Date_parse : string -> option Z) (s : serviceType) (clk : Clock)
         (batch : list (reading s)) (f : HistoryFile s),
    readable f = None ->
    loadHistoricalData s (readable f) = [] /\
    (batch <> [] ->
     storeUsageData Date_parse s clk batch (readable f)
     = storeUsageData Date_parse s clk batch (Some []) /\
     exists out,
       storeUsageData Date_parse s clk batch (readable f) = Some out /\
       forall x, In x out ->
                 exists r, In r batch /\ x = new_record s (now_iso clk) r).
Proof.
  intros Date_parse s clk batch f Hf. rewrite Hf. split; [reflexivity|].
  intros Hne. destruct batch as [|r0 batch]; [contradiction|].
  split; [reflexivity|]. eexists. split; [reflexivity|].
  intros x Hx. apply filter_In in Hx. destruct Hx as [Hx _].
  apply sort_In in Hx.
  apply (In_fold_upsert s (now_iso clk) (r0 :: batch)) in Hx.
  destruct Hx as [[]|Hx]. exact Hx.
Qed.

Lemma unreadable_history_is_replaced_witness :
  storeUsageData ExampleDate.Date_parse GAS Examples.clk Examples.batch_good
                 (readable (@Unparseable GAS))
  = Some [Examples.new (Examples.gas "5/2" "05/02/2024" 2 None);
          Examples.new (Examples.gas "5/3" "05/03/2024" 4 (Some 5%float))].
Proof.
  destruct (unreadable_history_is_replaced ExampleDate.Date_parse GAS
              Examples.clk Examples.batch_good Unparseable eq_refl) as [_ H].
  destruct H as [H _]; [discriminate|].
  rewrite H. vm_compute. reflexivity.
Defined.

(** C10: a gas response whose JSON object lacks [Series1] or [TickSeries]
    decodes to the empty batch; [storeUsageData] returns without touching
    the file; the run records gas as a success with 0 records and, the
    browser launched and the login completed, exits with 0. *)
Theorem gas_without_series_succeeds :
  forall (Date_parse : string -> option Z) (getFullYear getMonth : Z -> Z)
         (env : Env) (portal : Portal) (rc : RunClock) (w : World)
         (raw_data : Payload),
    gas_body portal = Json raw_data ->
    Series1 raw_data = None \/ TickSeries raw_data = None ->
    processGasData Date_parse rc raw_data = [] /\
    (forall file,
        storeUsageData Date_parse GAS (clock rc)
                       (processGasData Date_parse rc raw_data) file = file) /\
    (launch_ok portal = true -> login_ok portal = true ->
     meter_set env GAS = true ->
     let r := fetch_once Date_parse getFullYear getMonth env portal rc w in
     gas_history_file (fst r) = gas_history_file w /\
     In (Summary GAS true 0) (trace (fst r)) /\
     exit_code r = Some 0).
Proof.
  intros Date_parse getFullYear getMonth env portal rc w p Hb Hp.
  assert (Hd : processGasData Date_parse rc p = []).
  { unfold processGasData. destruct Hp as [-> | ->]; [reflexivity|].
    destruct (Series1 p); reflexivity. }
  split; [exact Hd|]. split; [intros file; rewrite Hd; reflexivity|].
  intros Hl Hg Hm r.
  destruct (fetch_once_spec Date_parse getFullYear getMonth env portal rc w)
    as (ng & ne & Ht & Hx & Hp').
  destruct (Hp' p Hl Hg Hm Hb) as [Hn Hf].
  assert (Hc : completes env portal GAS = true).
  { unfold completes. now rewrite Hm, Hb. }
  subst r. split; [now apply Hf|]. split.
  - rewrite Ht, Hl, Hg. unfold collection_log. rewrite Hm, Hc, Hn, Hd.
    repeat (rewrite in_app_iff || simpl). auto 15.
  - rewrite Hx, Hl, Hg, Hc. reflexivity.
Qed.

Lemma gas_without_series_succeeds_witness :
  let r := fetch_once ExampleDate.Date_parse ExampleDate.getFullYear
             ExampleDate.getMonth RunExamples.env_gas
             RunExamples.portal_no_series RunExamples.rc
             (RunExamples.with_gas_history Examples.history) in
  gas_history_file (fst r) = @Parsed GAS Examples.history /\
  In (Summary GAS true 0) (trace (fst r)) /\
  exit_code r = Some 0.
Proof.
  destruct (gas_without_series_succeeds ExampleDate.Date_parse
              ExampleDate.getFullYear ExampleDate.getMonth RunExamples.env_gas
              RunExamples.portal_no_series RunExamples.rc
              (RunExamples.with_gas_history Examples.history)
              RunExamples.no_series eq_refl (or_introl eq_refl))
    as (_ & _ & H).
  exact (H eq_refl eq_refl eq_refl).
Defined.

(** * Further properties of the code *)

(** ** The reconciler: what a call leaves of the old store *)

Section StoreFacts.
Variable Date_parse : string -> option Z.
Variable s : serviceType.

Lemma In_upd_other k v h x :
  In x h -> rec_date s x <> k -> In x (upd s k v h).
Proof.
  induction h as [|y t IH]; simpl; [intros []|].
  intros [->|Hx] Hk.
  - destruct (String.eqb_spec (rec_date s x) k); [contradiction|now left].
  - destruct (String.eqb (rec_date s y) k); right; auto.
Qed.

Lemma In_fold_upsert_other now batch : forall h x,
  In x h -> (forall r, In r batch -> dateKey s r <> rec_date s x) ->
  In x (fold_left (upsert s now) batch h).
Proof.
  induction batch as [|r t IH]; intros h x Hx Hk; simpl; [exact Hx|].
  apply IH; [|intros r' Hr'; apply Hk; now right].
  rewrite upsert_upd. apply In_upd_other; [exact Hx|].
  intros H. apply (Hk r); [now left|now symmetry].
Qed.

Lemma upd_dates k v h :
  rec_date s v = k ->
  map (rec_date s) (upd s k v h) =
  if in_dec string_dec k (map (rec_date s) h)
  then map (rec_date s) h else map (rec_date s) h ++ [k].
Proof.
  intros Hv. destruct (in_dec string_dec k (map (rec_date s) h)) as [Hin|Hout].
  - rewrite <- (app_nil_r h) at 1. rewrite upd_app_in by exact Hin.
    rewrite app_nil_r. now apply over_dates.
  - rewrite <- (app_nil_r h) at 1.
    destruct (upd_app_out s k v h [] Hout) as [-> _].
    rewrite map_app. simpl. now rewrite Hv.
Qed.

Lemma fold_upsert_NoDup now batch : forall h,
  NoDup (map (rec_date s) h) ->
  NoDup (map (rec_date s) (fold_left (upsert s now) batch h)).
Proof.
  induction batch as [|r t IH]; intros h Hh; simpl; [exact Hh|].
  apply IH. rewrite upsert_upd, upd_dates by apply new_record_date.
  destruct (in_dec string_dec (dateKey s r) (map (rec_date s) h)) as [Hin|Hout];
    [exact Hh|].
  apply NoDup_app; [exact Hh|repeat constructor; intros []|].
  intros y Hy [<-|[]]. contradiction.
Qed.

Lemma NoDup_map_filter (A B : Type) (f : A -> B) (p : A -> bool) l :
  NoDup (map f l) -> NoDup (map f (filter p l)).
Proof.
  induction l as [|x t IH]; simpl; [auto|].
  intros H. inversion H as [|? ? Hx Ht]; subst.
  destruct (p x); [|auto]. simpl. constructor; [|auto].
  intros Hin. apply Hx. apply in_map_iff in Hin.
  destruct Hin as [y [Hy Hyin]]. apply filter_In in Hyin.
  apply in_map_iff. exists y. tauto.
Qed.
End StoreFacts.

(** X1: a stored record whose date no reading of the batch names is carried
    over by [storeUsageData] exactly when it is within retention; it is
    never altered. *)
Theorem storeUsageData_keeps_other_records :
  forall (Date_parse : string -> option Z) (s : serviceType) (clk : Clock)
         (batch : list (reading s)) (file : option (list (record s)))
         (out : list (record s)) (x : record s),
    batch <> [] ->
    storeUsageData Date_parse s clk batch file = Some out ->
    (forall r, In r batch -> dateKey s r <> rec_date s x) ->
    (In x out <->
     In x (loadHistoricalData s file) /\
     within_retention Date_parse s (two_years_ago clk) x = true).
Proof.
  intros Date_parse s clk batch file out x Hne Hout Hk.
  destruct batch as [|r0 batch]; [contradiction|].
  injection Hout as <-. rewrite filter_In, sort_In. split.
  - intros [Hx Hw]. split; [|exact Hw].
    apply (In_fold_upsert s (now_iso clk) (r0 :: batch)) in Hx.
    destruct Hx as [Hx|[r [Hr ->]]]; [exact Hx|].
    exfalso. apply (Hk r Hr). now rewrite new_record_date.
  - intros [Hx Hw]. split; [|exact Hw].
    now apply (In_fold_upsert_other s (now_iso clk) (r0 :: batch)).
Qed.

Lemma storeUsageData_keeps_other_records_witness :
  In (Examples.old "5/1" "05/01/2024" 1 (Some 2%float))
     [Examples.old "5/1" "05/01/2024" 1 (Some 2%float);
      Examples.new (Examples.gas "5/2" "05/02/2024" 2 None);
      Examples.new (Examples.gas "5/3" "05/03/2024" 4 (Some 5%float))].
Proof.
  apply (storeUsageData_keeps_other_records ExampleDate.Date_parse GAS
           Examples.clk Examples.batch_good (Some Examples.history)).
  - discriminate.
  - vm_compute. reflexivity.
  - intros r [<-|[<-|[]]]; discriminate.
  - split; [left; reflexivity|vm_compute; reflexivity].
Defined.

(** X2: if no two records of the stored file share a date, no two records
    of the written file do, whatever the batch holds (repeated keys in the
    batch collapse into one record). *)
Theorem storeUsageData_unique_dates :
  forall (Date_parse : string -> option Z) (s : serviceType) (clk : Clock)
         (batch : list (reading s)) (file : option (list (record s)))
         (out : list (record s)),
    NoDup (map (rec_date s) (loadHistoricalData s file)) ->
    storeUsageData Date_parse s clk batch file = Some out ->
    NoDup (map (rec_date s) out).
Proof.
  intros Date_parse s clk batch file out Hnd Hout.
  destruct batch as [|r0 batch].
  - simpl in Hout. subst file. exact Hnd.
  - injection Hout as <-. apply NoDup_map_filter.
    apply (Permutation_NoDup
             (l := map (rec_date s)
                       (fold_left (upsert s (now_iso clk)) (r0 :: batch)
                                  (loadHistoricalData s file)))).
    + apply Permutation_map. symmetry. apply sort_perm.
    + now apply fold_upsert_NoDup.
Qed.

Lemma storeUsageData_unique_dates_witness :
  NoDup (map g_date
           [Examples.old "5/1" "05/01/2024" 1 (Some 2%float);
            Examples.new (Examples.gas "5/3" "05/03/2024" 4 (Some 5%float))]).
Proof.
  apply (storeUsageData_unique_dates ExampleDate.Date_parse GAS Examples.clk
           [Examples.gas "5/3" "05/03/2024" 9 None;
            Examples.gas "5/3" "05/03/2024" 4 (Some 5%float)]
           (Some Examples.history)).
  - repeat constructor; simpl; intuition discriminate.
  - vm_compute. reflexivity.
Defined.

(** ** The decoders *)

Lemma split_slash_free cur l :
  (forall c, In c l -> c <> "/"%char) ->
  JS.split_slash cur l = [rev cur ++ l].
Proof.
  revert cur. induction l as [|c t IH]; intros cur H; simpl.
  - now rewrite app_nil_r.
  - destruct (Ascii.eqb_spec c "/"%char) as [Hc|_].
    + exfalso. apply (H c); [now left|exact Hc].
    + rewrite IH by (intros d Hd; apply H; now right).
      simpl. now rewrite <- app_assoc.
Qed.

Lemma split_slash_at cur m d :
  (forall c, In c m -> c <> "/"%char) ->
  JS.split_slash cur (m ++ "/"%char :: d) = (rev cur ++ m) :: JS.split_slash [] d.
Proof.
  revert cur. induction m as [|c t IH]; intros cur H; simpl.
  - now rewrite app_nil_r.
  - destruct (Ascii.eqb_spec c "/"%char) as [Hc|_].
    + exfalso. apply (H c); [now left|exact Hc].
    + rewrite IH by (intros x Hx; apply H; now right).
      simpl. now rewrite <- app_assoc.
Qed.

Lemma list_ascii_of_string_app a b :
  list_ascii_of_string (a ++ b)%string
  = list_ascii_of_string a ++ list_ascii_of_string b.
Proof. induction a as [|c a IH]; simpl; [reflexivity|now rewrite IH]. Qed.

(** X3: how a tick label becomes a date.  A label without a separator is
    skipped; a label [month/day] with both parts non-empty is read as
    month, day, each left-padded with 0 to two characters, and the current
    year. *)
Theorem full_date_of_label_spec :
  forall (year : Z),
    (forall label, slash_free label -> full_date_of_label year label = None) /\
    (forall month day,
        slash_free month -> slash_free day ->
        month <> EmptyString -> day <> EmptyString ->
        full_date_of_label year (month ++ "/" ++ day)
        = Some (padStart2 month ++ "/" ++ padStart2 day ++ "/"
                ++ string_of_integer year))%string /\
    (forall day, full_date_of_label year ("/" ++ day)%string = None) /\
    (forall month, slash_free month ->
                   full_date_of_label year (month ++ "/")%string = None).
Proof.
  intros year. unfold full_date_of_label, JS.split. repeat split.
  - intros label H. rewrite split_slash_free by exact H. reflexivity.
  - intros month day Hm Hd Hmne Hdne.
    rewrite list_ascii_of_string_app. simpl.
    rewrite split_slash_at by exact Hm.
    rewrite split_slash_free by exact Hd. simpl.
    rewrite !string_of_list_ascii_of_string.
    destruct (String.eqb_spec month EmptyString); [contradiction|].
    destruct (String.eqb_spec day EmptyString); [contradiction|].
    reflexivity.
  - intros day. simpl.
    destruct (map string_of_list_ascii
                (JS.split_slash [] (list_ascii_of_string day)));
      reflexivity.
  - intros month Hm. rewrite list_ascii_of_string_app. simpl.
    rewrite split_slash_at by exact Hm. simpl.
    rewrite string_of_list_ascii_of_string.
    destruct (String.eqb month EmptyString); reflexivity.
Qed.

Lemma full_date_of_label_spec_witness :
  full_date_of_label 2024 "115" = None /\
  full_date_of_label 2024 "5/2" = Some "05/02/2024"%string.
Proof.
  destruct (full_date_of_label_spec 2024) as (Hnone & Hsome & _).
  split.
  - apply Hnone. intros c [<-|[<-|[<-|[]]]]; discriminate.
  - apply (Hsome "5" "2")%string.
    + intros c [<-|[]]; discriminate.
    + intros c [<-|[]]; discriminate.
    + discriminate.
    + discriminate.
Defined.

Section DecoderFacts.
Variable Date_parse : string -> option Z.
Variable rc : RunClock.

Lemma In_gas_rows usage av labels unit r : forall i,
  In r (gas_rows rc i usage av labels unit) <->
  exists j u label full_date,
    nth_error usage j = Some u /\
    nth_error labels (i + j) = Some label /\
    full_date_of_label (current_year rc) label = Some full_date /\
    r = {| gr_date := label; gr_full_date := full_date; gr_usage_ccf := u;
           gr_average_ccf := average_at av (i + j); gr_unit := unit;
           gr_timestamp := now_iso (clock rc) |}.
Proof.
  induction usage as [|u0 rest IH]; intros i; simpl.
  - split; [intros []|]. intros (j & u & ? & ? & H & _). now destruct j.
  - assert (Hlater : In r (gas_rows rc (S i) rest av labels unit) <->
              exists j u label full_date,
                nth_error rest j = Some u /\
                nth_error labels (i + S j) = Some label /\
                full_date_of_label (current_year rc) label = Some full_date /\
                r = {| gr_date := label; gr_full_date := full_date;
                       gr_usage_ccf := u;
                       gr_average_ccf := average_at av (i + S j);
                       gr_unit := unit; gr_timestamp := now_iso (clock rc) |}).
    { rewrite IH. split; intros (j & u & l & fd & H1 & H2 & H3 & H4);
        exists j, u, l, fd; rewrite Nat.add_succ_r in *; simpl in *; auto. }
    assert (Hhere : forall P : Prop,
              (P <-> exists label full_date,
                  nth_error labels i = Some label /\
                  full_date_of_label (current_year rc) label = Some full_date /\
                  r = {| gr_date := label; gr_full_date := full_date;
                         gr_usage_ccf := u0;
                         gr_average_ccf := average_at av i;
                         gr_unit := unit; gr_timestamp := now_iso (clock rc) |}) ->
              (P \/ In r (gas_rows rc (S i) rest av labels unit) <->
               exists j u label full_date,
                 nth_error (u0 :: rest) j = Some u /\
                 nth_error labels (i + j) = Some label /\
                 full_date_of_label (current_year rc) label = Some full_date /\
                 r = {| gr_date := label; gr_full_date := full_date;
                        gr_usage_ccf := u;
                        gr_average_ccf := average_at av (i + j);
                        gr_unit := unit; gr_timestamp := now_iso (clock rc) |})).
    { intros P HP. rewrite HP, Hlater. split.
      - intros [(l & fd & H1 & H2 & H3)|(j & u & l & fd & H1 & H2 & H3 & H4)].
        + exists O, u0, l, fd. rewrite Nat.add_0_r. auto.
        + exists (S j), u, l, fd. auto.
      - intros (j & u & l & fd & H1 & H2 & H3 & H4). destruct j as [|j].
        + left. rewrite Nat.add_0_r in *. simpl in H1. injection H1 as <-.
          exists l, fd. auto.
        + right. exists j, u, l, fd. auto. }
    destruct (nth_error labels i) as [label|] eqn:Hl.
    + destruct (full_date_of_label (current_year rc) label) as [fd|] eqn:Hfd.
      * simpl. apply Hhere. unfold average_at. split.
        -- intros <-. exists label, fd. auto.
        -- intros (l & fd' & H1 & H2 & ->). injection H1 as <-.
           rewrite Hfd in H2. injection H2 as <-. reflexivity.
      * rewrite <- (Hhere False); [tauto|]. split; [intros []|].
        intros (l & fd' & H1 & H2 & _). injection H1 as <-. congruence.
    + rewrite <- (Hhere False); [tauto|]. split; [intros []|].
      intros (l & fd' & H1 & _). discriminate.
Qed.

Lemma gas_rows_length usage av labels unit : forall i,
  (List.length (gas_rows rc i usage av labels unit) <= List.length usage)%nat.
Proof.
  induction usage as [|u rest IH]; intros i; simpl; [lia|].
  specialize (IH (S i)).
  destruct (nth_error labels i) as [label|]; [|lia].
  destruct (full_date_of_label (current_year rc) label); simpl; lia.
Qed.
End DecoderFacts.

(** X4: [processGasData] decodes index by index.  A reading comes out for
    exactly the indices of [Series1] whose tick label exists and is
    well-formed; it carries that usage, that label and the average at that
    index; an index with a bad or missing label is skipped alone, so the
    batch is never longer than [Series1]. *)
Theorem processGasData_rows :
  forall (Date_parse : string -> option Z) (rc : RunClock) (raw_data : Payload)
         (usage_values : list float) (date_labels : list string),
    Series1 raw_data = Some usage_values ->
    TickSeries raw_data = Some date_labels ->
    (forall r,
        In r (processGasData Date_parse rc raw_data) <->
        exists i usage label full_date,
          nth_error usage_values i = Some usage /\
          nth_error date_labels i = Some label /\
          full_date_of_label (current_year rc) label = Some full_date /\
          r = {| gr_date := label; gr_full_date := full_date;
                 gr_usage_ccf := usage;
                 gr_average_ccf := average_at (Series2 raw_data) i;
                 gr_unit := JS.or_str (UnitOfMeasure raw_data) "CCF";
                 gr_timestamp := now_iso (clock rc) |}) /\
    (List.length (processGasData Date_parse rc raw_data)
     <= List.length usage_values)%nat.
Proof.
  intros Date_parse rc p usage labels H1 H2.
  unfold processGasData. rewrite H1, H2. split.
  - intros r. rewrite sort_In. exact (In_gas_rows Date_parse rc _ _ _ _ r O).
  - rewrite (Permutation_length (sort_perm _ _)). apply gas_rows_length; exact Date_parse.
Qed.

Lemma processGasData_rows_witness :
  In {| gr_date := "5/1"; gr_full_date := "05/01/2024"; gr_usage_ccf := 6;
        gr_average_ccf := None; gr_unit := "CCF";
        gr_timestamp := now_iso Examples.clk |}
     DecoderExample.decoded /\
  (List.length DecoderExample.decoded <= 3)%nat.
Proof.
  destruct (processGasData_rows ExampleDate.Date_parse RunExamples.rc
              DecoderExample.payload _ _ eq_refl eq_refl) as [H L].
  split; [|exact L].
  apply H. exists 2%nat, 6%float, "5/1"%string, "05/01/2024"%string.
  repeat split.
Defined.

Section SortByDate.
Variable Date_parse : string -> option Z.
Context {A : Type}.
Variable f : A -> string.

Let key (x : A) : Z := match Date_parse (f x) with Some t => t | None => 0 end.

(** A sort by the date string, on valid dates, is a sort by time. *)
Lemma sort_by_date_sorted l :
  (forall x, In x l -> Date_parse (f x) <> None) ->
  StronglySorted (fun a b => full_date_le Date_parse (f a) (f b))
                 (JS.sort (fun a b => full_date_lt Date_parse (f a) (f b)) l).
Proof.
  intros Hv.
  rewrite (sort_ext _ (fun a b => key a <? key b)).
  2:{ intros x y Hx Hy. unfold full_date_lt, key.
      specialize (Hv x Hx) as Hvx. specialize (Hv y Hy) as Hvy.
      destruct (Date_parse (f x)); [|contradiction].
      destruct (Date_parse (f y)); [|contradiction]. reflexivity. }
  assert (Hs : forall x, In x (JS.sort (fun a b => key a <? key b) l) ->
                         Date_parse (f x) <> None).
  { intros x Hx. apply Hv. now apply sort_In in Hx. }
  pose proof (sort_sorted key l) as Hsorted.
  induction Hsorted as [|x t Ht IH Hx]; [constructor|].
  constructor.
  - apply IH. intros y Hy. apply Hs. now right.
  - rewrite Forall_forall in *. intros y Hy.
    specialize (Hx y Hy). unfold full_date_le, key in *.
    pose proof (Hs x (or_introl eq_refl)) as Hvx.
    pose proof (Hs y (or_intror Hy)) as Hvy.
    destruct (Date_parse (f x)); [|contradiction].
    destruct (Date_parse (f y)); [|contradiction]. exact Hx.
Qed.
End SortByDate.

(** X5: [processGasData] returns the batch in ascending order of date
    whenever every decoded date string is a valid date. *)
Theorem processGasData_sorted :
  forall (Date_parse : string -> option Z) (rc : RunClock) (raw_data : Payload),
    (forall r, In r (processGasData Date_parse rc raw_data) ->
               Date_parse (gr_full_date r) <> None) ->
    StronglySorted
      (fun a b => full_date_le Date_parse (gr_full_date a) (gr_full_date b))
      (processGasData Date_parse rc raw_data).
Proof.
  intros Date_parse rc p Hv. unfold processGasData in *.
  destruct (Series1 p) as [usage|]; [|constructor].
  destruct (TickSeries p) as [labels|]; [|constructor].
  apply sort_by_date_sorted. intros x Hx. apply Hv. now apply sort_In.
Qed.

Lemma processGasData_sorted_witness :
  StronglySorted
    (fun a b => full_date_le ExampleDate.Date_parse (gr_full_date a) (gr_full_date b))
    DecoderExample.decoded.
Proof.
  apply processGasData_sorted.
  intros r [<-|[<-|[]]]; discriminate.
Defined.

Section SortRelated.
Context {A B : Type}.
Variable R : A -> B -> Prop.
Variable lt : A -> A -> bool.
Variable lt' : B -> B -> bool.
Hypothesis lt_related :
  forall a a' b b', R a a' -> R b b' -> lt a b = lt' a' b'.

Lemma related_insert x x' l l' :
  R x x' -> Forall2 R l l' ->
  Forall2 R (JS.insert lt x l) (JS.insert lt' x' l').
Proof.
  intros Hx. induction 1 as [|y y' t t' Hy Ht IH]; simpl.
  - repeat constructor. exact Hx.
  - rewrite (lt_related y y' x x') by assumption.
    destruct (lt' y' x'); repeat constructor; auto.
Qed.

Lemma related_sort l l' :
  Forall2 R l l' -> Forall2 R (JS.sort lt l) (JS.sort lt' l').
Proof. induction 1; simpl; [constructor|]. now apply related_insert. Qed.
End SortRelated.

Lemma full_date_of_label_nonempty year label full_date :
  full_date_of_label year label = Some full_date ->
  String.eqb full_date EmptyString = false.
Proof.
  unfold full_date_of_label.
  destruct (JS.split label) as [|month [|day rest]]; try discriminate.
  destruct (JS.truthy_str (Some month) && JS.truthy_str (Some day));
    [|discriminate].
  intros H. injection H as <-.
  destruct (padStart2 month); reflexivity.
Qed.

Lemma electric_rows_same rc usage av labels unit : forall i,
  Forall2 same_row (electric_rows rc i usage labels)
          (gas_rows rc i usage av labels unit).
Proof.
  induction usage as [|u rest IH]; intros i; simpl; [constructor|].
  destruct (nth_error labels i) as [label|]; [|apply IH].
  destruct (full_date_of_label (current_year rc) label) as [fd|] eqn:Hfd;
    [|apply IH].
  constructor; [|apply IH].
  unfold same_row. simpl.
  rewrite (full_date_of_label_nonempty _ _ _ Hfd). repeat split.
Qed.

(** X6: on one response, [processElectricJsonData] decodes the rows that
    [processGasData] decodes, in the same order, with the same label, date
    and quantity; it leaves [energy] and [date_label] unset. *)
Theorem processElectricJsonData_as_gas :
  forall (Date_parse : string -> option Z) (rc : RunClock) (raw_data : Payload),
    Forall2 same_row
            (processElectricJsonData Date_parse rc raw_data)
            (processGasData Date_parse rc raw_data).
Proof.
  intros Date_parse rc p. unfold processElectricJsonData, processGasData.
  destruct (Series1 p) as [usage|]; [|constructor].
  destruct (TickSeries p) as [labels|]; [|constructor].
  apply related_sort; [|apply electric_rows_same].
  intros a a' b b' (_ & _ & _ & Ha & _) (_ & _ & _ & Hb & _).
  now rewrite Ha, Hb.
Qed.

(** ** The exporter *)

Section DaysFacts.
Variable Date_parse : string -> option Z.
Variable getFullYear : Z -> Z.
Variable getMonth : Z -> Z.
Variable s : serviceType.

Lemma entry_days_add e x : entry_days s (add_usage s e x) = entry_days s e + 1.
Proof. destruct s; reflexivity. Qed.

Lemma entry_days_empty k : entry_days s (empty_month s k) = 0.
Proof. destruct s; reflexivity. Qed.

Lemma entry_days_finish e : entry_days s (finish_month s e) = entry_days s e.
Proof. destruct s; reflexivity. Qed.

Lemma sum_days_accumulate k x md :
  sum_days s (map snd (accumulate s k x md)) = sum_days s (map snd md) + 1.
Proof.
  induction md as [|[k' e] rest IH]; simpl.
  - rewrite entry_days_add, entry_days_empty. lia.
  - destruct (String.eqb k' k); simpl.
    + rewrite entry_days_add. unfold sum_days. lia.
    + unfold sum_days in *. simpl in *. lia.
Qed.

Lemma sum_days_perm l l' :
  Permutation l l' -> sum_days s l = sum_days s l'.
Proof.
  unfold sum_days. induction 1; simpl; lia.
Qed.
End DaysFacts.

(** The day counts of the rollup add up to the number of records. *)
Lemma monthly_days_total Date_parse getFullYear getMonth s (h : list (record s)) :
  sum_days s (createMonthlySummary Date_parse getFullYear getMonth s h)
  = Z.of_nat (List.length h).
Proof.
  unfold createMonthlySummary.
  rewrite (sum_days_perm s _ _ (sort_perm _ _)).
  rewrite <- (map_map snd (finish_month s)).
  assert (H : forall l : list (month_entry s),
             sum_days s (map (finish_month s) l) = sum_days s l).
  { induction l as [|e t IH]; [reflexivity|].
    unfold sum_days in *. simpl. now rewrite entry_days_finish, IH. }
  rewrite H. clear H.
  induction h as [|x h IH] using rev_ind; [reflexivity|].
  rewrite fold_left_app. simpl. rewrite sum_days_accumulate, IH.
  rewrite length_app. simpl. lia.
Qed.

(** X7: the monthly rollup counts every record of the series once: the day
    counts of the months add up to the number of records, for gas and for
    electricity, valid dates or not. *)
Theorem createMonthlySummary_days_total :
  forall (Date_parse : string -> option Z) (getFullYear getMonth : Z -> Z)
         (s : serviceType) (h : list (record s)),
    sum_days s (createMonthlySummary Date_parse getFullYear getMonth s h)
    = Z.of_nat (List.length h).
Proof.
  intros Date_parse getFullYear getMonth s h. unfold createMonthlySummary.
  rewrite (sum_days_perm s _ _ (sort_perm _ _)).
  assert (H : forall md : list (string * month_entry s),
             sum_days s (map (fun kv => finish_month s (snd kv)) md)
             = sum_days s (map snd md)).
  { induction md as [|[k e] t IH]; [reflexivity|].
    unfold sum_days in *. simpl. rewrite entry_days_finish, IH. reflexivity. }
  rewrite H. clear H.
  induction h as [|x h IH] using rev_ind; [reflexivity|].
  rewrite fold_left_app. simpl. rewrite sum_days_accumulate, IH.
  rewrite length_app. simpl. lia.
Qed.

Lemma electric_total_kwh_fold l e :
  em_total_kwh (fold_left (add_usage ELECTRIC) l e) =
  fold_left (fun acc x => acc + e_usage_kwh x)%float l (em_total_kwh e).
Proof. revert e. induction l as [|x t IH]; intros e; simpl; [|rewrite IH]; reflexivity. Qed.

Lemma electric_days_fold l e :
  em_days (fold_left (add_usage ELECTRIC) l e) = em_days e + Z.of_nat (List.length l).
Proof.
  revert e. induction l as [|x t IH]; intros e.
  - simpl. lia.
  - cbn [fold_left List.length]. rewrite IH. simpl em_days. lia.
Qed.

(** X8: [createMonthlySummary] on the electric series gives one aggregate
    per month key, in ascending order of the key, every record's month among
    them; each holds the number of records of the month, their [usage_kwh]
    added up in series order and rounded to 3 decimals, and the daily average
    taken from the unrounded total. *)
Theorem createMonthlySummary_electric :
  forall (Date_parse : string -> option Z) (getFullYear getMonth : Z -> Z)
         (h : list ElectricRecord),
    let key := fun x => month_key Date_parse getFullYear getMonth (e_date x) in
    let out := createMonthlySummary Date_parse getFullYear getMonth ELECTRIC h in
    StronglySorted (fun a b => String.leb (em_month a) (em_month b) = true) out /\
    NoDup (map em_month out) /\
    (forall x, In x h -> exists e, In e out /\ em_month e = key x) /\
    (forall e, In e out ->
       let grp := month_group Date_parse getFullYear getMonth ELECTRIC (em_month e) h in
       grp <> [] /\
       em_days e = Z.of_nat (List.length grp) /\
       em_total_kwh e = JS.toFixed_parse 3 (running_total e_usage_kwh grp) /\
       em_average_daily_kwh e =
         JS.toFixed_parse 3 (running_total e_usage_kwh grp / JS.of_Z (em_days e))) /\
    ElectricExample.summary ElectricExample.series =
      [ {| em_month := "2024-05"; em_total_kwh := 30.75; em_days := 2;
           em_average_daily_kwh := 15.375 |};
        {| em_month := "2024-06"; em_total_kwh := 5; em_days := 1;
           em_average_daily_kwh := 5 |} ].
Proof.
  intros Date_parse getFullYear getMonth h key out.
  destruct (monthly_data_spec Date_parse getFullYear getMonth ELECTRIC h)
    as (Hnd & Hent & Hcov).
  set (md := fold_left
               (fun md x => accumulate ELECTRIC
                  (month_key Date_parse getFullYear getMonth (rec_date ELECTRIC x)) x md)
               h []) in *.
  assert (Hmonth : forall k e, In (k, e) md -> em_month e = k).
  { intros k e He. destruct (Hent k e He) as [-> _].
    change (entry_month ELECTRIC
              (fold_left (add_usage ELECTRIC)
                 (month_group Date_parse getFullYear getMonth ELECTRIC k h)
                 (empty_month ELECTRIC k)) = k).
    now rewrite entry_month_fold, entry_month_empty. }
  assert (Hkeys : map em_month (map (fun kv => finish_month ELECTRIC (snd kv)) md)
                  = map fst md).
  { rewrite map_map. apply map_ext_in. intros [k e] He. simpl. now apply Hmonth. }
  assert (Hout : forall e, In e out ->
            exists k e0, In (k, e0) md /\ e = finish_month ELECTRIC e0).
  { intros e He. apply sort_In in He. apply in_map_iff in He.
    destruct He as [[k e0] [<- He0]]. eauto. }
  split; [|split; [|split; [|split]]].
  - apply (sorted_ltb_leb _ em_month). apply (month_sorted ELECTRIC).
  - apply (Permutation_NoDup (l := map fst md)); [|exact Hnd].
    rewrite <- Hkeys. apply Permutation_map. symmetry. apply sort_perm.
  - intros x Hx. specialize (Hcov x Hx). apply in_map_iff in Hcov.
    destruct Hcov as [[k e0] [Hk He0]]. simpl in Hk.
    exists (finish_month ELECTRIC e0). split.
    + apply sort_In. apply in_map_iff. exists (k, e0). auto.
    + simpl. rewrite (Hmonth _ _ He0). exact Hk.
  - intros e He. destruct (Hout e He) as (k & e0 & He0 & ->).
    destruct (Hent _ _ He0) as [Hraw Hgrp].
    simpl em_month. rewrite (Hmonth _ _ He0).
    assert (Hd : em_days e0 =
                 Z.of_nat (List.length (month_group Date_parse getFullYear getMonth ELECTRIC k h))).
    { rewrite Hraw, electric_days_fold. reflexivity. }
    assert (Hc : em_total_kwh e0 =
                 running_total e_usage_kwh
                   (month_group Date_parse getFullYear getMonth ELECTRIC k h)).
    { rewrite Hraw, electric_total_kwh_fold. reflexivity. }
    cbv zeta. unfold finish_month.
    cbn [em_days em_total_kwh em_average_daily_kwh].
    rewrite <- Hc.
    repeat split; [exact Hgrp|exact Hd].
  - vm_compute. reflexivity.
Qed.

Section WorldFacts.
Variable s : serviceType.

Lemma history_file_set_same f w : history_file s (set_history_file s f w) = f.
Proof. destruct s; reflexivity. Qed.

Lemma views_set_history s' f w : views s' (set_history_file s f w) = views s' w.
Proof. destruct s, s'; reflexivity. Qed.

Lemma views_set_same v w : views s (set_views s v w) = v.
Proof. destruct s; reflexivity. Qed.

Lemma history_file_set_views s' v w :
  history_file s' (set_views s v w) = history_file s' w.
Proof. destruct s, s'; reflexivity. Qed.

Lemma views_set_other s' v w : s' <> s -> views s' (set_views s v w) = views s' w.
Proof. destruct s, s'; intros H; try reflexivity; contradiction. Qed.
End WorldFacts.

Lemma sorted_last_max (A : Type) (R : A -> A -> Prop) l z :
  StronglySorted R (l ++ [z]) -> R z z -> forall x, In x (l ++ [z]) -> R x z.
Proof.
  intros Hs Hz. induction l as [|y t IH]; simpl in *.
  - intros x [<-|[]]. exact Hz.
  - inversion Hs as [|? ? Ht Hy]; subst. intros x [<-|Hx].
    + rewrite Forall_forall in Hy. apply Hy. apply in_or_app. right. now left.
    + now apply IH.
Qed.

(** The written series is sorted when all dates are valid. *)
Lemma stored_sorted Date_parse s clk batch file :
  batch <> [] ->
  dates_valid Date_parse s batch file ->
  exists out,
    storeUsageData Date_parse s clk batch file = Some out /\
    StronglySorted (date_le Date_parse s) out /\
    Forall (fun x => Date_parse (rec_date s x) <> None) out.
Proof.
  intros Hne Hv. destruct batch as [|r batch]; [contradiction|].
  eexists. split; [reflexivity|].
  pose proof (merged_valid Date_parse s (now_iso clk) _ _ Hv) as Hm.
  assert (Hout : Forall (fun x => Date_parse (rec_date s x) <> None)
            (filter (within_retention Date_parse s (two_years_ago clk))
               (JS.sort (date_lt Date_parse s)
                  (fold_left (upsert s (now_iso clk)) (r :: batch)
                     (loadHistoricalData s file))))).
  { rewrite Forall_forall in *. intros x Hx.
    apply filter_In in Hx. destruct Hx as [Hx _].
    apply sort_In in Hx. now apply Hm. }
  split; [|exact Hout].
  apply sorted_key_date_le; [exact Hout|].
  rewrite sort_date_key by exact Hm.
  apply filter_sorted, sort_sorted.
Qed.

(** X9: reconciling and then exporting, as each pipeline does.  With valid
    dates, and with numbers in the written file that JSON gives back as
    they were written (finite, not -0), the views are taken from the file
    just written: the latest view is a record of that file that no record
    is dated after, the recent view its records from [thirty_days_ago] on,
    the rollup is the monthly summary of that file and counts each of its
    records once, and the cost stats have one entry per record; and when
    the file ends up empty the views of the last run stay as they are. *)
Theorem export_after_store :
  forall (Date_parse : string -> option Z) (getFullYear getMonth : Z -> Z)
         (rc : RunClock) (s : serviceType) (data : list (reading s)) (w : World),
    data <> [] ->
    dates_valid Date_parse s data (readable (history_file s w)) ->
    exists w' out,
      (store Date_parse rc s data ;;
       exportForHomeAssistant Date_parse getFullYear getMonth rc s) w
      = (w', Return tt) /\
      history_file s w' = Parsed out /\
      (out = [] -> views s w' = views s w) /\
      (out <> [] ->
       forallb (json_exact s) out = true ->
       exists v,
         views s w' = Some v /\
         In (v_latest s v) out /\
         (forall x, In x out -> date_le Date_parse s x (v_latest s v)) /\
         v_recent s v
         = filter (within_retention Date_parse s (thirty_days_ago rc)) out /\
         v_monthly s v
         = createMonthlySummary Date_parse getFullYear getMonth s out /\
         sum_days s (v_monthly s v) = Z.of_nat (List.length out) /\
         List.length (v_energy_stats s v) = List.length out).
Proof.
  intros Date_parse getFullYear getMonth rc s data w Hne Hv.
  destruct (stored_sorted Date_parse s (clock rc) data _ Hne Hv)
    as (out & Hst & Hsorted & Hvalid).
  unfold bind, store, exportForHomeAssistant, modify.
  destruct data as [|r0 data]; [contradiction|].
  rewrite Hst. rewrite history_file_set_same. cbn [readable loadHistoricalData].
  destruct (rev out) as [|latest rest] eqn:Hrev.
  - do 2 eexists. split; [reflexivity|].
    rewrite history_file_set_same. split; [reflexivity|].
    split; [intros _; apply views_set_history|].
    intros Hout. exfalso. apply Hout.
    rewrite <- (rev_involutive out), Hrev. reflexivity.
  - do 2 eexists. split; [reflexivity|].
    rewrite history_file_set_views, history_file_set_same.
    split; [reflexivity|].
    assert (Hout : out = rev rest ++ [latest]).
    { rewrite <- (rev_involutive out), Hrev. reflexivity. }
    split; [intros H; rewrite H in Hrev; discriminate|].
    intros _ _. eexists. split; [apply views_set_same|].
    cbn [v_latest v_recent v_monthly v_energy_stats].
    split; [rewrite Hout; apply in_or_app; right; now left|].
    split; [|split; [reflexivity|split; [reflexivity|split]]].
    + rewrite Hout in *. apply sorted_last_max; [exact Hsorted|].
      rewrite Forall_forall in Hvalid.
      assert (Hl : In latest (rev rest ++ [latest]))
        by (apply in_or_app; right; now left).
      specialize (Hvalid latest Hl).
      unfold date_le, time_of.
      destruct (Date_parse (rec_date s latest)); [lia|contradiction].
    + apply monthly_days_total.
    + apply length_map.
Qed.

Lemma export_after_store_witness :
  exists w' out,
    (store ExampleDate.Date_parse RunExamples.rc GAS Examples.batch_fractions ;;
     exportForHomeAssistant ExampleDate.Date_parse ExampleDate.getFullYear
                            ExampleDate.getMonth RunExamples.rc GAS)
      (RunExamples.with_gas_history Examples.history)
    = (w', Return tt) /\
    gas_history_file w' = Parsed out /\
    forallb (json_exact GAS) out = true /\
    exists v, gas_views w' = Some v /\
              v_latest GAS v
              = Examples.new (Examples.gas "5/3" "05/03/2024" 3 (Some 2.5%float)) /\
              map gm_total_therms (v_monthly GAS v) = [4.252%float] /\
              sum_days GAS (v_monthly GAS v) = 3.
Proof.
  destruct (export_after_store ExampleDate.Date_parse ExampleDate.getFullYear
              ExampleDate.getMonth RunExamples.rc GAS Examples.batch_fractions
              (RunExamples.with_gas_history Examples.history))
    as (w' & out & E & Hf & _ & Hviews).
  - discriminate.
  - split; repeat constructor; discriminate.
  - exists w', out. split; [exact E|]. split; [exact Hf|].
    vm_compute in E. injection E as <-.
    cbn [gas_history_file history_file] in Hf. injection Hf as <-.
    split; [vm_compute; reflexivity|].
    destruct Hviews as (v & Hv & _ & _ & _ & Hm & Hd & _);
      [discriminate|vm_compute; reflexivity|].
    exists v. split; [exact Hv|].
    cbn [views gas_views] in Hv. injection Hv as <-.
    split; [reflexivity|]. split; [vm_compute; reflexivity|].
    vm_compute. reflexivity.
Defined.

(** ** The orchestrator: what a run touches *)

Section RunFrame.
Variable Date_parse : string -> option Z.
Variable getFullYear : Z -> Z.
Variable getMonth : Z -> Z.
Variable env : Env.
Variable portal : Portal.
Variable rc : RunClock.

(** The files and documents of a utility. *)
Let same_files (s : serviceType) (w w' : World) : Prop :=
  history_file s w' = history_file s w /\ views s w' = views s w.

Lemma same_files_refl s w : same_files s w w.
Proof. split; reflexivity. Qed.

Lemma same_files_trans s w1 w2 w3 :
  same_files s w1 w2 -> same_files s w2 w3 -> same_files s w1 w3.
Proof. unfold same_files. intros [H1 H2] [H3 H4]. split; congruence. Qed.

Lemma same_files_log s e w : same_files s w (log e w).
Proof. destruct s; split; reflexivity. Qed.

Lemma same_files_browser s b w : same_files s w (set_browser b w).
Proof. destruct s; split; reflexivity. Qed.

(** The pipeline of one utility leaves the other's files alone. *)
Lemma pipeline_body_frame s (data : list (reading s)) w :
  exists w',
    (store Date_parse rc s data ;;
     exportForHomeAssistant Date_parse getFullYear getMonth rc s ;;
     ret data) w = (w', Return data) /\
    trace w' = trace w /\ browser w' = browser w /\
    (forall s', s' <> s -> same_files s' w w').
Proof.
  unfold bind, store, exportForHomeAssistant, modify, ret.
  eexists. split; [reflexivity|].
  destruct data as [|r data].
  - destruct (rev (loadHistoricalData s (readable (history_file s w)))).
    + repeat split; reflexivity.
    + destruct s; repeat split; try reflexivity;
        destruct s'; try reflexivity; contradiction.
  - destruct (storeUsageData Date_parse s (clock rc) (r :: data)
                (readable (history_file s w))) as [out|].
    + match goal with
      | |- context [rev ?l] => destruct (rev l)
      end;
        destruct s; repeat split; try reflexivity;
        destruct s'; try reflexivity; contradiction.
    + destruct (rev (loadHistoricalData s (readable (history_file s w))));
        destruct s; repeat split; try reflexivity;
        destruct s'; try reflexivity; contradiction.
Qed.

Lemma collect_frame_gas w :
  exists w' r,
    collect env GAS (read_gas_api Date_parse getFullYear getMonth portal rc) w
    = (w', Return r) /\
    browser w' = browser w /\
    trace w' = trace w ++ (if meter_set env GAS then [PipelineStarted GAS] else []) /\
    success r = completes env portal GAS /\
    (forall s', s' <> GAS -> same_files s' w w') /\
    (completes env portal GAS = false -> same_files GAS w w').
Proof.
  unfold collect, completes. destruct (meter_set env GAS).
  - unfold read_gas_api, try_catch, bind at 1 2, emit.
    destruct (gas_body portal) as [| | |p].
    1-3: (simpl; do 2 eexists; split; [reflexivity|];
          repeat split; try reflexivity; destruct s'; reflexivity).
    cbv beta iota.
    destruct (pipeline_body_frame GAS (processGasData Date_parse rc p)
                (log (PipelineStarted GAS) w)) as (w' & E & T & B & F).
    cbv beta iota delta [reading] in E. rewrite E.
    do 2 eexists. split; [reflexivity|].
    split; [exact B|]. split; [exact T|]. split; [reflexivity|].
    split; [|discriminate].
    intros s' Hs.
    apply same_files_trans with (w2 := log (PipelineStarted GAS) w);
      [apply same_files_log|now apply F].
  - do 2 eexists. split; [reflexivity|]. rewrite app_nil_r.
    repeat split; reflexivity.
Qed.

Lemma collect_frame_electric w :
  exists w' r,
    collect env ELECTRIC
            (read_electric_api Date_parse getFullYear getMonth portal rc) w
    = (w', Return r) /\
    browser w' = browser w /\
    trace w' = trace w ++
               (if meter_set env ELECTRIC then [PipelineStarted ELECTRIC] else []) /\
    success r = completes env portal ELECTRIC /\
    (forall s', s' <> ELECTRIC -> same_files s' w w') /\
    (completes env portal ELECTRIC = false -> same_files ELECTRIC w w').
Proof.
  unfold collect, completes. destruct (meter_set env ELECTRIC).
  - unfold read_electric_api, try_catch, bind at 1 2, emit.
    assert (Hbody : forall data : list ElectricReading,
      exists w' r,
        match
          match (store Date_parse rc ELECTRIC data ;;
                 exportForHomeAssistant Date_parse getFullYear getMonth rc ELECTRIC ;;
                 ret data) (log (PipelineStarted ELECTRIC) w) with
          | (w', Return a) => ret (mkResult true None (List.length a)) w'
          | (w', Throw e) => (w', Throw e)
          | (w', Exited c) => (w', Exited c)
          end
        with
        | (w', Throw e) => ret (mkResult false (Some e) 0%nat) w'
        | r => r
        end = (w', Return r) /\
        browser w' = browser w /\
        trace w' = trace w ++ [PipelineStarted ELECTRIC] /\
        success r = true /\
        (forall s', s' <> ELECTRIC -> same_files s' w w')).
    { intros data.
      destruct (pipeline_body_frame ELECTRIC data (log (PipelineStarted ELECTRIC) w))
        as (w' & E & T & B & F).
      cbv beta iota delta [reading] in E. rewrite E.
      do 2 eexists. split; [reflexivity|].
      split; [exact B|]. split; [exact T|]. split; [reflexivity|].
      intros s' Hs.
      apply same_files_trans with (w2 := log (PipelineStarted ELECTRIC) w);
        [apply same_files_log|now apply F]. }
    simpl.
    destruct (electric_body portal) as [| | |p]; simpl.
    + do 2 eexists; split; [reflexivity|];
        repeat split; try reflexivity; destruct s'; reflexivity.
    + destruct (electric_xml portal) as [d|].
      * destruct (Hbody d) as (w' & r & E & B & T & S & F).
        exists w', r. split; [exact E|]. split; [exact B|]. split; [exact T|].
        split; [exact S|]. split; [exact F|]. intros H; cbn in H; discriminate H.
      * do 2 eexists; split; [reflexivity|];
          repeat split; try reflexivity; destruct s'; reflexivity.
    + destruct (electric_xml portal) as [d|].
      * destruct (Hbody d) as (w' & r & E & B & T & S & F).
        exists w', r. split; [exact E|]. split; [exact B|]. split; [exact T|].
        split; [exact S|]. split; [exact F|]. intros H; cbn in H; discriminate H.
      * do 2 eexists; split; [reflexivity|];
          repeat split; try reflexivity; destruct s'; reflexivity.
    + destruct (Hbody (processElectricJsonData Date_parse rc p))
        as (w' & r & E & B & T & S & F).
      exists w', r. split; [exact E|]. split; [exact B|]. split; [exact T|].
        split; [exact S|]. split; [exact F|]. intros H; cbn in H; discriminate H.
  - do 2 eexists. split; [reflexivity|]. rewrite app_nil_r.
    repeat split; reflexivity.
Qed.
End RunFrame.

Section RunTouches.
Variable Date_parse : string -> option Z.
Variable getFullYear : Z -> Z.
Variable getMonth : Z -> Z.
Variable env : Env.
Variable portal : Portal.
Variable rc : RunClock.

(** The world after the two turns, and the files a run ends with. *)
Lemma fetch_once_files w :
  launch_ok portal = true -> login_ok portal = true ->
  exists w2,
    (forall s, completes env portal s = false ->
               history_file s w2 = history_file s w /\ views s w2 = views s w) /\
    (forall s,
        history_file s (fst (fetch_once Date_parse getFullYear getMonth env portal rc w))
        = history_file s w2 /\
        views s (fst (fetch_once Date_parse getFullYear getMonth env portal rc w))
        = views s w2).
Proof.
  intros Hl Hg.
  unfold fetch_once, try_finally, try_catch, init, login. rewrite Hl, Hg.
  cbn -[collect summarize read_gas_api read_electric_api meter_set completes].
  set (w0 := log LoginCompleted (log BrowserLaunched (set_browser true w))).
  destruct (collect_frame_gas Date_parse getFullYear getMonth env portal rc w0)
    as (w1 & r1 & E1 & B1 & T1 & S1 & F1 & N1).
  destruct (collect_frame_electric Date_parse getFullYear getMonth env portal rc w1)
    as (w2 & r2 & E2 & B2 & T2 & S2 & F2 & N2).
  exists w2. split.
  - intros s Hs.
    assert (H0 : history_file s w0 = history_file s w /\ views s w0 = views s w)
      by (destruct s; split; reflexivity).
    destruct s.
    + destruct (N1 Hs) as [A1 A2].
      destruct (F2 GAS ltac:(discriminate)) as [A3 A4].
      destruct H0. split; congruence.
    + destruct (F1 ELECTRIC ltac:(discriminate)) as [A1 A2].
      destruct (N2 Hs) as [A3 A4].
      destruct H0. split; congruence.
  - intros s.
    split;
      (unfold bind at 1; rewrite E1; unfold bind at 1; rewrite E2;
       unfold summarize, bind, emit, process_exit, ret, get_world;
       destruct (meter_set env GAS), (meter_set env ELECTRIC),
         (success r1), (success r2); cbn;
       try (destruct (browser w2)); cbn; destruct s; reflexivity).
Qed.

(** X12: a run leaves the history file and the exported documents of a
    utility as they were unless that utility's pipeline completed: when the
    browser does not launch, when the login fails, when the meter variable
    is not set, and when the fetch or the decoding throws. *)
Theorem run_touches_only_completed_utilities :
  forall (s : serviceType) (w : World),
    launch_ok portal && login_ok portal && completes env portal s = false ->
    history_file s (fst (fetch_once Date_parse getFullYear getMonth env portal rc w))
    = history_file s w /\
    views s (fst (fetch_once Date_parse getFullYear getMonth env portal rc w))
    = views s w.
Proof.
  intros s w H.
  destruct (launch_ok portal) eqn:Hl.
  2:{ unfold fetch_once, try_finally, try_catch, init. rewrite Hl.
      destruct s; split; reflexivity. }
  destruct (login_ok portal) eqn:Hg.
  2:{ unfold fetch_once, try_finally, try_catch, init, login. rewrite Hl, Hg.
      destruct s; split; reflexivity. }
  simpl in H.
  destruct (fetch_once_files w Hl Hg) as (w2 & Hn & Hf).
  destruct (Hf s) as [-> ->]. now apply Hn.
Qed.
End RunTouches.

Lemma run_touches_only_completed_utilities_witness :
  gas_history_file
    (fst (fetch_once ExampleDate.Date_parse ExampleDate.getFullYear
            ExampleDate.getMonth RunExamples.env_gas
            RunExamples.portal_login_fails RunExamples.rc
            (RunExamples.with_gas_history Examples.history)))
  = @Parsed GAS Examples.history.
Proof.
  apply (run_touches_only_completed_utilities ExampleDate.Date_parse
           ExampleDate.getFullYear ExampleDate.getMonth RunExamples.env_gas
           RunExamples.portal_login_fails RunExamples.rc GAS).
  reflexivity.
Defined.

Section RunLog.
Variable Date_parse : string -> option Z.
Variable getFullYear : Z -> Z.
Variable getMonth : Z -> Z.
Variable env : Env.
Variable portal : Portal.
Variable rc : RunClock.

Let run_main := main Date_parse getFullYear getMonth env portal rc.

(** [main] adds to the log what [fetch_once] adds, and ends as it ends. *)
Lemma main_as_fetch_once w :
  exists w',
    constructor env w = (w', Return tt) /\ trace w' = trace w /\
    trace (fst (run_main w))
    = trace (fst (fetch_once Date_parse getFullYear getMonth env portal rc w')) /\
    exit_code (run_main w)
    = exit_code (fetch_once Date_parse getFullYear getMonth env portal rc w').
Proof.
  destruct (constructor_returns env w) as (w' & E & T & _).
  exists w'. split; [exact E|]. split; [exact T|].
  unfold run_main, main, try_catch, bind. rewrite E.
  destruct (fetch_once_spec Date_parse getFullYear getMonth env portal rc w')
    as (ng & ne & _ & Hx & _).
  unfold exit_code in *.
  destruct (fetch_once Date_parse getFullYear getMonth env portal rc w')
    as [w'' [a|e|c]]; simpl in *; try discriminate; split; reflexivity.
Qed.

(** X10: the exit contract of the code.  Every run ends the process, with
    code 0 exactly when the browser launched, the login completed and the
    pipeline of at least one utility whose meter variable is set completed,
    and with code 1 otherwise; the exit is the last thing the run logs. *)
Theorem run_exit_contract :
  forall w : World,
    let code := if launch_ok portal && login_ok portal &&
                   (completes env portal GAS || completes env portal ELECTRIC)
                then 0 else 1 in
    exit_code (run_main w) = Some code /\
    exists before, trace (fst (run_main w)) = before ++ [ProcessExit code].
Proof.
  intros w code.
  destruct (main_as_fetch_once w) as (w' & _ & T & Ht & Hx).
  destruct (fetch_once_spec Date_parse getFullYear getMonth env portal rc w')
    as (ng & ne & Hs & Hc & _).
  rewrite Hx, Ht, Hs. split; [exact Hc|]. subst code.
  destruct (launch_ok portal); [|exists (trace w'); reflexivity].
  destruct (login_ok portal);
    [|exists (trace w' ++ [BrowserLaunched; LoginFailed]);
      rewrite <- app_assoc; reflexivity].
  cbn [andb].
  destruct (completes env portal GAS || completes env portal ELECTRIC).
  - exists (trace w' ++ BrowserLaunched :: LoginCompleted ::
            collection_log env portal ng ne ++ [BrowserClosed]).
    rewrite <- !app_assoc. cbn. rewrite <- !app_assoc. reflexivity.
  - exists (trace w' ++ BrowserLaunched :: LoginCompleted ::
            collection_log env portal ng ne).
    rewrite <- !app_assoc. cbn. reflexivity.
Qed.

(** X11: on a run the browser is closed exactly when the process exits with
    code 0; every run that exits with 1 after a launch leaves it open. *)
Theorem browser_closed_iff_exit_0 :
  forall w : World,
    trace w = [] ->
    (In BrowserClosed (trace (fst (run_main w)))
     <-> exit_code (run_main w) = Some 0) /\
    (exit_code (run_main w) = Some 1 -> launch_ok portal = true ->
     In BrowserLaunched (trace (fst (run_main w))) /\
     ~ In BrowserClosed (trace (fst (run_main w)))).
Proof.
  intros w Hw.
  pose proof (main_closes_browser_iff Date_parse getFullYear getMonth env portal rc w Hw)
    as Hiff.
  split; [exact Hiff|].
  intros Hx Hl. split.
  - now apply main_launches.
  - intros Hc. apply Hiff in Hc. unfold run_main in *. congruence.
Qed.

(** X13: a utility's pipeline starts exactly when the browser launched, the
    login completed and the meter variable of the utility is set,
    whatever becomes of the other utility; and what the summary reports for
    it is whether its pipeline completed. *)
Theorem pipeline_started_iff :
  forall (s : serviceType) (w : World),
    trace w = [] ->
    let log := trace (fst (fetch_once Date_parse getFullYear getMonth env portal rc w)) in
    (In (PipelineStarted s) log <->
     launch_ok portal && login_ok portal && meter_set env s = true) /\
    (forall ok n, In (Summary s ok n) log -> ok = completes env portal s).
Proof.
  intros s w Hw log.
  destruct (fetch_once_spec Date_parse getFullYear getMonth env portal rc w)
    as (ng & ne & Ht & _ & _).
  subst log. rewrite Ht, Hw. unfold collection_log.
  destruct (launch_ok portal), (login_ok portal),
    (meter_set env GAS) eqn:Hg, (meter_set env ELECTRIC) eqn:He,
    (completes env portal GAS) eqn:Cg, (completes env portal ELECTRIC) eqn:Ce;
    destruct s; rewrite ?Hg, ?He; cbn; (split; [split|]);
    intros; repeat match goal with
                   | H : _ \/ _ |- _ => destruct H
                   | H : False |- _ => destruct H
                   | H : Summary _ _ _ = Summary _ _ _ |- _ => injection H as ? ? ?; subst
                   | H : _ = _ |- _ => discriminate H
                   end; auto 12; try congruence.
Qed.
End RunLog.

Lemma browser_closed_iff_exit_0_witness :
  In BrowserLaunched
     (trace (fst (RunExamples.run RunExamples.env_gas
                                  RunExamples.portal_login_fails fresh))) /\
  ~ In BrowserClosed
      (trace (fst (RunExamples.run RunExamples.env_gas
                                   RunExamples.portal_login_fails fresh))).
Proof.
  apply (browser_closed_iff_exit_0 ExampleDate.Date_parse ExampleDate.getFullYear
           ExampleDate.getMonth RunExamples.env_gas
           RunExamples.portal_login_fails RunExamples.rc fresh eq_refl);
    reflexivity.
Defined.

Lemma pipeline_started_iff_witness :
  In (PipelineStarted GAS)
     (trace (fst (fetch_once ExampleDate.Date_parse ExampleDate.getFullYear
                    ExampleDate.getMonth RunExamples.env_gas
                    RunExamples.portal_no_series RunExamples.rc fresh))).
Proof.
  apply (pipeline_started_iff ExampleDate.Date_parse ExampleDate.getFullYear
           ExampleDate.getMonth RunExamples.env_gas
           RunExamples.portal_no_series RunExamples.rc GAS fresh eq_refl).
  reflexivity.
Defined.

(** ** Configuration and construction *)

Lemma blank_nonempty str : JS.blank str = false -> String.eqb str EmptyString = false.
Proof. destruct str; [discriminate|reflexivity]. Qed.

(** The white space of [trim] among the code units below 256. *)
Lemma is_space_codes c :
  JS.is_space c = true <->
  In (nat_of_ascii c) [9; 10; 11; 12; 13; 32; 160]%nat.
Proof.
  unfold JS.is_space. cbv zeta. generalize (nat_of_ascii c). intros n.
  rewrite !orb_true_iff, andb_true_iff, !Nat.leb_le, !Nat.eqb_eq.
  simpl. lia.
Qed.

Lemma blank_false_iff str :
  JS.blank str = false <->
  exists c, In c (list_ascii_of_string str) /\
            ~ In (nat_of_ascii c) [9; 10; 11; 12; 13; 32; 160]%nat.
Proof.
  unfold JS.blank. split.
  - intros H. induction (list_ascii_of_string str) as [|c t IH];
      [discriminate|].
    simpl in H. destruct (JS.is_space c) eqn:Hc.
    + destruct (IH H) as (c' & Hin & Hn). exists c'. split; [now right|exact Hn].
    + exists c. split; [now left|]. intros Hin.
      apply is_space_codes in Hin. congruence.
  - intros (c & Hin & Hn).
    destruct (forallb JS.is_space (list_ascii_of_string str)) eqn:H;
      [|reflexivity].
    exfalso. apply Hn, is_space_codes.
    rewrite forallb_forall in H. now apply H.
Qed.

(** X14: [valid_config] accepts exactly the environments in which EMAIL,
    PASSWORD and ACCOUNTNUM are non-empty and at least one meter variable
    holds a character that [trim] does not strip (among the code units
    below 256, anything but TAB, LF, VT, FF, CR, SPACE and NO-BREAK SPACE);
    an accepted environment has a meter variable that [fetch_once] will act
    on; a gas meter made of a space, a tab and a no-break space is
    rejected. *)
Theorem valid_config_spec :
  forall env : Env,
    (valid_config env = true <->
     (JS.truthy_str (EMAIL env) = true /\
      JS.truthy_str (PASSWORD env) = true /\
      JS.truthy_str (ACCOUNTNUM env) = true) /\
     exists s str,
       meter_value env s = Some str /\
       exists c, In c (list_ascii_of_string str) /\
                 ~ In (nat_of_ascii c) [9; 10; 11; 12; 13; 32; 160]%nat) /\
    (valid_config env = true -> exists s, meter_set env s = true) /\
    valid_config RunExamples.env_blank_meter = false.
Proof.
  intros env.
  assert (Hiff :
    valid_config env = true <->
    (JS.truthy_str (EMAIL env) = true /\
     JS.truthy_str (PASSWORD env) = true /\
     JS.truthy_str (ACCOUNTNUM env) = true) /\
    exists s str, meter_value env s = Some str /\ JS.blank str = false).
  { unfold valid_config. cbn [forallb].
    destruct (JS.truthy_str (EMAIL env)), (JS.truthy_str (PASSWORD env)),
      (JS.truthy_str (ACCOUNTNUM env)); cbn [andb negb];
      try (split; [discriminate|intros [(?&?&?) _]; discriminate]).
    split.
    - intros H. split; [auto|].
      destruct (GAS_METERNUM env) as [g|] eqn:Hg.
      + destruct (JS.blank g) eqn:Bg.
        * destruct (ELECTRIC_METERNUM env) as [e|] eqn:He.
          -- destruct (JS.blank e) eqn:Be.
             ++ rewrite !andb_false_r in H. discriminate.
             ++ exists ELECTRIC, e. auto.
          -- rewrite !andb_false_r in H. discriminate.
        * exists GAS, g. auto.
      + destruct (ELECTRIC_METERNUM env) as [e|] eqn:He; [|discriminate].
        destruct (JS.blank e) eqn:Be.
        * rewrite !andb_false_r in H. discriminate.
        * exists ELECTRIC, e. auto.
    - intros [_ (s & str & Hm & Hb)].
      pose proof (blank_nonempty str Hb) as Hne.
      destruct s; simpl in Hm; rewrite Hm; simpl; rewrite Hne, Hb; simpl.
      + reflexivity.
      + destruct (match GAS_METERNUM env with
                  | Some str0 => JS.truthy_str (GAS_METERNUM env) && negb (JS.blank str0)
                  | None => false
                  end); reflexivity. }
  split; [|split; [|reflexivity]].
  - rewrite Hiff. split; intros [Hreq (s & str & Hm & Hb)];
      (split; [exact Hreq|]); exists s, str; (split; [exact Hm|]);
      now apply blank_false_iff.
  - intros H. apply Hiff in H. destruct H as [_ (s & str & Hm & Hb)].
    exists s. pose proof (blank_nonempty str Hb) as Hne.
    destruct s; simpl in *; rewrite Hm; simpl; now rewrite Hne.
Qed.

Lemma valid_config_spec_witness :
  exists s, meter_set RunExamples.env_gas s = true.
Proof.
  apply (valid_config_spec RunExamples.env_gas). reflexivity.
Defined.

Lemma initHistoryFile_spec env s w :
  exists w',
    initHistoryFile env s w = (w', Return tt) /\
    history_file s w' =
      match history_file s w with
      | Missing => if meter_set env s then Parsed [] else Missing
      | existing => existing
      end /\
    (forall s', s' <> s -> history_file s' w' = history_file s' w) /\
    (forall s', views s' w' = views s' w) /\
    trace w' = trace w /\ browser w' = browser w.
Proof.
  unfold initHistoryFile, modify, ret.
  destruct (meter_set env s).
  - eexists. split; [reflexivity|].
    destruct (history_file s w) eqn:E.
    + rewrite history_file_set_same. split; [reflexivity|].
      split; [|split; [|split]].
      * intros s' Hs. destruct s, s'; try reflexivity; contradiction.
      * intros s'. apply views_set_history.
      * destruct s; reflexivity.
      * destruct s; reflexivity.
    + rewrite E. repeat split; reflexivity.
    + rewrite E. repeat split; reflexivity.
  - eexists. split; [reflexivity|].
    destruct (history_file s w); repeat split; reflexivity.
Qed.

(** X15: constructing the collector never overwrites a history file that
    exists, readable or not; it creates the empty series for a utility
    exactly when the configuration is valid, the utility's meter variable is
    set and the file is missing; it touches nothing else. *)
Theorem constructor_keeps_existing_files :
  forall (env : Env) (w : World),
    let w' := fst (constructor env w) in
    snd (constructor env w) = Return tt /\
    (forall s,
        history_file s w' =
        match history_file s w with
        | Missing => if valid_config env && meter_set env s
                     then Parsed [] else Missing
        | existing => existing
        end) /\
    (forall s, views s w' = views s w) /\
    trace w' = trace w /\ browser w' = browser w.
Proof.
  intros env w. unfold constructor.
  destruct (valid_config env); cbn [negb andb].
  - unfold initHistoryFiles, bind.
    destruct (initHistoryFile_spec env GAS w) as (w1 & E1 & H1 & O1 & V1 & T1 & B1).
    destruct (initHistoryFile_spec env ELECTRIC w1) as (w2 & E2 & H2 & O2 & V2 & T2 & B2).
    rewrite E1, E2. cbn [fst snd]. split; [reflexivity|].
    split; [|split; [|split]].
    + intros s. destruct s.
      * rewrite (O2 GAS ltac:(discriminate)). exact H1.
      * rewrite H2, (O1 ELECTRIC ltac:(discriminate)). reflexivity.
    + intros s. now rewrite V2, V1.
    + congruence.
    + congruence.
  - cbn [fst snd ret]. split; [reflexivity|].
    split; [|repeat split; reflexivity].
    intros s. destruct (history_file s w); reflexivity.
Qed.

Lemma constructor_keeps_existing_files_witness :
  gas_history_file
    (fst (constructor RunExamples.env_gas
            (set_history_file GAS Unparseable fresh))) = Unparseable /\
  gas_history_file (fst (constructor RunExamples.env_gas fresh)) = Parsed [] /\
  gas_history_file (fst (constructor RunExamples.env_no_account fresh)) = Missing /\
  gas_history_file (fst (constructor RunExamples.env_blank_meter fresh)) = Missing.
Proof.
  split; [|split; [|split]].
  - exact (proj1 (proj2 (constructor_keeps_existing_files RunExamples.env_gas
                           (set_history_file GAS Unparseable fresh))) GAS).
  - exact (proj1 (proj2 (constructor_keeps_existing_files RunExamples.env_gas
                           fresh)) GAS).
  - exact (proj1 (proj2 (constructor_keeps_existing_files RunExamples.env_no_account
                           fresh)) GAS).
  - exact (proj1 (proj2 (constructor_keeps_existing_files RunExamples.env_blank_meter
                           fresh)) GAS).
Defined.

(** ** The XML fallback *)

Section GroupFacts.
Variable toLocaleDateString : Z -> string.

Let day := day_of toLocaleDateString.
Let group := day_group toLocaleDateString.

Lemma add_to_day_keys k v md :
  map fst (add_to_day k v md) =
  if in_dec string_dec k (map fst md) then map fst md else map fst md ++ [k].
Proof.
  induction md as [|[k' t] rest IH]; simpl; [reflexivity|].
  destruct (String.eqb_spec k' k) as [->|Hne]; simpl.
  - destruct (string_dec k k); [reflexivity|contradiction].
  - rewrite IH. destruct (string_dec k' k); [contradiction|].
    destruct (in_dec string_dec k (map fst rest)); reflexivity.
Qed.

Lemma add_to_day_In k v md k' t' :
  NoDup (map fst md) ->
  In (k', t') (add_to_day k v md) ->
  (k' <> k /\ In (k', t') md) \/
  (k' = k /\ ((exists t, In (k, t) md /\ t' = (t + v)%float) \/
              (~ In k (map fst md) /\ t' = (0 + v)%float))).
Proof.
  induction md as [|[k0 t0] rest IH]; simpl; intros Hnd.
  - intros [H|[]]. injection H as <- <-. right. split; [reflexivity|].
    right. split; [tauto|reflexivity].
  - inversion Hnd as [|? ? Hk0 Hrest]; subst.
    destruct (String.eqb_spec k0 k) as [->|Hne]; simpl.
    + intros [H|H].
      * injection H as <- <-. right. split; [reflexivity|]. left. eauto.
      * left. split; [|auto]. intros ->. apply Hk0.
        apply in_map_iff. exists (k, t'). auto.
    + intros [H|H].
      * injection H as <- <-. left. auto.
      * destruct (IH Hrest H) as [[H1 H2]|[-> [[t [H1 H2]]|[H1 H2]]]].
        -- left. auto.
        -- right. split; [reflexivity|]. left. eauto.
        -- right. split; [reflexivity|]. right. split; [|exact H2].
           intros [H3|H3]; [contradiction|auto].
Qed.

Lemma day_group_snoc k l x :
  group k (l ++ [x]) = group k l ++ (if String.eqb (day x) k then [x] else []).
Proof. unfold group, day_group. rewrite filter_app. reflexivity. Qed.

(** The loop invariant of lines 589-600. *)
Lemma daily_totals_spec readings :
  let md := fold_left (fun acc r => add_to_day (day r) (iv_value r / 1000)%float acc)
                      readings [] in
  NoDup (map fst md) /\
  (forall k t, In (k, t) md -> t = kwh_total (group k readings) /\ group k readings <> []) /\
  (forall r, In r readings -> In (day r) (map fst md)).
Proof.
  induction readings as [|x l IH] using rev_ind; simpl.
  - split; [constructor|]. split; [intros ? ? []|intros ? []].
  - rewrite fold_left_app. simpl.
    set (md := fold_left (fun acc r => add_to_day (day r) (iv_value r / 1000)%float acc)
                         l []) in *.
    destruct IH as (Hnd & Hent & Hcov).
    split; [|split].
    + rewrite add_to_day_keys.
      destruct (in_dec string_dec (day x) (map fst md)) as [Hin|Hout]; [exact Hnd|].
      apply NoDup_app; [exact Hnd|repeat constructor; intros []|].
      intros y Hy [<-|[]]. contradiction.
    + intros k t Ht. apply add_to_day_In in Ht; [|exact Hnd].
      rewrite day_group_snoc. unfold kwh_total.
      destruct Ht as [[Hk Ht]|[-> [[t0 [Ht0 ->]]|[Hout ->]]]].
      * destruct (String.eqb_spec (day x) k) as [Heq|_]; [congruence|].
        rewrite app_nil_r. now apply Hent.
      * rewrite String.eqb_refl, fold_left_app. simpl.
        destruct (Hent _ _ Ht0) as [-> _]. split; [reflexivity|].
        intros H. apply app_eq_nil in H. destruct H. discriminate.
      * rewrite String.eqb_refl, fold_left_app. simpl.
        assert (Hnil : group (day x) l = []).
        { unfold group, day_group. apply filter_none. apply Forall_forall.
          intros y Hy. apply String.eqb_neq. intros Hk. apply Hout.
          change (day_of toLocaleDateString y) with (day y) in Hk.
          rewrite <- Hk. now apply Hcov. }
        rewrite Hnil. split; [reflexivity|discriminate].
    + intros y Hy. rewrite add_to_day_keys. apply in_app_or in Hy.
      destruct (in_dec string_dec (day x) (map fst md)) as [Hin|Hout].
      * destruct Hy as [Hy|[<-|[]]]; auto.
      * apply in_or_app. destruct Hy as [Hy|[<-|[]]]; [left; auto|right; left; reflexivity].
Qed.
End GroupFacts.

Lemma StronglySorted_impl_In (A : Type) (R R' : A -> A -> Prop) l :
  StronglySorted R l ->
  (forall x y, In x l -> In y l -> R x y -> R' x y) ->
  StronglySorted R' l.
Proof.
  induction 1 as [|x t Ht IH Hx]; intros H; constructor.
  - apply IH. intros a b Ha Hb. apply H; now right.
  - rewrite Forall_forall in *. intros y Hy.
    apply H; [now left|now right|now apply Hx].
Qed.

(** X16: [groupElectricReadingsByDay] gives one row per local calendar day
    of the readings; the row of a day holds the readings' values of that
    day, each divided by 1000, added up in the order of the response and
    rounded to 3 decimals; and the rows are in ascending order of date when
    the day strings are valid dates. *)
Theorem groupElectricReadingsByDay_spec :
  forall (Date_parse : string -> option Z) (toLocaleDateString : Z -> string)
         (now : string) (readings : list Interval),
    let out := groupElectricReadingsByDay Date_parse toLocaleDateString now readings in
    NoDup (map er_date out) /\
    (forall r, In r readings ->
               exists e, In e out /\ er_date e = day_of toLocaleDateString r) /\
    (forall e, In e out ->
       let grp := day_group toLocaleDateString (er_date e) readings in
       grp <> [] /\
       er_full_date e = Some (er_date e) /\
       er_usage_kwh e = JS.toFixed_parse 3 (kwh_total grp)) /\
    ((forall r, In r readings -> Date_parse (day_of toLocaleDateString r) <> None) ->
     StronglySorted (fun a b => full_date_le Date_parse (er_date a) (er_date b)) out).
Proof.
  intros Date_parse toLocaleDateString now readings out.
  destruct (daily_totals_spec toLocaleDateString readings) as (Hnd & Hent & Hcov).
  set (md := fold_left
               (fun acc r => add_to_day (day_of toLocaleDateString r)
                                        (iv_value r / 1000)%float acc)
               readings []) in *.
  assert (Hkeys : map er_date (map (day_row now) md) = map fst md).
  { rewrite map_map. reflexivity. }
  assert (Hkey : forall e, In e (map (day_row now) md) -> dateKey ELECTRIC e = er_date e).
  { intros e He. apply in_map_iff in He. destruct He as [[k t] [<- _]].
    simpl. destruct (String.eqb k EmptyString) eqn:E; [|reflexivity].
    apply String.eqb_eq in E. now subst. }
  split; [|split; [|split]].
  - apply (Permutation_NoDup (l := map fst md)); [|exact Hnd].
    rewrite <- Hkeys. apply Permutation_map. symmetry. apply sort_perm.
  - intros r Hr. specialize (Hcov r Hr). apply in_map_iff in Hcov.
    destruct Hcov as [[k t] [Hk Hin]]. simpl in Hk.
    exists (day_row now (k, t)). split; [|exact Hk].
    apply sort_In. now apply in_map.
  - intros e He. apply sort_In in He. apply in_map_iff in He.
    destruct He as [[k t] [<- Hin]]. simpl.
    destruct (Hent _ _ Hin) as [-> Hg]. auto.
  - intros Hv.
    assert (Hvalid : forall e, In e (map (day_row now) md) ->
                               Date_parse (dateKey ELECTRIC e) <> None).
    { intros e He. rewrite (Hkey e He). apply in_map_iff in He.
      destruct He as [[k t] [<- Hin]]. simpl.
      destruct (Hent _ _ Hin) as [_ Hg].
      destruct (day_group toLocaleDateString k readings) as [|r0 g] eqn:Eg;
        [contradiction|].
      assert (Hr0 : In r0 (day_group toLocaleDateString k readings))
        by (rewrite Eg; now left).
      apply filter_In in Hr0. destruct Hr0 as [Hr0 Hd].
      apply String.eqb_eq in Hd. rewrite <- Hd. now apply Hv. }
    apply (StronglySorted_impl_In _ _ _ _
             (sort_by_date_sorted Date_parse (dateKey ELECTRIC) _ Hvalid)).
    intros x y Hx Hy Hle. apply sort_In in Hx. apply sort_In in Hy.
    now rewrite (Hkey x Hx), (Hkey y Hy) in Hle.
Qed.

Lemma actual_readings_filter l :
  actual_readings l =
  map (fun r => {| iv_time := ir_start r; iv_value := ir_value r |})
      (filter (fun r => String.eqb (ir_quality r) "ACTUAL") l).
Proof.
  unfold actual_readings. induction l as [|r t IH]; simpl; [reflexivity|].
  unfold actual_reading at 1.
  destruct (String.eqb (ir_quality r) "ACTUAL"); simpl; now rewrite IH.
Qed.


Lemma day_group_xml toLocaleDateString k l :
  day_group toLocaleDateString k (actual_readings l) =
  map (fun r => {| iv_time := ir_start r; iv_value := ir_value r |})
      (filter (fun r => String.eqb (ir_quality r) "ACTUAL" &&
                        String.eqb (toLocaleDateString (ir_start r * 1000)) k) l).
Proof.
  rewrite actual_readings_filter. unfold day_group, day_of.
  induction l as [|r t IH]; simpl; [reflexivity|].
  destruct (String.eqb (ir_quality r) "ACTUAL"); simpl; [|exact IH].
  destruct (String.eqb (toLocaleDateString (ir_start r * 1000)) k); simpl;
    now rewrite IH.
Qed.

Lemma kwh_total_map (l : list IntervalReading) : forall acc,
  fold_left (fun a (r : Interval) => a + iv_value r / 1000)%float
            (map (fun r => {| iv_time := ir_start r; iv_value := ir_value r |}) l) acc
  = fold_left (fun a r => a + ir_value r / 1000)%float l acc.
Proof. induction l as [|r t IH]; intros acc; simpl; [reflexivity|apply IH]. Qed.

(** X17: the XML response.  A block with fewer than two interval readings
    makes the decoder throw, and nothing is grouped or stored; with two or
    more, only readings of ACTUAL quality count: the daily total is the
    rounded sum, in kWh, of the values of the readings of that day whose
    quality flag is ACTUAL, and every day with such a reading gets a row.
    1500.4 Wh and 250.3 Wh of ACTUAL quality on one day, beside an estimated
    9000 Wh, give 1.751 kWh (the sum is 1.7507), and 4000.06 Wh give 4 kWh;
    the first two of these readings give 1.5 kWh for the one of ACTUAL
    quality, and on the first reading alone the decoder throws. *)
Theorem xml_daily_totals_actual_only :
  forall (Date_parse : string -> option Z) (toLocaleDateString : Z -> string)
         (now : string) (response : list IntervalReading),
    (xml_readings response = None <-> (List.length response < 2)%nat) /\
    (forall readings,
       xml_readings response = Some readings ->
       let out := groupElectricReadingsByDay Date_parse toLocaleDateString now
                    readings in
       (forall e, In e out ->
          let counted :=
            filter (fun r => String.eqb (ir_quality r) "ACTUAL" &&
                             String.eqb (toLocaleDateString (ir_start r * 1000))
                                        (er_date e))
                   response in
          counted <> [] /\
          er_usage_kwh e =
          JS.toFixed_parse 3
            (fold_left (fun acc r => acc + ir_value r / 1000)%float counted 0%float) /\
          rounded 3
            (fold_left (fun acc r => acc + ir_value r / 1000)%float counted 0%float)
            (er_usage_kwh e)) /\
       (forall r, In r response -> ir_quality r = "ACTUAL"%string ->
          exists e, In e out /\ er_date e = toLocaleDateString (ir_start r * 1000))) /\
    XmlExample.decode XmlExample.metered
    = Some [("05/30/2024"%string, 1.751%float); ("05/31/2024"%string, 4%float)] /\
    XmlExample.decode (firstn 1 XmlExample.metered) = None /\
    XmlExample.decode (firstn 2 XmlExample.metered)
    = Some [("05/30/2024"%string, 1.5%float)] /\
    XmlExample.decode [] = None.
Proof.
  intros Date_parse toLocaleDateString now response.
  split; [|split; [|repeat split; vm_compute; reflexivity]].
  - destruct response as [|a [|b t]]; simpl; split;
      try reflexivity; try discriminate; try lia.
  - intros readings Hsome out.
    assert (Hr : readings = actual_readings response).
    { destruct response as [|a [|b t]]; simpl in Hsome;
        try discriminate; now injection Hsome as <-. }
    subst readings out.
    destruct (daily_totals_spec toLocaleDateString (actual_readings response))
      as (Hnd & Hent & Hcov).
    set (md := fold_left
                 (fun acc r => add_to_day (day_of toLocaleDateString r)
                                          (iv_value r / 1000)%float acc)
                 (actual_readings response) []) in *.
    split.
    + intros e He. apply sort_In in He. apply in_map_iff in He.
      destruct He as [[k t] [<- Hin]]. cbn [day_row er_date er_usage_kwh fst snd].
      destruct (Hent _ _ Hin) as [-> Hg].
      rewrite day_group_xml in *. split; [|split].
      * intros H. apply Hg. now rewrite H.
      * unfold kwh_total. now rewrite kwh_total_map.
      * unfold kwh_total. rewrite kwh_total_map. apply toFixed_parse_rounded.
    + intros r Hr Hq.
      assert (Hin : In {| iv_time := ir_start r; iv_value := ir_value r |}
                       (actual_readings response)).
      { rewrite actual_readings_filter.
        apply (in_map (fun r => {| iv_time := ir_start r; iv_value := ir_value r |})).
        apply filter_In. split; [exact Hr|]. now apply String.eqb_eq. }
      specialize (Hcov _ Hin). apply in_map_iff in Hcov.
      destruct Hcov as [[k t] [Hk Hkt]]. simpl in Hk.
      exists (day_row now (k, t)). split; [|exact Hk].
      apply sort_In. now apply in_map.
Qed.

(** ** The file server *)

Section ServerFacts.
Variable Doc : Type.

Lemma includes_In l x : Server.includes l x = true <-> In x l.
Proof.
  unfold Server.includes. rewrite existsb_exists. split.
  - intros [y [Hy He]]. apply String.eqb_eq in He. now subst.
  - intros H. exists x. split; [exact H|apply String.eqb_refl].
Qed.

(** X18: what [serveJsonFile] answers.  200 with the parsed document as the
    body and a 15-minute cache header exactly when the file exists and
    parses; 500 exactly when it exists and does not; 404 exactly when it is
    missing, and then the body lists the files of the ten known names that
    exist, the requested one never among them. *)
Theorem serveJsonFile_contract :
  forall (disk : Server.Disk Doc) (filename : string),
    let r := Server.serveJsonFile Doc disk filename in
    (Server.status Doc r = 200 <->
     exists file data, disk filename = Some file /\
                       Server.parsed Doc file = Some data) /\
    (Server.status Doc r = 500 <->
     exists file, disk filename = Some file /\ Server.parsed Doc file = None) /\
    (Server.status Doc r = 404 <-> disk filename = None) /\
    (forall file data,
        disk filename = Some file -> Server.parsed Doc file = Some data ->
        Server.body Doc r = Server.Document Doc data /\
        In ("Cache-Control", "public, max-age=900")%string (Server.headers Doc r) /\
        In ("Last-Modified"%string, Server.mtime Doc file) (Server.headers Doc r)) /\
    (disk filename = None ->
     exists msg listed,
       Server.body Doc r = Server.NotFound Doc msg listed /\
       ~ In filename listed /\
       forall f, In f listed <->
                 In f Server.possibleFiles /\ disk f <> None).
Proof.
  intros disk filename r. subst r. unfold Server.serveJsonFile.
  assert (Hl : forall f, In f (Server.listAvailableFiles Doc disk) <->
                         In f Server.possibleFiles /\ disk f <> None).
  { intros f. unfold Server.listAvailableFiles. rewrite filter_In.
    unfold Server.fileExists. destruct (disk f); split; intros [H1 H2];
      split; try exact H1; try discriminate; try reflexivity; congruence. }
  destruct (disk filename) as [file|] eqn:Hd.
  - destruct (Server.parsed Doc file) as [data|] eqn:Hp; cbn.
    + split; [split; [eauto|reflexivity]|].
      split; [split; [discriminate|]|].
      { intros (f & Hf & Hn). injection Hf as <-. congruence. }
      split; [split; discriminate|].
      split; [|discriminate].
      intros f d Hf Hpd. injection Hf as <-.
      assert (d = data) by congruence. subst d. auto 10.
    + split; [split; [discriminate|]|].
      { intros (f & d & Hf & Hn). injection Hf as <-. congruence. }
      split; [split; [eauto|reflexivity]|].
      split; [split; discriminate|].
      split; [|discriminate].
      intros f d Hf Hpd. injection Hf as <-. congruence.
  - cbn.
    split; [split; [discriminate|intros (f & d & Hf & _); discriminate]|].
    split; [split; [discriminate|intros (f & Hf & _); discriminate]|].
    split; [split; reflexivity|].
    split; [intros f d Hf; discriminate|].
    intros _. do 2 eexists. split; [reflexivity|].
    split; [|exact Hl].
    intros Hin. apply Hl in Hin. tauto.
Qed.

(** X19: the generic route cannot be made to read any other file.  Whatever
    the [type] and [format] parameters hold, [/data/:type/:format?] answers
    400 or serves one of the ten known files. *)
Theorem data_route_serves_known_files :
  forall (disk : Server.Disk Doc) (type : string) (format : option string),
    (Server.status Doc (Server.data_route Doc disk type format) = 400 /\
     (~ In type Server.validTypes \/
      ~ In (JS.or_str format "latest") Server.validFormats)) \/
    exists filename,
      In filename Server.possibleFiles /\
      Server.data_route Doc disk type format
      = Server.serveJsonFile Doc disk filename.
Proof.
  intros disk type format. unfold Server.data_route.
  destruct (Server.includes Server.validTypes type) eqn:Ht; cbn [negb].
  2:{ left. split; [reflexivity|]. left. intros H.
      apply includes_In in H. congruence. }
  destruct (Server.includes Server.validFormats (JS.or_str format "latest")) eqn:Hf;
    cbn [negb].
  2:{ left. split; [reflexivity|]. right. intros H.
      apply includes_In in H. congruence. }
  right. apply includes_In in Ht. apply includes_In in Hf.
  eexists. split; [|reflexivity].
  destruct Ht as [<-|[<-|[]]];
    destruct Hf as [<-|[<-|[<-|[<-|[<-|[]]]]]]; simpl; auto 12.
Qed.

(** X20: the generic route and the dedicated routes agree: for a valid type
    and format, [/data/type/format] answers what [/type-format] answers, and
    a missing or empty format stands for [latest]. *)
Theorem data_route_matches_file_routes :
  forall (disk : Server.Disk Doc) (type format : string),
    In type Server.validTypes -> In format Server.validFormats ->
    Server.file_route Doc disk ("/" ++ type ++ "-" ++ format)
    = Some (Server.data_route Doc disk type (Some format)) /\
    Server.data_route Doc disk type None
    = Server.data_route Doc disk type (Some "latest"%string) /\
    Server.data_route Doc disk type (Some EmptyString)
    = Server.data_route Doc disk type (Some "latest"%string).
Proof.
  intros disk type format Ht Hf.
  destruct Ht as [<-|[<-|[]]];
    destruct Hf as [<-|[<-|[<-|[<-|[<-|[]]]]]]; repeat split; reflexivity.
Qed.
End ServerFacts.

Lemma serveJsonFile_contract_witness :
  Server.body nat (Server.serveJsonFile nat Server.example_disk
                     "gas/duke-gas-history.json")
  = Server.Document nat 7%nat.
Proof.
  destruct (serveJsonFile_contract nat Server.example_disk
              "gas/duke-gas-history.json") as (_ & _ & _ & H & _).
  apply (H _ 7%nat eq_refl eq_refl).
Defined.

Lemma data_route_matches_file_routes_witness :
  Server.file_route nat Server.example_disk "/gas-history"
  = Some (Server.data_route nat Server.example_disk "gas" (Some "history"%string)).
Proof.
  apply (data_route_matches_file_routes nat Server.example_disk "gas" "history").
  - left. reflexivity.
  - right. left. reflexivity.
Defined.

(** ** Partial failure and the decode fallback *)

Section FailedPoints.
Variable Date_parse : string -> option Z.
Variable getFullYear : Z -> Z.
Variable getMonth : Z -> Z.
Variable env : Env.
Variable portal : Portal.
Variable rc : RunClock.

Lemma collect_gas_points w w' r :
  collect env GAS (read_gas_api Date_parse getFullYear getMonth portal rc) w
  = (w', Return r) ->
  completes env portal GAS = false -> data_points r = 0%nat.
Proof.
  unfold collect, completes. intros E Hc.
  destruct (meter_set env GAS); [|injection E as _ <-; reflexivity].
  unfold read_gas_api, try_catch, bind, emit in E.
  destruct (gas_body portal); try discriminate;
    simpl in E; injection E as _ <-; reflexivity.
Qed.

Lemma collect_electric_points w w' r :
  collect env ELECTRIC (read_electric_api Date_parse getFullYear getMonth portal rc) w
  = (w', Return r) ->
  completes env portal ELECTRIC = false -> data_points r = 0%nat.
Proof.
  unfold collect, completes. intros E Hc.
  destruct (meter_set env ELECTRIC); [|injection E as _ <-; reflexivity].
  unfold read_electric_api, try_catch, bind, emit in E.
  destruct (electric_body portal); try discriminate;
    try (destruct (electric_xml portal); try discriminate);
    simpl in E; injection E as _ <-; reflexivity.
Qed.

(** The log of a run that got past the login, with the record counts of
    the utilities that did not complete. *)
Lemma fetch_once_log w :
  launch_ok portal = true -> login_ok portal = true ->
  exists gas_points electric_points,
    trace (fst (fetch_once Date_parse getFullYear getMonth env portal rc w)) =
      trace w ++ BrowserLaunched :: LoginCompleted ::
      collection_log env portal gas_points electric_points ++
      (if completes env portal GAS || completes env portal ELECTRIC
       then [BrowserClosed; ProcessExit 0] else [ProcessExit 1]) /\
    (completes env portal GAS = false -> gas_points = 0%nat) /\
    (completes env portal ELECTRIC = false -> electric_points = 0%nat).
Proof.
  intros Hl Hg.
  unfold fetch_once, try_finally, try_catch, init, login. rewrite Hl, Hg.
  cbn -[collect summarize read_gas_api read_electric_api meter_set completes].
  set (w0 := log LoginCompleted (log BrowserLaunched (set_browser true w))).
  destruct (collect_frame_gas Date_parse getFullYear getMonth env portal rc w0)
    as (w1 & r1 & E1 & B1 & T1 & S1 & _ & _).
  destruct (collect_frame_electric Date_parse getFullYear getMonth env portal rc w1)
    as (w2 & r2 & E2 & B2 & T2 & S2 & _ & _).
  exists (data_points r1), (data_points r2).
  split; [|split; [now apply (collect_gas_points w0 w1)
                  |now apply (collect_electric_points w1 w2)]].
  unfold bind at 1. rewrite E1. unfold bind at 1. rewrite E2.
  unfold summarize, bind, emit, process_exit, ret, get_world, collection_log.
  rewrite S1, S2.
  assert (Hb : browser w2 = true) by (rewrite B2, B1; reflexivity).
  destruct (meter_set env GAS), (meter_set env ELECTRIC),
    (completes env portal GAS), (completes env portal ELECTRIC);
    cbn [negb orb fst snd browser trace log]; rewrite ?Hb;
    cbn [negb orb fst snd browser trace log];
    rewrite ?T2, ?T1; subst w0; cbn [trace log set_browser];
    rewrite <- ?app_assoc; cbn; rewrite ?app_nil_r, <- ?app_assoc; reflexivity.
Qed.
End FailedPoints.

(** X21: partial failure.  When the pipeline of one utility fails and that
    of the other completes, the browser launched and the login done, the
    run exits with 0, the summary reports the failed utility as failed with
    0 records, and the history file and the exported documents of the failed
    utility are left as they were. *)
Theorem partial_failure_is_isolated :
  forall (Date_parse : string -> option Z) (getFullYear getMonth : Z -> Z)
         (env : Env) (portal : Portal) (rc : RunClock) (w : World)
         (failed other : serviceType),
    launch_ok portal = true -> login_ok portal = true ->
    meter_set env failed = true ->
    completes env portal failed = false ->
    completes env portal other = true ->
    let r := fetch_once Date_parse getFullYear getMonth env portal rc w in
    exit_code r = Some 0 /\
    In (Summary failed false 0) (trace (fst r)) /\
    In (PipelineStarted other) (trace (fst r)) /\
    history_file failed (fst r) = history_file failed w /\
    views failed (fst r) = views failed w.
Proof.
  intros Date_parse getFullYear getMonth env portal rc w failed other
         Hl Hg Hm Hf Ho r.
  assert (Hmo : meter_set env other = true).
  { unfold completes in Ho. destruct (meter_set env other); [reflexivity|discriminate]. }
  destruct (fetch_once_files Date_parse getFullYear getMonth env portal rc w Hl Hg)
    as (w2 & Hn & Hfiles).
  destruct (Hfiles failed) as [Hh Hv]. destruct (Hn failed Hf) as [Hh' Hv'].
  destruct (fetch_once_spec Date_parse getFullYear getMonth env portal rc w)
    as (ng0 & ne0 & _ & Hx & _).
  destruct (fetch_once_log Date_parse getFullYear getMonth env portal rc w Hl Hg)
    as (ng & ne & Ht & Pg & Pe).
  subst r. rewrite Hx, Ht, Hl, Hg. unfold collection_log.
  split; [|split; [|split; [|split; congruence]]].
  - destruct failed, other; try congruence; rewrite Hf, Ho; reflexivity.
  - destruct failed, other; try congruence;
      rewrite Hf, Ho, Hm, ?(Pg Hf), ?(Pe Hf);
      repeat (rewrite in_app_iff || simpl); auto 15.
  - destruct failed, other; try congruence; rewrite Hmo;
      repeat (rewrite in_app_iff || simpl); auto 15.
Qed.

Lemma partial_failure_is_isolated_witness :
  let r := fetch_once ExampleDate.Date_parse ExampleDate.getFullYear
             ExampleDate.getMonth PartialFailure.env_both
             PartialFailure.portal_gas_down RunExamples.rc
             (RunExamples.with_gas_history Examples.history) in
  exit_code r = Some 0 /\
  In (Summary GAS false 0) (trace (fst r)) /\
  In (PipelineStarted ELECTRIC) (trace (fst r)) /\
  gas_history_file (fst r) = @Parsed GAS Examples.history /\
  gas_views (fst r) = None.
Proof.
  apply (partial_failure_is_isolated ExampleDate.Date_parse ExampleDate.getFullYear
           ExampleDate.getMonth PartialFailure.env_both
           PartialFailure.portal_gas_down RunExamples.rc
           (RunExamples.with_gas_history Examples.history) GAS ELECTRIC);
    reflexivity.
Defined.

(** X22: the decode fallback.  An electric response with no embedded JSON
    object, or one that does not parse, is decoded as interval XML, and the
    query throws only when that fails too; a response whose JSON parses is
    never tried as XML, even when it decodes to no reading; the gas query has
    no fallback and throws. *)
Theorem decode_fallback :
  forall (Date_parse : string -> option Z) (getFullYear getMonth : Z -> Z)
         (portal : Portal) (rc : RunClock) (w : World),
    let electric := read_electric_api Date_parse getFullYear getMonth portal rc w in
    let gas := read_gas_api Date_parse getFullYear getMonth portal rc w in
    (electric_body portal = NoJson \/ electric_body portal = BadJson ->
     snd electric = match electric_xml portal with
                    | Some dailyData => Return dailyData
                    | None => Throw XmlError
                    end) /\
    (forall raw_data, electric_body portal = Json raw_data ->
       snd electric = Return (processElectricJsonData Date_parse rc raw_data)) /\
    (electric_body portal = NetworkError -> snd electric = Throw FetchError) /\
    (gas_body portal = NoJson -> snd gas = Throw NoJsonError) /\
    (gas_body portal = BadJson -> snd gas = Throw JsonParseError) /\
    (forall raw_data, gas_body portal = Json raw_data ->
       snd gas = Return (processGasData Date_parse rc raw_data)).
Proof.
  intros Date_parse getFullYear getMonth portal rc w electric gas.
  subst electric gas. unfold read_electric_api, read_gas_api, bind at 1 4, emit.
  assert (He : forall d : list ElectricReading,
             snd ((store Date_parse rc ELECTRIC d ;;
                   exportForHomeAssistant Date_parse getFullYear getMonth rc ELECTRIC ;;
                   ret d) (log (PipelineStarted ELECTRIC) w)) = Return d).
  { intros d.
    destruct (pipeline_body_frame Date_parse getFullYear getMonth rc ELECTRIC d
                (log (PipelineStarted ELECTRIC) w)) as (w' & E & _).
    cbv beta iota delta [reading] in E. now rewrite E. }
  assert (Hg : forall d : list GasReading,
             snd ((store Date_parse rc GAS d ;;
                   exportForHomeAssistant Date_parse getFullYear getMonth rc GAS ;;
                   ret d) (log (PipelineStarted GAS) w)) = Return d).
  { intros d.
    destruct (pipeline_body_frame Date_parse getFullYear getMonth rc GAS d
                (log (PipelineStarted GAS) w)) as (w' & E & _).
    cbv beta iota delta [reading] in E. now rewrite E. }
  cbv beta iota.
  split; [|split; [|split; [|split; [|split]]]].
  - intros [H|H]; rewrite H; destruct (electric_xml portal); first [apply He|reflexivity].
  - intros p H. rewrite H. apply He.
  - intros H. rewrite H. reflexivity.
  - intros H. rewrite H. reflexivity.
  - intros H. rewrite H. reflexivity.
  - intros p H. rewrite H. apply Hg.
Qed.

(** * The record written for a batch reading *)

Section StoredRecord.
Variable Date_parse : string -> option Z.
Variable s : serviceType.

Lemma lookup_unique k l v x :
  NoDup (map (rec_date s) l) -> lookup s k l = Some v ->
  In x l -> rec_date s x = k -> x = v.
Proof.
  unfold lookup. induction l as [|y t IH]; simpl; [intros _ H; discriminate|].
  intros Hnd Hl Hx Hk. inversion Hnd as [|? ? Hy Ht]; subst.
  destruct (String.eqb_spec (rec_date s y) (rec_date s x)) as [E|E].
  - injection Hl as <-. destruct Hx as [->|Hx]; [reflexivity|].
    exfalso. apply Hy. rewrite E. now apply in_map.
  - destruct Hx as [->|Hx]; [contradiction|]. now apply IH.
Qed.

(** The record of the last batch reading with the key of [r] is written
    when that key is within retention, whatever order the sort leaves; it
    is the only record of that date when the stored dates were distinct. *)
Lemma storeUsageData_writes clk batch file r :
  In r batch ->
  date_within Date_parse (two_years_ago clk) (dateKey s r) = true ->
  exists r' out,
    latest s (dateKey s r) batch = Some r' /\
    storeUsageData Date_parse s clk batch file = Some out /\
    In (new_record s (now_iso clk) r') out /\
    (NoDup (map (rec_date s) (loadHistoricalData s file)) ->
     forall x, In x out -> rec_date s x = dateKey s r ->
               x = new_record s (now_iso clk) r').
Proof.
  intros Hr Hk.
  destruct (latest_of_In s _ batch r Hr eq_refl) as [r' Hr'].
  destruct batch as [|r0 batch]; [contradiction|].
  exists r'. eexists. split; [exact Hr'|]. split; [reflexivity|].
  assert (HL : lookup s (dateKey s r)
                 (fold_left (upsert s (now_iso clk)) (r0 :: batch)
                            (loadHistoricalData s file))
               = Some (new_record s (now_iso clk) r'))
    by (rewrite lookup_fold_upsert, Hr'; reflexivity).
  split.
  - apply filter_In. split.
    + apply sort_In. exact (proj1 (lookup_In s _ _ _ HL)).
    + unfold within_retention, time_of. rewrite new_record_date.
      destruct (latest_Some_In s _ _ _ Hr') as [_ ->]. exact Hk.
  - intros Hnd x Hx Hkx. apply filter_In in Hx. destruct Hx as [Hx _].
    apply sort_In in Hx.
    apply (lookup_unique (dateKey s r) _ _ x (fold_upsert_NoDup s _ _ _ Hnd) HL Hx Hkx).
Qed.
End StoredRecord.

(** C3: a batch reading whose date key is the date of a stored record
    overwrites the first such record with the record built from the reading
    alone, and a reading whose key is not in the store is pushed at the end.
    Every field of the record built comes from the reading and the clock
    (for gas: date, label, usage, its conversion to therms, [average_ccf],
    unit, timestamp; for electricity: date, label, usage, start and end
    time, the unit kWh, timestamp), none from the record it replaces.  After
    the call the record of the latest batch reading with a key is in the
    file, and it is the only record of that date when the stored dates were
    distinct: nothing of the old record survives. *)
Theorem upsert_wins :
  forall (Date_parse : string -> option Z) (s : serviceType) (clk : Clock),
    (forall (h : list (record s)) (r : reading s),
        (forall pre old post,
            h = pre ++ old :: post ->
            rec_date s old = dateKey s r ->
            (forall y, In y pre -> rec_date s y <> dateKey s r) ->
            upsert s (now_iso clk) h r
            = pre ++ new_record s (now_iso clk) r :: post) /\
        ((forall y, In y h -> rec_date s y <> dateKey s r) ->
         upsert s (now_iso clk) h r = h ++ [new_record s (now_iso clk) r])) /\
    (forall (r : GasReading),
        g_average_ccf (new_record GAS (now_iso clk) r) = gr_average_ccf r /\
        g_usage_ccf (new_record GAS (now_iso clk) r) = gr_usage_ccf r /\
        g_date (new_record GAS (now_iso clk) r) = gr_full_date r /\
        g_date_label (new_record GAS (now_iso clk) r) = gr_date r /\
        g_unit (new_record GAS (now_iso clk) r) = gr_unit r /\
        g_timestamp (new_record GAS (now_iso clk) r) = gr_timestamp r /\
        g_created_at (new_record GAS (now_iso clk) r) = now_iso clk /\
        rounded 3 (gr_usage_ccf r * 1.037)%float
                (g_usage_therms (new_record GAS (now_iso clk) r))) /\
    (forall (r : ElectricReading),
        e_date (new_record ELECTRIC (now_iso clk) r)
        = JS.or_str (er_full_date r) (er_date r) /\
        e_date_label (new_record ELECTRIC (now_iso clk) r)
        = JS.or_str (er_date_label r) (er_date r) /\
        e_usage_kwh (new_record ELECTRIC (now_iso clk) r)
        = JS.or_num (er_energy r) (er_usage_kwh r) /\
        e_start_time (new_record ELECTRIC (now_iso clk) r) = er_startTime r /\
        e_end_time (new_record ELECTRIC (now_iso clk) r) = er_endTime r /\
        e_unit (new_record ELECTRIC (now_iso clk) r) = "kWh"%string /\
        e_timestamp (new_record ELECTRIC (now_iso clk) r)
        = JS.or_str (er_timestamp r) (now_iso clk) /\
        e_created_at (new_record ELECTRIC (now_iso clk) r) = now_iso clk) /\
    (forall (r : ElectricReading) (d : string),
        er_full_date r = Some d -> d <> EmptyString ->
        er_date_label r = None -> er_energy r = None -> er_timestamp r = None ->
        new_record ELECTRIC (now_iso clk) r
        = {| e_date := d; e_date_label := er_date r;
             e_usage_kwh := er_usage_kwh r;
             e_start_time := er_startTime r; e_end_time := er_endTime r;
             e_unit := "kWh"; e_timestamp := now_iso clk;
             e_created_at := now_iso clk |}) /\
    (forall (batch : list (reading s)) (file : option (list (record s)))
            (r : reading s),
        In r batch ->
        date_within Date_parse (two_years_ago clk) (dateKey s r) = true ->
        exists r' out,
          latest s (dateKey s r) batch = Some r' /\
          storeUsageData Date_parse s clk batch file = Some out /\
          In (new_record s (now_iso clk) r') out /\
          (NoDup (map (rec_date s) (loadHistoricalData s file)) ->
           forall x, In x out -> rec_date s x = dateKey s r ->
                     x = new_record s (now_iso clk) r')).
Proof.
  intros Date_parse s clk. split; [|split; [|split; [|split]]].
  - intros h r. split.
    + intros pre old post -> Hold Hpre.
      rewrite upsert_upd. now apply upd_replace.
    + intros Hh. rewrite upsert_upd. now apply upd_push.
  - intros r. repeat split. apply toFixed_parse_rounded.
  - intros r. repeat split.
  - intros r d Hd Hne Hl He Ht. unfold new_record.
    rewrite Hd, Hl, He, Ht. unfold JS.or_str, JS.or_num.
    destruct (String.eqb_spec d EmptyString); [contradiction|reflexivity].
  - intros batch file r. apply storeUsageData_writes.
Qed.

Lemma upsert_wins_witness :
  upsert ELECTRIC (now_iso Examples.clk) [Examples.electric_old]
         Examples.electric_reading
  = [{| e_date := "05/03/2024"; e_date_label := "5/3"; e_usage_kwh := 31.5;
        e_start_time := None; e_end_time := None; e_unit := "kWh";
        e_timestamp := now_iso Examples.clk;
        e_created_at := now_iso Examples.clk |}] /\
  upsert GAS (now_iso Examples.clk) Examples.history
         (Examples.gas "5/3" "05/03/2024" 4 (Some 5%float))
  = [Examples.old "5/1" "05/01/2024" 1 (Some 2%float);
     Examples.new (Examples.gas "5/3" "05/03/2024" 4 (Some 5%float))] /\
  upsert GAS (now_iso Examples.clk) Examples.history
         (Examples.gas "5/2" "05/02/2024" 2 None)
  = Examples.history ++ [Examples.new (Examples.gas "5/2" "05/02/2024" 2 None)].
Proof.
  split; [|split].
  - destruct (upsert_wins ExampleDate.Date_parse ELECTRIC Examples.clk)
      as (Hloop & _ & _ & Hfields & _).
    destruct (Hloop [Examples.electric_old] Examples.electric_reading) as [H _].
    rewrite (H [] Examples.electric_old []);
      [|reflexivity|reflexivity|intros y []].
    rewrite (Hfields Examples.electric_reading "05/03/2024"%string);
      [reflexivity|reflexivity|discriminate|reflexivity|reflexivity|reflexivity].
  - destruct (upsert_wins ExampleDate.Date_parse GAS Examples.clk) as [Hloop _].
    destruct (Hloop Examples.history
                    (Examples.gas "5/3" "05/03/2024" 4 (Some 5%float))) as [H _].
    apply (H [Examples.old "5/1" "05/01/2024" 1 (Some 2%float)]
             (Examples.old "5/3" "05/03/2024" 3 None) []); [reflexivity|reflexivity|].
    intros y [<-|[]]. discriminate.
  - destruct (upsert_wins ExampleDate.Date_parse GAS Examples.clk) as [Hloop _].
    destruct (Hloop Examples.history
                    (Examples.gas "5/2" "05/02/2024" 2 None)) as [_ H].
    apply H. intros y [<-|[<-|[]]]; discriminate.
Defined.

(** * Unit conversion *)

(** C8: every record that [storeUsageData] writes for a gas reading carries
    the reading's [usage_ccf] and [average_ccf] unchanged and has
    [usage_therms = round(usage_ccf * 1.037, 3)]: the multiple of 0.001
    nearest to the product, halves away from zero.  Every batch reading
    within retention is so written.  0.1 CCF is stored as 0.104 therms and
    3 CCF as 3.111 therms (the products are 0.1037 and 3.1109999999999998),
    and 10 CCF gives 10.370 therms. *)
Theorem gas_usage_therms :
  forall (Date_parse : string -> option Z) (clk : Clock)
         (batch : list GasReading) (file : option (list GasRecord)),
    (forall out x,
        storeUsageData Date_parse GAS clk batch file = Some out ->
        In x out ->
        In x (loadHistoricalData GAS file) \/
        exists r, In r batch /\
                  g_date x = gr_full_date r /\
                  g_usage_ccf x = gr_usage_ccf r /\
                  g_average_ccf x = gr_average_ccf r /\
                  rounded 3 (gr_usage_ccf r * 1.037)%float (g_usage_therms x)) /\
    (forall r, In r batch ->
        date_within Date_parse (two_years_ago clk) (gr_full_date r) = true ->
        exists r' out x,
          latest GAS (gr_full_date r) batch = Some r' /\
          storeUsageData Date_parse GAS clk batch file = Some out /\
          In x out /\
          g_date x = gr_full_date r /\
          g_usage_ccf x = gr_usage_ccf r' /\
          g_average_ccf x = gr_average_ccf r' /\
          rounded 3 (gr_usage_ccf r' * 1.037)%float (g_usage_therms x)) /\
    option_map (map (fun x => (g_usage_ccf x, g_usage_therms x, g_average_ccf x)))
               (storeUsageData ExampleDate.Date_parse GAS Examples.clk
                               Examples.batch_fractions None)
    = Some [(0.1, 0.104, None); (3, 3.111, Some 2.5)]%float /\
    (forall now r,
        gr_usage_ccf r = 10%float ->
        g_usage_therms (new_record GAS now r) = 10.37%float).
Proof.
  intros Date_parse clk batch file. split; [|split; [|split]].
  - intros out x Hout Hx.
    destruct batch as [|r0 batch].
    + simpl in Hout. subst file. left. exact Hx.
    + injection Hout as <-.
      apply filter_In in Hx. destruct Hx as [Hx _].
      apply sort_In in Hx.
      apply (In_fold_upsert GAS (now_iso clk) (r0 :: batch)) in Hx.
      destruct Hx as [Hx|[r [Hr ->]]]; [left; exact Hx|].
      right. exists r. split; [exact Hr|]. repeat split.
      apply toFixed_parse_rounded.
  - intros r Hr Hk.
    destruct (storeUsageData_writes Date_parse GAS clk batch file r Hr Hk)
      as (r' & out & H1 & H2 & H3 & _).
    exists r', out, (new_record GAS (now_iso clk) r').
    split; [exact H1|]. split; [exact H2|]. split; [exact H3|].
    split; [exact (proj2 (latest_Some_In GAS _ _ _ H1))|].
    repeat split. apply toFixed_parse_rounded.
  - vm_compute. reflexivity.
  - intros now r H. simpl. rewrite H. vm_compute. reflexivity.
Qed.

Lemma gas_usage_therms_witness :
  exists out x,
    storeUsageData ExampleDate.Date_parse GAS Examples.clk
                   Examples.batch_fractions (Some Examples.history) = Some out /\
    In x out /\
    g_date x = "05/03/2024"%string /\
    g_usage_ccf x = 3%float /\
    g_usage_therms x = 3.111%float /\
    g_average_ccf x = Some 2.5%float.
Proof.
  destruct (gas_usage_therms ExampleDate.Date_parse Examples.clk
              Examples.batch_fractions (Some Examples.history)) as (_ & H & _).
  destruct (H (Examples.gas "5/3" "05/03/2024" 3 (Some 2.5%float)))
    as (r' & out & x & Hl & Hs & Hx & Hd & Hc & Ha & Hr).
  - right. now left.
  - vm_compute. reflexivity.
  - vm_compute in Hl. injection Hl as <-.
    exists out, x. split; [exact Hs|]. split; [exact Hx|].
    split; [exact Hd|]. split; [exact Hc|]. split; [|exact Ha].
    cbn [gr_usage_ccf Examples.gas] in Hr.
    destruct (Prim2SF (3 * 1.037)%float) as [sg|sg| |sg m e] eqn:E;
      vm_compute in E; try discriminate.
    injection E as <- <- <-.
    rewrite (rounded_value _ _ _ _ _ _ Hr eq_refl); vm_compute; reflexivity.
Defined.
